(** * Browser-side page controllers of the language-learning site

    A shallow embedding of the page scripts (multi_draw.js, chat.js,
    home.js, dictionary.js, profile.js, matching-2.js) and the properties
    of their handlers.  Every script is single threaded: a handler runs to
    completion on the page's variables and DOM, so a handler is a function
    from the page state before the event to the page state after it.

    The first part of the file holds the models, one module per script;
    the second the notions the statements are written with and the pages
    used as examples; the third the lemmas and theorems. *)

From Stdlib Require Import ZArith NArith List String Ascii Bool Lia Arith.
From Stdlib Require Import Sorted Permutation FinFun.
From Stdlib Require Import DecimalString DecimalN DecimalZ DecimalNat.
Import ListNotations.
Open Scope string_scope.

(** ** The JavaScript values and objects the scripts rely on *)

Module JS.

(** [n.toString()] for the integers the scripts print: counters that only
    grow from zero are [nat], identifiers and loop indexes that may go
    below zero are [Z]. *)
Definition nat_to_string (n : nat) : string :=
  NilEmpty.string_of_uint (Nat.to_uint n).

Definition N_to_string (n : N) : string :=
  NilEmpty.string_of_uint (N.to_uint n).

Definition Z_to_string (z : Z) : string :=
  NilZero.string_of_int (Z.to_int z).

(** A property key is a string.  It is an array index when it is the
    canonical decimal form of an integer below 2^32 - 1; such keys are
    enumerated first, in ascending numeric order, and the other keys follow
    in the order of their creation. *)
Definition array_index (k : string) : option N :=
  match NilEmpty.uint_of_string k with
  | Some d =>
      let n := N.of_uint d in
      if (N_to_string n =? k) && (n <? 4294967295)%N then Some n else None
  | None => None
  end.

(** An ordinary object with values in [V]: its own properties, listed in
    enumeration ([for ... in]) order. *)
Definition obj (V : Type) : Type := list (string * V).

Fixpoint obj_get {V} (k : string) (o : obj V) : option V :=
  match o with
  | [] => None
  | (k', v) :: r => if k' =? k then Some v else obj_get k r
  end.

Definition obj_mem {V} (k : string) (o : obj V) : bool :=
  match obj_get k o with Some _ => true | None => false end.

(** Writing to a property that exists keeps its place in the order. *)
Fixpoint obj_update {V} (k : string) (v : V) (o : obj V) : obj V :=
  match o with
  | [] => []
  | (k', v') :: r =>
      if k' =? k then (k', v) :: r else (k', v') :: obj_update k v r
  end.

(** A new array-index key goes before the first property that is not a
    smaller array index. *)
Fixpoint obj_insert_index {V} (n : N) (k : string) (v : V) (o : obj V)
  : obj V :=
  match o with
  | [] => [(k, v)]
  | (k', v') :: r =>
      match array_index k' with
      | Some m =>
          if (m <? n)%N then (k', v') :: obj_insert_index n k v r
          else (k, v) :: o
      | None => (k, v) :: o
      end
  end.

(** [o[k] = v] *)
Definition obj_set {V} (k : string) (v : V) (o : obj V) : obj V :=
  if obj_mem k o then obj_update k v o
  else match array_index k with
       | Some n => obj_insert_index n k v o
       | None => (o ++ [(k, v)])%list
       end.

Definition obj_keys {V} (o : obj V) : list string := map fst o.
Definition obj_values {V} (o : obj V) : list V := map snd o.

(** How a call ends: it returns, it throws a [TypeError] (a property is
    read from [null] or [undefined]), or it is still running when the
    steps allowed to it are used up. *)
Module Outcome.

Inductive outcome (A : Type) : Type :=
| Returned (a : A)
| TypeError
| Running.
Arguments Returned {A} a.
Arguments TypeError {A}.
Arguments Running {A}.

Definition bind {A B} (m : outcome A) (f : A -> outcome B) : outcome B :=
  match m with
  | Returned a => f a
  | TypeError => TypeError
  | Running => Running
  end.

(** A value that may be [null] or [undefined], about to be used. *)
Definition defined {A} (o : option A) : outcome A :=
  match o with
  | Some a => Returned a
  | None => TypeError
  end.

Notation "x <- m ;; k" := (bind m (fun x => k))
  (at level 61, m at next level, right associativity).

End Outcome.

End JS.

(** ** JSON text of an object whose values are strings

    [JSON.stringify] on the stroke snapshot object, and [JSON.parse] on the
    texts of that shape.  Strings are sequences of bytes; a byte below 32,
    the quote and the backslash are escaped, every other byte is copied. *)

Module Json.

Definition quote : ascii := ascii_of_N 34.
Definition backslash : ascii := ascii_of_N 92.

Definition hex_digit (n : N) : ascii :=
  if (n <? 10)%N then ascii_of_N (48 + n) else ascii_of_N (87 + n).

Definition hex_value (c : ascii) : option N :=
  let n := N_of_ascii c in
  if (48 <=? n)%N && (n <=? 57)%N then Some (n - 48)%N
  else if (97 <=? n)%N && (n <=? 102)%N then Some (n - 87)%N
  else if (65 <=? n)%N && (n <=? 70)%N then Some (n - 55)%N
  else None.

Definition escape_char (c : ascii) : string :=
  let n := N_of_ascii c in
  if (n =? 34)%N then String backslash (String quote EmptyString)
  else if (n =? 92)%N then String backslash (String backslash EmptyString)
  else if (n =? 8)%N then String backslash "b"
  else if (n =? 12)%N then String backslash "f"
  else if (n =? 10)%N then String backslash "n"
  else if (n =? 13)%N then String backslash "r"
  else if (n =? 9)%N then String backslash "t"
  else if (n <? 32)%N then
    String backslash
      (String "u" (String "0" (String "0"
         (String (hex_digit (n / 16)) (String (hex_digit (n mod 16)) EmptyString)))))
  else String c EmptyString.

Fixpoint escape (s : string) : string :=
  match s with
  | EmptyString => EmptyString
  | String c r => escape_char c ++ escape r
  end.

Definition stringify_string (s : string) : string :=
  String quote (escape s ++ String quote EmptyString).

Definition stringify_member (kv : string * string) : string :=
  stringify_string (fst kv) ++ ":" ++ stringify_string (snd kv).

Fixpoint stringify_members (o : JS.obj string) : string :=
  match o with
  | [] => EmptyString
  | [kv] => stringify_member kv
  | kv :: r => stringify_member kv ++ "," ++ stringify_members r
  end.

(** [JSON.stringify(o)] *)
Definition stringify (o : JS.obj string) : string :=
  "{" ++ stringify_members o ++ "}".

Definition unescape_short (c : ascii) : option ascii :=
  let n := N_of_ascii c in
  if (n =? 34)%N then Some quote
  else if (n =? 92)%N then Some backslash
  else if (n =? 47)%N then Some "/"%char
  else if (n =? 98)%N then Some (ascii_of_N 8)
  else if (n =? 102)%N then Some (ascii_of_N 12)
  else if (n =? 110)%N then Some (ascii_of_N 10)
  else if (n =? 114)%N then Some (ascii_of_N 13)
  else if (n =? 116)%N then Some (ascii_of_N 9)
  else None.

(** A [\uXXXX] escape of a code unit below 128 is one byte; the others are
    outside the texts modelled here. *)
Definition unescape_hex (h1 h2 h3 h4 : ascii) : option ascii :=
  match hex_value h1, hex_value h2, hex_value h3, hex_value h4 with
  | Some a, Some b, Some c, Some d =>
      if (a =? 0)%N && (b =? 0)%N && (c <? 8)%N
      then Some (ascii_of_N (16 * c + d))
      else None
  | _, _, _, _ => None
  end.

Definition cons_char (c : ascii) (r : option (string * string))
  : option (string * string) :=
  match r with
  | Some (s, rest) => Some (String c s, rest)
  | None => None
  end.

(** The characters of a string literal after its opening quote, up to and
    including the closing quote; returns the string and the text after it. *)
Fixpoint parse_chars (s : string) : option (string * string) :=
  match s with
  | EmptyString => None
  | String c r =>
      if (N_of_ascii c =? 34)%N then Some (EmptyString, r)
      else if (N_of_ascii c =? 92)%N then
        match r with
        | EmptyString => None
        | String e r1 =>
            if (N_of_ascii e =? 117)%N then
              match r1 with
              | String h1 (String h2 (String h3 (String h4 r2))) =>
                  match unescape_hex h1 h2 h3 h4 with
                  | Some u => cons_char u (parse_chars r2)
                  | None => None
                  end
              | _ => None
              end
            else
              match unescape_short e with
              | Some u => cons_char u (parse_chars r1)
              | None => None
              end
        end
      else if (N_of_ascii c <? 32)%N then None
      else cons_char c (parse_chars r)
  end.

Definition parse_string (s : string) : option (string * string) :=
  match s with
  | String c r => if (N_of_ascii c =? 34)%N then parse_chars r else None
  | EmptyString => None
  end.

(** One member [ "key":"value" ] and the text after it. *)
Definition parse_member (s : string) : option ((string * string) * string) :=
  match parse_string s with
  | Some (k, String c r) =>
      if (N_of_ascii c =? 58)%N then
        match parse_string r with
        | Some (v, rest) => Some ((k, v), rest)
        | None => None
        end
      else None
  | _ => None
  end.

(** The members after the first, each introduced by a comma, up to the
    closing brace.  A member is created on the object being built with an
    ordinary property write, so a repeated key keeps the later value. *)
Fixpoint parse_rest (fuel : nat) (acc : JS.obj string) (s : string)
  : option (JS.obj string) :=
  match fuel with
  | O => None
  | S fuel' =>
      match s with
      | String c r =>
          if (N_of_ascii c =? 125)%N then
            match r with EmptyString => Some acc | _ => None end
          else if (N_of_ascii c =? 44)%N then
            match parse_member r with
            | Some ((k, v), rest) => parse_rest fuel' (JS.obj_set k v acc) rest
            | None => None
            end
          else None
      | EmptyString => None
      end
  end.

(** [JSON.parse(s)] for the text of an object with string values. *)
Definition parse (s : string) : option (JS.obj string) :=
  match s with
  | String c r =>
      if (N_of_ascii c =? 123)%N then
        match r with
        | String c' r' =>
            if (N_of_ascii c' =? 125)%N then
              match r' with EmptyString => Some [] | _ => None end
            else
              match parse_member r with
              | Some ((k, v), rest) =>
                  parse_rest (String.length s) (JS.obj_set k v []) rest
              | None => None
              end
        | EmptyString => None
        end
      else None
  | EmptyString => None
  end.

End Json.


(** ** What the scripts send: [socket.emit(channel, payload)] *)

Module Socket.

Inductive field : Type :=
| FStr (s : string)
| FNum (z : Z)
| FBool (b : bool).

Record emitted : Type := Emit {
  channel : string;
  payload : list (string * field)
}.

Fixpoint field_of (k : string) (p : list (string * field)) : option field :=
  match p with
  | [] => None
  | (k', v) :: r => if k' =? k then Some v else field_of k r
  end.

End Socket.

(** ** multi_draw.js: the collaborative drawing session

    The page is modelled from the moment [init()] has run (the canvas, its
    context and its mouse listeners exist) and the elements the script
    looks up by id are those of the page. *)

Module MultiDraw.

Import Socket.

(** The elements the script reaches through [document.getElementById]. *)
Inductive elem_id : Type :=
| not_allowed | overlay | other_user_name | you_points | other_points
| clr | submit | ready_btn | ready_message | draw_statement
| drawing_canvas | other_canvas.

Definition elem_eqb (a b : elem_id) : bool :=
  match a, b with
  | not_allowed, not_allowed | overlay, overlay
  | other_user_name, other_user_name | you_points, you_points
  | other_points, other_points | clr, clr | submit, submit
  | ready_btn, ready_btn | ready_message, ready_message
  | draw_statement, draw_statement | drawing_canvas, drawing_canvas
  | other_canvas, other_canvas => true
  | _, _ => false
  end.

Record element : Type := Element {
  display : string;          (* style.display *)
  backgroundColor : string;  (* style.backgroundColor *)
  innerHTML : string
}.

Definition dom : Type := elem_id -> element.

Definition set_display (v : string) (e : element) : element :=
  {| display := v; backgroundColor := backgroundColor e;
     innerHTML := innerHTML e |}.
Definition set_backgroundColor (v : string) (e : element) : element :=
  {| display := display e; backgroundColor := v; innerHTML := innerHTML e |}.
Definition set_innerHTML (v : string) (e : element) : element :=
  {| display := display e; backgroundColor := backgroundColor e;
     innerHTML := v |}.

Definition dom_upd (i : elem_id) (f : element -> element) (d : dom) : dom :=
  fun j => if elem_eqb i j then f (d i) else d j.

(** One entry of [status]. *)
Record user_status : Type := UserStatus {
  submitted : bool;
  result : bool;
  user_id : Z;
  ready : bool;
  points : Z
}.

Definition set_submitted (v : bool) (u : user_status) : user_status :=
  {| submitted := v; result := result u; user_id := user_id u;
     ready := ready u; points := points u |}.
Definition set_result (v : bool) (u : user_status) : user_status :=
  {| submitted := submitted u; result := v; user_id := user_id u;
     ready := ready u; points := points u |}.
Definition set_user_id (v : Z) (u : user_status) : user_status :=
  {| submitted := submitted u; result := result u; user_id := v;
     ready := ready u; points := points u |}.
Definition set_ready (v : bool) (u : user_status) : user_status :=
  {| submitted := submitted u; result := result u; user_id := user_id u;
     ready := v; points := points u |}.
Definition set_points (v : Z) (u : user_status) : user_status :=
  {| submitted := submitted u; result := result u; user_id := user_id u;
     ready := ready u; points := v |}.

(** The mouse position and the flag of a stroke in progress. *)
Record pen : Type := Pen {
  drawing_ : bool;
  prevX : Z; currX : Z;
  prevY : Z; currY : Z
}.

(** What [draw()] puts on the canvas: a line between two positions. *)
Record segment : Type := Segment {
  fromX : Z; fromY : Z; toX : Z; toY : Z;
  strokeStyle : string; lineWidth : Z
}.

(** The drawing canvas: where it lies on the page and what was drawn on it
    since it was last cleared (latest first). *)
Record canvas_state : Type := Canvas {
  offsetLeft : Z;
  offsetTop : Z;
  drawn : list segment
}.

(** The challenge last received. *)
Record challenge : Type := Challenge {
  kana : string;
  sound : string;
  sound_num : Z
}.

Record page : Type := Page {
  mouse : pen;
  snapshots : JS.obj string;
  strokeNum : nat;
  waiting : bool;
  room : Z;
  own_id : Z;
  yourself : user_status;
  other_user : user_status;
  current : challenge;
  canvas : canvas_state;
  other_image : list string;  (* images drawn on the other user's canvas *)
  document : dom;
  sent : list emitted;        (* what was emitted, latest first *)
  location : option string    (* set by window.location.replace *)
}.

Definition line_colour : string := "black".
Definition line_width : Z := 20.

Definition with_mouse (v : pen) (s : page) : page :=
  {| mouse := v; snapshots := snapshots s; strokeNum := strokeNum s;
     waiting := waiting s; room := room s; own_id := own_id s;
     yourself := yourself s; other_user := other_user s;
     current := current s; canvas := canvas s;
     other_image := other_image s; document := document s;
     sent := sent s; location := location s |}.
Definition with_snapshots (v : JS.obj string) (s : page) : page :=
  {| mouse := mouse s; snapshots := v; strokeNum := strokeNum s;
     waiting := waiting s; room := room s; own_id := own_id s;
     yourself := yourself s; other_user := other_user s;
     current := current s; canvas := canvas s;
     other_image := other_image s; document := document s;
     sent := sent s; location := location s |}.
Definition with_strokeNum (v : nat) (s : page) : page :=
  {| mouse := mouse s; snapshots := snapshots s; strokeNum := v;
     waiting := waiting s; room := room s; own_id := own_id s;
     yourself := yourself s; other_user := other_user s;
     current := current s; canvas := canvas s;
     other_image := other_image s; document := document s;
     sent := sent s; location := location s |}.
Definition with_waiting (v : bool) (s : page) : page :=
  {| mouse := mouse s; snapshots := snapshots s; strokeNum := strokeNum s;
     waiting := v; room := room s; own_id := own_id s;
     yourself := yourself s; other_user := other_user s;
     current := current s; canvas := canvas s;
     other_image := other_image s; document := document s;
     sent := sent s; location := location s |}.
Definition with_room (v : Z) (s : page) : page :=
  {| mouse := mouse s; snapshots := snapshots s; strokeNum := strokeNum s;
     waiting := waiting s; room := v; own_id := own_id s;
     yourself := yourself s; other_user := other_user s;
     current := current s; canvas := canvas s;
     other_image := other_image s; document := document s;
     sent := sent s; location := location s |}.
Definition with_own_id (v : Z) (s : page) : page :=
  {| mouse := mouse s; snapshots := snapshots s; strokeNum := strokeNum s;
     waiting := waiting s; room := room s; own_id := v;
     yourself := yourself s; other_user := other_user s;
     current := current s; canvas := canvas s;
     other_image := other_image s; document := document s;
     sent := sent s; location := location s |}.
Definition with_yourself (v : user_status) (s : page) : page :=
  {| mouse := mouse s; snapshots := snapshots s; strokeNum := strokeNum s;
     waiting := waiting s; room := room s; own_id := own_id s;
     yourself := v; other_user := other_user s;
     current := current s; canvas := canvas s;
     other_image := other_image s; document := document s;
     sent := sent s; location := location s |}.
Definition with_other_user (v : user_status) (s : page) : page :=
  {| mouse := mouse s; snapshots := snapshots s; strokeNum := strokeNum s;
     waiting := waiting s; room := room s; own_id := own_id s;
     yourself := yourself s; other_user := v;
     current := current s; canvas := canvas s;
     other_image := other_image s; document := document s;
     sent := sent s; location := location s |}.
Definition with_current (v : challenge) (s : page) : page :=
  {| mouse := mouse s; snapshots := snapshots s; strokeNum := strokeNum s;
     waiting := waiting s; room := room s; own_id := own_id s;
     yourself := yourself s; other_user := other_user s;
     current := v; canvas := canvas s;
     other_image := other_image s; document := document s;
     sent := sent s; location := location s |}.
Definition with_canvas (v : canvas_state) (s : page) : page :=
  {| mouse := mouse s; snapshots := snapshots s; strokeNum := strokeNum s;
     waiting := waiting s; room := room s; own_id := own_id s;
     yourself := yourself s; other_user := other_user s;
     current := current s; canvas := v;
     other_image := other_image s; document := document s;
     sent := sent s; location := location s |}.
Definition with_other_image (v : list string) (s : page) : page :=
  {| mouse := mouse s; snapshots := snapshots s; strokeNum := strokeNum s;
     waiting := waiting s; room := room s; own_id := own_id s;
     yourself := yourself s; other_user := other_user s;
     current := current s; canvas := canvas s;
     other_image := v; document := document s;
     sent := sent s; location := location s |}.
Definition with_document (v : dom) (s : page) : page :=
  {| mouse := mouse s; snapshots := snapshots s; strokeNum := strokeNum s;
     waiting := waiting s; room := room s; own_id := own_id s;
     yourself := yourself s; other_user := other_user s;
     current := current s; canvas := canvas s;
     other_image := other_image s; document := v;
     sent := sent s; location := location s |}.
Definition with_sent (v : list emitted) (s : page) : page :=
  {| mouse := mouse s; snapshots := snapshots s; strokeNum := strokeNum s;
     waiting := waiting s; room := room s; own_id := own_id s;
     yourself := yourself s; other_user := other_user s;
     current := current s; canvas := canvas s;
     other_image := other_image s; document := document s;
     sent := v; location := location s |}.
Definition with_location (v : option string) (s : page) : page :=
  {| mouse := mouse s; snapshots := snapshots s; strokeNum := strokeNum s;
     waiting := waiting s; room := room s; own_id := own_id s;
     yourself := yourself s; other_user := other_user s;
     current := current s; canvas := canvas s;
     other_image := other_image s; document := document s;
     sent := sent s; location := v |}.

(** Shorthands for the statements of the script. *)
Definition style_display (i : elem_id) (v : string) (s : page) : page :=
  with_document (dom_upd i (set_display v) (document s)) s.
Definition style_backgroundColor (i : elem_id) (v : string) (s : page)
  : page :=
  with_document (dom_upd i (set_backgroundColor v) (document s)) s.
Definition inner_html (i : elem_id) (v : string) (s : page) : page :=
  with_document (dom_upd i (set_innerHTML v) (document s)) s.
Definition emit (ch : string) (p : list (string * field)) (s : page) : page :=
  with_sent (Emit ch p :: sent s) s.

(** The variables as the script declares them, on a page whose elements
    and canvas are [d] and [c]. *)
Definition fresh_status : user_status :=
  {| submitted := false; result := false; user_id := 0; ready := false;
     points := 0 |}.

Definition initial (d : dom) (c : canvas_state) : page :=
  {| mouse := {| drawing_ := false; prevX := 0; currX := 0;
                 prevY := 0; currY := 0 |};
     snapshots := []; strokeNum := 0; waiting := true; room := 0;
     own_id := 0; yourself := fresh_status; other_user := fresh_status;
     current := {| kana := EmptyString; sound := EmptyString;
                   sound_num := 0 |};
     canvas := c; other_image := []; document := d; sent := [];
     location := None |}.

(** *** The handlers *)

Section Handlers.

(** [canvas.toDataURL()]: the raster of what is on the canvas, as the
    browser encodes it. *)
Variable toDataURL : list segment -> string.

(** socket.on('connect') *)
Definition on_connect (s : page) : page :=
  emit "message" [("EventType", FStr "connected")]
    (emit "message" [("EventType", FStr "check_allowed")] s).

(** socket.on('move_user') *)
Definition on_move_user (url : string) (s : page) : page :=
  with_location (Some url) s.

(** socket.on('allowed_check') *)
Definition on_allowed_check (allowed : bool) (s : page) : page :=
  if negb allowed then style_display not_allowed "block" s else s.

(** socket.on('info') *)
Definition on_info (data_room data_UserID : Z) (s : page) : page :=
  let s := with_room data_room s in
  let s := with_own_id data_UserID s in
  let s := emit "join" [("username", FNum (own_id s));
                        ("room", FNum (room s))] s in
  let s := with_yourself (set_user_id (own_id s) (yourself s)) s in
  emit "message" [("UserID", FNum (own_id s)); ("room", FNum (room s));
                  ("EventType", FStr "waiting")] s.

(** socket.on('recv_img').  The image is drawn when the browser has
    decoded it; the handler itself marks the other user as having
    submitted and hides the canvas when this user has not. *)
Definition on_recv_img (image : string) (s : page) : page :=
  let s := with_other_user (set_submitted true (other_user s)) s in
  let s := with_other_image (image :: other_image s) s in
  if negb (submitted (yourself s))
  then style_display other_canvas "none" s
  else s.

(** socket.on('other_connection') *)
Definition on_other_connection (username : string) (UserID : Z) (s : page)
  : page :=
  let s := style_display overlay "none" s in
  let s := inner_html other_user_name username s in
  let s := with_other_user (set_user_id UserID (other_user s)) s in
  with_waiting false s.

(** socket.on('wait') *)
Definition on_wait (s : page) : page :=
  let s := style_display overlay "block" s in
  emit "message" [("UserID", FNum (own_id s)); ("EventType", FStr "waiting");
                  ("room", FNum (room s))] s.

(** colour_results() *)
Definition colour_results (s : page) : page :=
  if submitted (yourself s) && submitted (other_user s) then
    let s := style_display ready_btn "block" s in
    let s :=
      if negb (result (other_user s))
      then style_backgroundColor other_canvas "red" s
      else style_backgroundColor other_canvas "#67e088" s in
    if negb (result (yourself s))
    then style_backgroundColor drawing_canvas "red" s
    else style_backgroundColor drawing_canvas "#67e088" s
  else s.

(** socket.on('result_img') *)
Definition on_result_img (UserID : Z) (data_result : bool) (data_points : Z)
    (s : page) : page :=
  let s :=
    if (UserID =? own_id s)%Z then
      let s := with_yourself (set_result data_result (yourself s)) s in
      if data_result then
        let s := with_yourself
                   (set_points (points (yourself s) + data_points)
                      (yourself s)) s in
        inner_html you_points
          (JS.Z_to_string (points (yourself s)) ++ " POINTS") s
      else s
    else
      let s := with_other_user (set_result data_result (other_user s)) s in
      if data_result then
        let s := with_other_user
                   (set_points (points (other_user s) + data_points)
                      (other_user s)) s in
        inner_html other_points
          (JS.Z_to_string (points (other_user s)) ++ " POINTS") s
      else s in
  colour_results s.

(** socket.on('other_ready') *)
Definition on_other_ready (UserID : Z) (s : page) : page :=
  if (UserID =? user_id (other_user s))%Z
  then with_other_user (set_ready true (other_user s)) s
  else s.

(** erase() *)
Definition erase (s : page) : page :=
  let s := with_snapshots [] s in
  let s := with_strokeNum 0 s in
  with_canvas {| offsetLeft := offsetLeft (canvas s);
                 offsetTop := offsetTop (canvas s); drawn := [] |} s.

(** clear_other() *)
Definition clear_other (s : page) : page :=
  let s := style_backgroundColor other_canvas "white" s in
  with_other_image [] s.

(** socket.on('recv_challenge') *)
Definition on_recv_challenge (data : challenge) (s : page) : page :=
  let s := erase s in
  let s := style_backgroundColor drawing_canvas "white" s in
  let s := clear_other s in
  let s := style_display clr "inline" s in
  let s := style_display submit "inline" s in
  let s := style_display ready_btn "none" s in
  let s := style_display ready_message "none" s in
  let s := with_yourself (set_submitted false (yourself s)) s in
  let s := with_yourself (set_result false (yourself s)) s in
  let s := with_yourself (set_ready false (yourself s)) s in
  let s := with_other_user (set_submitted false (other_user s)) s in
  let s := with_other_user (set_result false (other_user s)) s in
  let s := with_other_user (set_ready false (other_user s)) s in
  let s := with_current {| kana := kana data; sound := sound data;
                           sound_num := sound_num data |} s in
  inner_html draw_statement
    ("Draw the character for '" ++ sound (current s) ++ "'") s.

(** leave_game() *)
Definition leave_game (s : page) : page :=
  emit "message" [("EventType", FStr "leave_room"); ("room", FNum (room s))] s.

(** draw() *)
Definition draw (s : page) : page :=
  let m := mouse s in
  with_canvas
    {| offsetLeft := offsetLeft (canvas s); offsetTop := offsetTop (canvas s);
       drawn := {| fromX := prevX m; fromY := prevY m;
                   toX := currX m; toY := currY m;
                   strokeStyle := line_colour; lineWidth := line_width |}
                :: drawn (canvas s) |} s.

(** save() *)
Definition save (s : page) : page :=
  if negb (waiting s) then
    let s := style_display clr "none" s in
    let s := style_display submit "none" s in
    let image := Json.stringify (snapshots s) in
    let s := emit "message"
               [("UserID", FNum (own_id s)); ("EventType", FStr "image_submit");
                ("image_data", FStr image); ("room", FNum (room s));
                ("sound_num", FNum (sound_num (current s)))] s in
    let s := with_yourself (set_submitted true (yourself s)) s in
    style_display other_canvas "inline" s
  else erase s.

(** ready() *)
Definition ready_click (s : page) : page :=
  let s := style_display ready_message "block" s in
  let s := with_yourself (set_ready true (yourself s)) s in
  emit "message"
    [("EventType", FStr "user_ready"); ("UserID", FNum (user_id (yourself s)));
     ("OtherID", FNum (user_id (other_user s)));
     ("both", FBool (if ready (other_user s) then true else false));
     ("room", FNum (room s))] s.

(** The four kinds of mouse event [init()] listens to. *)
Inductive mouse_kind : Type := down | up | out | move.

(** findcoords(res, event) *)
Definition findcoords (res : mouse_kind) (clientX clientY : Z) (s : page)
  : page :=
  match res with
  | down =>
      let s := with_strokeNum (strokeNum s + 1) s in
      let m := mouse s in
      with_mouse {| drawing_ := true;
                    prevX := currX m;
                    currX := clientX - offsetLeft (canvas s);
                    prevY := currY m;
                    currY := clientY - offsetTop (canvas s) |} s
  | up =>
      let src := toDataURL (drawn (canvas s)) in
      let tmp := "stroke" ++ JS.nat_to_string (strokeNum s) in
      let s := with_snapshots (JS.obj_set tmp src (snapshots s)) s in
      let m := mouse s in
      with_mouse {| drawing_ := false; prevX := prevX m; currX := currX m;
                    prevY := prevY m; currY := currY m |} s
  | out =>
      let m := mouse s in
      with_mouse {| drawing_ := false; prevX := prevX m; currX := currX m;
                    prevY := prevY m; currY := currY m |} s
  | move =>
      if drawing_ (mouse s) then
        let m := mouse s in
        let s := with_mouse {| drawing_ := drawing_ m;
                               prevX := currX m;
                               currX := clientX - offsetLeft (canvas s);
                               prevY := currY m;
                               currY := clientY - offsetTop (canvas s) |} s in
        draw s
      else s
  end.

(** What can happen to the page: a message from the server, a mouse event
    on the canvas, or a click on one of the buttons. *)
Inductive event : Type :=
| Connect
| MoveUser (url : string)
| AllowedCheck (allowed : bool)
| Info (data_room data_UserID : Z)
| RecvImg (image : string)
| OtherConnection (username : string) (UserID : Z)
| Wait
| ResultImg (UserID : Z) (data_result : bool) (data_points : Z)
| OtherReady (UserID : Z)
| RecvChallenge (data : challenge)
| Mouse (res : mouse_kind) (clientX clientY : Z)
| ClickClear
| ClickSubmit
| ClickReady
| ClickLeave.

Definition step (e : event) (s : page) : page :=
  match e with
  | Connect => on_connect s
  | MoveUser url => on_move_user url s
  | AllowedCheck a => on_allowed_check a s
  | Info r u => on_info r u s
  | RecvImg i => on_recv_img i s
  | OtherConnection n u => on_other_connection n u s
  | Wait => on_wait s
  | ResultImg u r p => on_result_img u r p s
  | OtherReady u => on_other_ready u s
  | RecvChallenge d => on_recv_challenge d s
  | Mouse r x y => findcoords r x y s
  | ClickClear => erase s
  | ClickSubmit => save s
  | ClickReady => ready_click s
  | ClickLeave => leave_game s
  end.

(** The page after a sequence of events, earliest first. *)
Fixpoint run (es : list event) (s : page) : page :=
  match es with
  | [] => s
  | e :: r => run r (step e s)
  end.

(** One stroke: the button goes down, the mouse moves over the canvas
    (each entry: [true] for a move, [false] for leaving the canvas), the
    button goes up. *)
Record stroke : Type := Stroke {
  pressed_at : Z * Z;
  path : list (bool * (Z * Z));
  released_at : Z * Z
}.

Definition stroke_events (k : stroke) : list event :=
  (Mouse down (fst (pressed_at k)) (snd (pressed_at k))
   :: map (fun p : bool * (Z * Z) => Mouse (if fst p then move else out)
                      (fst (snd p)) (snd (snd p))) (path k)
   ++ [Mouse up (fst (released_at k)) (snd (released_at k))])%list.

End Handlers.

End MultiDraw.

(** ** chat.js: the chat room *)

Module Chat.

Import Socket.
Import JS.Outcome.

(** A message as the server sends it: the array [[text, time, sender]],
    where [time] is the unix time the message was sent at. *)
Record message : Type := Message {
  text : string;
  time : N;
  sender : Z
}.

(** The values found in the object [to_add] and in the arrays made from
    it: the array [[text, sender]], a number, or [undefined]. *)
Inductive jsval : Type :=
| undefined
| num (z : Z)
| entry (body : string) (from : Z).

(** The two message elements of the page that are cloned. *)
Inductive template : Type := your_message | other_message.

(** A child of [messages_container]. *)
Record node : Type := Node {
  node_id : string;
  style : string;
  html : string;        (* the innerHTML of children[0].children[0] *)
  cloned_from : option template
}.

Record page : Type := Page {
  yours_id : Z;
  yours_messages : list message;
  others_id : Z;
  others_messages : list message;
  your_ind : nat;
  other_ind : nat;
  room : Z;
  container : list node;
  mess_input : string;
  sent : list emitted
}.

Definition with_view (yi oi : nat) (c : list node) (s : page) : page :=
  {| yours_id := yours_id s; yours_messages := yours_messages s;
     others_id := others_id s; others_messages := others_messages s;
     your_ind := yi; other_ind := oi; room := room s; container := c;
     mess_input := mess_input s; sent := sent s |}.

Definition with_messages (ym om : list message) (s : page) : page :=
  {| yours_id := yours_id s; yours_messages := ym;
     others_id := others_id s; others_messages := om;
     your_ind := your_ind s; other_ind := other_ind s; room := room s;
     container := container s; mess_input := mess_input s; sent := sent s |}.

Definition with_sent (m : list emitted) (s : page) : page :=
  {| yours_id := yours_id s; yours_messages := yours_messages s;
     others_id := others_id s; others_messages := others_messages s;
     your_ind := your_ind s; other_ind := other_ind s; room := room s;
     container := container s; mess_input := mess_input s; sent := m |}.

(** [document.getElementById(id).remove()] on the children of the
    container: the first element with that id goes; without one the call
    is made on [null]. *)
Fixpoint remove_by_id (id : string) (c : list node) : option (list node) :=
  match c with
  | [] => None
  | n :: r =>
      if node_id n =? id then Some r
      else match remove_by_id id r with
           | Some r' => Some (n :: r')
           | None => None
           end
  end.

(** [for (let z = 1; z <= ind; z++) getElementById(prefix + z).remove()],
    with [z] the next index and [todo] the number of rounds left. *)
Fixpoint remove_loop (prefix : string) (z todo : nat) (c : list node)
  : option (list node) :=
  match todo with
  | O => Some c
  | S todo' =>
      match remove_by_id (prefix ++ JS.nat_to_string z) c with
      | Some c' => remove_loop prefix (S z) todo' c'
      | None => None
      end
  end.

(** [to_add[m[1]] = [m[0], m[2]]] for each message of an array. *)
Definition add_messages (ms : list message) (to_add : JS.obj jsval)
  : JS.obj jsval :=
  fold_left
    (fun o m => JS.obj_set (JS.N_to_string (time m))
                  (entry (text m) (sender m)) o)
    ms to_add.

Definition to_add_of (mine theirs : list message) : JS.obj jsval :=
  add_messages theirs (add_messages mine []).

(** *** bubble(to_sort) *)

(** [to_sort[y]] *)
Definition at_index (y : Z) (o : JS.obj jsval) : jsval :=
  match JS.obj_get (JS.Z_to_string y) o with
  | Some v => v
  | None => undefined
  end.

(** [to_sort.length] *)
Definition length_of (o : JS.obj jsval) : jsval :=
  match JS.obj_get "length" o with
  | Some v => v
  | None => undefined
  end.

(** [x < length] for a number [x]: false unless [length] is a number (an
    array with two elements and [undefined] both convert to NaN). *)
Definition below (x : Z) (len : jsval) : bool :=
  match len with
  | num n => (x <? n)%Z
  | _ => false
  end.

(** The string an array [[text, sender]] converts to. *)
Definition joined (body : string) (from : Z) : string :=
  body ++ "," ++ JS.Z_to_string from.

(** [a > b] *)
Definition greater (a b : jsval) : bool :=
  match a, b with
  | num x, num y => (y <? x)%Z
  | entry ta sa, entry tb sb => String.ltb (joined tb sb) (joined ta sa)
  | _, _ => false
  end.

(** The body of the inner loop at index [y]. *)
Definition compare_swap (y : Z) (o : JS.obj jsval) (flag : bool)
  : JS.obj jsval * bool :=
  if greater (at_index y o) (at_index (y + 1) o) then
    let tmp := at_index y o in
    let o := JS.obj_set (JS.Z_to_string y) (at_index (y + 1) o) o in
    let o := JS.obj_set (JS.Z_to_string (y + 1)) tmp o in
    (o, true)
  else (o, flag).

(** [for (y = ...; y < length; y--) { ... }] from the current [y]. *)
Fixpoint inner_loop (fuel : nat) (len : jsval) (y : Z) (o : JS.obj jsval)
    (flag : bool) : outcome (JS.obj jsval * bool) :=
  match fuel with
  | O => Running
  | S fuel' =>
      if below y len then
        let '(o', flag') := compare_swap y o flag in
        inner_loop fuel' len (y - 1) o' flag'
      else Returned (o, flag)
  end.

(** [for (x = ...; x < length; x++) { flag = false; ...; if (flag ==
    false) break; }] from the current [x]. *)
Fixpoint outer_loop (fuel : nat) (len : jsval) (x : Z) (o : JS.obj jsval)
  : outcome (JS.obj jsval) :=
  match fuel with
  | O => Running
  | S fuel' =>
      if below x len then
        match inner_loop fuel' len 0 o false with
        | Returned (o', flag) =>
            if flag then outer_loop fuel' len (x + 1) o' else Returned o'
        | TypeError => TypeError
        | Running => Running
        end
      else Returned o
  end.

(** The loops of [bubble] for a given value of [length]. *)
Definition bubble_from (fuel : nat) (len : jsval) (to_sort : JS.obj jsval)
  : outcome (list jsval) :=
  match outer_loop fuel len 0 to_sort with
  | Returned o => Returned (rev (JS.obj_values o))
  | TypeError => TypeError
  | Running => Running
  end.

Definition bubble (fuel : nat) (to_sort : JS.obj jsval)
  : outcome (list jsval) :=
  bubble_from fuel (length_of to_sort) to_sort.

(** *** display_messages(message_list) *)

Definition clone (t : template) (id body : string) : node :=
  {| node_id := id; style := "display:block;"; html := body;
     cloned_from := Some t |}.

Fixpoint display_messages (message_list : list jsval) (s : page)
  : outcome page :=
  match message_list with
  | [] => Returned s
  | undefined :: _ => TypeError
  | num _ :: r =>
      (* [(5)[1]] is undefined, which no identifier equals *)
      let oi := S (other_ind s) in
      display_messages r
        (with_view (your_ind s) oi
           (container s
            ++ [clone other_message
                  ("other_message_" ++ JS.nat_to_string oi) "undefined"])
           s)
  | entry body from :: r =>
      if (from =? yours_id s)%Z then
        let yi := S (your_ind s) in
        display_messages r
          (with_view yi (other_ind s)
             (container s
              ++ [clone your_message
                    ("your_message_" ++ JS.nat_to_string yi) body])
             s)
      else
        let oi := S (other_ind s) in
        display_messages r
          (with_view (your_ind s) oi
             (container s
              ++ [clone other_message
                    ("other_message_" ++ JS.nat_to_string oi) body])
             s)
  end.

(** *** message_order() *)

(** The array [message_order_list] the function builds. *)
Definition message_order_list (fuel : nat) (s : page)
  : outcome (list jsval) :=
  bubble fuel (to_add_of (yours_messages s) (others_messages s)).

Definition message_order (fuel : nat) (s : page) : outcome page :=
  match remove_loop "your_message_" 1 (your_ind s) (container s) with
  | None => TypeError
  | Some c1 =>
      match remove_loop "other_message_" 1 (other_ind s) c1 with
      | None => TypeError
      | Some c2 =>
          match message_order_list fuel s with
          | Returned l => display_messages l (with_view 0 0 c2 s)
          | TypeError => TypeError
          | Running => Running
          end
      end
  end.

(** socket.on('recv_previous') *)
Definition on_recv_previous (fuel : nat) (data_yours data_others : list message)
    (s : page) : outcome page :=
  message_order fuel (with_messages data_yours data_others s).

(** socket.on('new_message'): the element at index 1 of the message is
    compared with this user's identifier. *)
Definition on_new_message (fuel : nat) (m : message) (s : page)
  : outcome page :=
  if (Z.of_N (time m) =? yours_id s)%Z
  then message_order fuel
         (with_messages (yours_messages s ++ [m]) (others_messages s) s)
  else message_order fuel
         (with_messages (yours_messages s) (others_messages s ++ [m]) s).

(** send_message() *)
Definition send_message (s : page) : page :=
  let s := with_sent
             (Emit "message"
                [("EventType", FStr "send_message");
                 ("mess", FStr (mess_input s));
                 ("MessageTo", FNum (others_id s));
                 ("MessageFrom", FNum (yours_id s))] :: sent s) s in
  {| yours_id := yours_id s; yours_messages := yours_messages s;
     others_id := others_id s; others_messages := others_messages s;
     your_ind := your_ind s; other_ind := other_ind s; room := room s;
     container := container s; mess_input := EmptyString; sent := sent s |}.

(** An id the script gives to a clone. *)
Definition generated_id (id : string) : bool :=
  String.prefix "your_message_" id || String.prefix "other_message_" id.

(** No element of the page as served carries an id of a clone. *)
Definition static_ids (c : list node) : bool :=
  forallb (fun n => negb (generated_id (node_id n))) c.

End Chat.

(** ** home.js: the leaderboard of the home page *)

Module Home.

(** A row of the table [leaderboard]: the innerHTML of its three cells. *)
Record row : Type := Row {
  number : string;
  username : string;
  points : string
}.

Record page : Type := Page {
  x : nat;
  leaderboard : list row
}.

(** socket.on('leaderboard'); [users] is [data['leaders']], a list of
    (Username, totalPoints). *)
Definition on_leaderboard (users : list (string * Z)) (s : page) : page :=
  fold_left
    (fun s user =>
       let x' := x s + 1 in
       {| x := x';
          leaderboard :=
            leaderboard s
            ++ [{| number := "#" ++ JS.nat_to_string x';
                   username := fst user;
                   points := JS.Z_to_string (snd user) |}] |})
    users
    {| x := 0; leaderboard := leaderboard s |}.

End Home.

(** ** profile.js: the results of a search for users *)

Module Profile.

(** A clone of [request_results] in [request_results_list]. *)
Record result : Type := Result {
  result_id : string;
  display : string;
  name_html : string;     (* children[0].innerHTML *)
  button_id : string      (* children[1].id *)
}.

Record page : Type := Page {
  x : Z;
  request_results_list : list result
}.

(** socket.on('found_users'); [users] is [data['people']], a list of
    (UserID, Username). *)
Definition on_found_users (users : list (Z * string)) (s : page) : page :=
  fold_left
    (fun s user =>
       let x' := (x s + 1)%Z in
       {| x := x';
          request_results_list :=
            request_results_list s
            ++ [{| result_id := "request_result_" ++ JS.Z_to_string x';
                   display := "block";
                   name_html := snd user;
                   button_id := "final_req_" ++ JS.Z_to_string (fst user) |}]
       |})
    users
    (if negb (List.length users =? 0)%nat
     then {| x := -1; request_results_list := request_results_list s |}
     else s).

End Profile.

(** ** dictionary.js: the results of a dictionary search

    The results region is the list of the children of [search_results];
    each child has an id and a list of parts (its own children).  An id of
    a box is looked up among the boxes, an id of a part among the parts of
    the boxes, both in document order. *)

Module Dictionary.

Import JS.Outcome.

Record part : Type := Part {
  part_id : string;
  tag : string;
  html : string
}.

Record box : Type := Box {
  box_id : string;
  display : string;
  parts : list part
}.

(** One search result as the server sends it. *)
Record entry : Type := Entry {
  PrimaryReading : string;
  Readings : list string;
  Meanings : list string
}.

Record page : Type := Page {
  current_index : nat;
  template : box;              (* the hidden element [search_result_] *)
  search_results : list box
}.

(** [getElementById(id).remove()] for the id of a box. *)
Fixpoint remove_box (id : string) (r : list box) : option (list box) :=
  match r with
  | [] => None
  | b :: r' =>
      if box_id b =? id then Some r'
      else match remove_box id r' with
           | Some r'' => Some (b :: r'')
           | None => None
           end
  end.

Fixpoint remove_loop (z todo : nat) (r : list box) : outcome (list box) :=
  match todo with
  | O => Returned r
  | S todo' =>
      r' <- defined (remove_box ("search_result_" ++ JS.nat_to_string z) r) ;;
      remove_loop (S z) todo' r'
  end.

(** [getElementById(id)] for the id of a part. *)
Fixpoint find_part (id : string) (r : list box) : option part :=
  match r with
  | [] => None
  | b :: r' =>
      match find (fun p => part_id p =? id) (parts b) with
      | Some p => Some p
      | None => find_part id r'
      end
  end.

(** [getElementById(id).appendChild(p)] for the id of a box. *)
Fixpoint append_to_box (id : string) (p : part) (r : list box)
  : option (list box) :=
  match r with
  | [] => None
  | b :: r' =>
      if box_id b =? id
      then Some ({| box_id := box_id b; display := display b;
                    parts := parts b ++ [p] |} :: r')
      else match append_to_box id p r' with
           | Some r'' => Some (b :: r'')
           | None => None
           end
  end.

(** [children[i]] of a clone, changed by [f]. *)
Fixpoint on_child (i : nat) (f : part -> part) (ps : list part)
  : option (list part) :=
  match ps, i with
  | [], _ => None
  | p :: r, O => Some (f p :: r)
  | p :: r, S i' =>
      match on_child i' f r with
      | Some r' => Some (p :: r')
      | None => None
      end
  end.

Definition set_id (v : string) (p : part) : part :=
  {| part_id := v; tag := tag p; html := html p |}.
Definition set_html (v : string) (p : part) : part :=
  {| part_id := part_id p; tag := tag p; html := v |}.

(** The clone of the template for result number [x]. *)
Definition clone_box (x : nat) (e : entry) (t : box) : outcome box :=
  let xs := JS.nat_to_string x in
  ps <- defined (on_child 1 (set_html (PrimaryReading e)) (parts t)) ;;
  ps <- defined (on_child 1 (set_id ("primary_" ++ xs)) ps) ;;
  ps <- defined (on_child 2 (set_id ("secondary_" ++ xs)) ps) ;;
  ps <- defined (on_child 3 (set_id ("meaning_" ++ xs)) ps) ;;
  Returned {| box_id := "search_result_" ++ xs; display := "block";
              parts := ps |}.

Definition heading (s : string) : part :=
  {| part_id := EmptyString; tag := "h2"; html := s |}.

(** The loop over [Readings] (with [kind] "secondary_") or [Meanings]
    (with [kind] "meaning_") of result number [x]; [y] counts the items
    already added. *)
Fixpoint add_items (kind : string) (x y : nat) (items : list string)
    (r : list box) : outcome (list box) :=
  match items with
  | [] => Returned r
  | item :: rest =>
      let xs := JS.nat_to_string x in
      let y' := y + 1 in
      n <- defined (find_part (kind ++ xs) r) ;;
      let c := set_html item (set_id (kind ++ xs ++ JS.nat_to_string y') n) in
      r' <- defined (append_to_box ("search_result_" ++ xs) c r) ;;
      add_items kind x y' rest r'
  end.

(** The body of the loop over the entries, for result number [x]. *)
Definition add_entry (x : nat) (e : entry) (t : box) (r : list box)
  : outcome (list box) :=
  let xs := JS.nat_to_string x in
  c <- clone_box x e t ;;
  let r := (r ++ [c])%list in
  r <- defined (append_to_box ("search_result_" ++ xs)
                  (heading "Other Readings:") r) ;;
  r <- add_items "secondary_" x 0 (Readings e) r ;;
  r <- defined (append_to_box ("search_result_" ++ xs)
                  (heading "Meanings:") r) ;;
  add_items "meaning_" x 0 (Meanings e) r.

(** The loop over the entries; [x] counts the results already added. *)
Fixpoint add_entries (x : nat) (entries : list entry) (s : page)
  : outcome page :=
  match entries with
  | [] => Returned s
  | e :: rest =>
      let x' := x + 1 in
      r <- add_entry x' e (template s) (search_results s) ;;
      add_entries x' rest
        {| current_index := x'; template := template s;
           search_results := r |}
  end.

(** socket.on('dictionary_results'); [entries] is [data['results']]. *)
Definition on_dictionary_results (entries : list entry) (s : page)
  : outcome page :=
  r <- remove_loop 1 (current_index s) (search_results s) ;;
  add_entries 0 entries
    {| current_index := 0; template := template s; search_results := r |}.

(** No box of the page as served carries the id of a result box. *)
Definition static_ids (r : list box) : bool :=
  forallb (fun b => negb (String.prefix "search_result_" (box_id b)
                          && negb (box_id b =? "search_result_"))) r.

End Dictionary.

(** ** matching-2.js: the matching game *)

Module Matching.

Import Socket.
Import JS.Outcome.

(** An element of the deck: the array [[character/sound, sound]].  Two
    arrays are the same for [indexOf] when they are the same object; [ref]
    tells the objects apart. *)
Record entry : Type := Entry {
  ref : nat;
  face : string;
  sound : string
}.

(** An element of [selected], [not_allowed] or [found]: an entry of the
    deck, or [undefined] when a card had no entry. *)
Definition slot : Type := option entry.

(** [a === b] *)
Definition same (a b : slot) : bool :=
  match a, b with
  | Some p, Some q => (ref p =? ref q)%nat
  | None, None => true
  | _, _ => false
  end.

(** [l.indexOf(a)]; [None] stands for -1. *)
Fixpoint indexOf (a : slot) (l : list slot) : option nat :=
  match l with
  | [] => None
  | b :: r =>
      if same b a then Some O
      else match indexOf a r with
           | Some i => Some (S i)
           | None => None
           end
  end.

(** [l.splice(i, 1)] for [i] an index or -1: -1 counts from the end. *)
Fixpoint remove_at (i : nat) (l : list slot) : list slot :=
  match l, i with
  | [], _ => []
  | _ :: r, O => r
  | a :: r, S i' => a :: remove_at i' r
  end.

Definition splice1 (i : option nat) (l : list slot) : list slot :=
  match i with
  | Some i => remove_at i l
  | None => removelast l
  end.

(** A clone of [card] in [matching]: the holder, and the card in it
    (children[0]) with its id, its class and whether a click on it still
    calls [this_one]. *)
Record card : Type := Card {
  hold_id : string;
  card_id : string;
  face_html : string;
  className : string;
  onclick : bool
}.

Record page : Type := Page {
  characters : list entry;
  points : nat;
  selected : list slot;
  not_allowed : list slot;
  found : list slot;
  matching : list card;
  result_html : string;
  points_html : string;
  overlay_display : string;   (* of the element [not_allowed] *)
  template_class : string;    (* the class of the card in the template *)
  next_ref : nat;             (* the objects received so far *)
  sent : list emitted
}.

Definition with_lists (ch : list entry) (sel na fo : list slot) (s : page)
  : page :=
  {| characters := ch; points := points s; selected := sel;
     not_allowed := na; found := fo; matching := matching s;
     result_html := result_html s; points_html := points_html s;
     overlay_display := overlay_display s;
     template_class := template_class s; next_ref := next_ref s;
     sent := sent s |}.

Definition with_matching (m : list card) (s : page) : page :=
  {| characters := characters s; points := points s; selected := selected s;
     not_allowed := not_allowed s; found := found s; matching := m;
     result_html := result_html s; points_html := points_html s;
     overlay_display := overlay_display s;
     template_class := template_class s; next_ref := next_ref s;
     sent := sent s |}.

Definition with_result (v : string) (s : page) : page :=
  {| characters := characters s; points := points s; selected := selected s;
     not_allowed := not_allowed s; found := found s; matching := matching s;
     result_html := v; points_html := points_html s;
     overlay_display := overlay_display s;
     template_class := template_class s; next_ref := next_ref s;
     sent := sent s |}.

Definition with_points (v : nat) (s : page) : page :=
  {| characters := characters s; points := v; selected := selected s;
     not_allowed := not_allowed s; found := found s; matching := matching s;
     result_html := result_html s;
     points_html := "Points: " ++ JS.nat_to_string v;
     overlay_display := overlay_display s;
     template_class := template_class s; next_ref := next_ref s;
     sent := sent s |}.

Definition emit (p : list (string * field)) (s : page) : page :=
  {| characters := characters s; points := points s; selected := selected s;
     not_allowed := not_allowed s; found := found s; matching := matching s;
     result_html := result_html s; points_html := points_html s;
     overlay_display := overlay_display s;
     template_class := template_class s; next_ref := next_ref s;
     sent := Emit "message" p :: sent s |}.

(** [getElementById(id)] for the id of a card, changed by [f]. *)
Fixpoint on_card (id : string) (f : card -> card) (m : list card)
  : option (list card) :=
  match m with
  | [] => None
  | c :: r =>
      if card_id c =? id then Some (f c :: r)
      else match on_card id f r with
           | Some r' => Some (c :: r')
           | None => None
           end
  end.

Definition set_class (v : string) (c : card) : card :=
  {| hold_id := hold_id c; card_id := card_id c; face_html := face_html c;
     className := v; onclick := onclick c |}.
Definition set_onclick (v : bool) (c : card) : card :=
  {| hold_id := hold_id c; card_id := card_id c; face_html := face_html c;
     className := className c; onclick := v |}.

(** [getElementById(id).remove()] for the id of a holder. *)
Fixpoint remove_holder (id : string) (m : list card) : option (list card) :=
  match m with
  | [] => None
  | c :: r =>
      if hold_id c =? id then Some r
      else match remove_holder id r with
           | Some r' => Some (c :: r')
           | None => None
           end
  end.

Fixpoint remove_holders (z todo : nat) (m : list card) : outcome (list card) :=
  match todo with
  | O => Returned m
  | S todo' =>
      m' <- defined (remove_holder ("card_hold_" ++ JS.nat_to_string z) m) ;;
      remove_holders (S z) todo' m'
  end.

(** The id of the card of [characters.indexOf(a)]: ["card_" + (ind + 1)]. *)
Definition card_of (a : slot) (s : page) : string :=
  "card_" ++ JS.nat_to_string
               (match indexOf a (map Some (characters s)) with
                | Some i => i + 1
                | None => 0
                end).

(** [a[1]] for an element of [selected]. *)
Definition sound_of (a : slot) : outcome string :=
  match a with
  | Some e => Returned (sound e)
  | None => TypeError
  end.

(** The end of [check()]: the deck is finished when ten entries are
    found. *)
Definition finish (s : page) : outcome page :=
  let s := with_lists (characters s) [] (not_allowed s) (found s) s in
  if (List.length (found s) =? 10)%nat then
    let s := with_lists [] [] [] [] s in
    let s := emit [("EventType", FStr "done_matches")] s in
    m <- remove_holders 1 10 (matching s) ;;
    let s := with_matching m s in
    Returned (emit [("EventType", FStr "match_connect")] s)
  else Returned s.

(** check() *)
Definition check (s : page) : outcome page :=
  match selected s with
  | [a; b] =>
      ka <- sound_of a ;;
      kb <- sound_of b ;;
      if ka =? kb then
        let s := with_result "Correct!" s in
        let s := with_lists (characters s) (selected s) (not_allowed s)
                   (found s ++ [a; b]) s in
        let card_a := card_of a s in
        let card_b := card_of b s in
        m <- defined (on_card card_a (set_class "disabled_correct")
                        (matching s)) ;;
        m <- defined (on_card card_b (set_class "disabled_correct") m) ;;
        m <- defined (on_card card_a (set_onclick false) m) ;;
        m <- defined (on_card card_b (set_onclick false) m) ;;
        let s := with_matching m s in
        let s := with_points (points s + 2) s in
        finish s
      else
        let card_a := card_of a s in
        let card_b := card_of b s in
        let s := with_result "Incorrect!" s in
        m <- defined (on_card card_a (set_class "match_card") (matching s)) ;;
        m <- defined (on_card card_b (set_class "match_card") m) ;;
        m <- defined (on_card card_a (set_onclick true) m) ;;
        m <- defined (on_card card_b (set_onclick true) m) ;;
        let s := with_matching m s in
        let na := splice1 (indexOf a (not_allowed s)) (not_allowed s) in
        let na := splice1 (indexOf b na) na in
        let s := with_lists (characters s) (selected s) na (found s) s in
        finish s
  | _ => Returned s
  end.

(** this_one(_id) for the id ["card_" + x] the script gave to a card;
    [parseInt] gives [x] back. *)
Definition this_one (x : nat) (s : page) : outcome page :=
  let _id := "card_" ++ JS.nat_to_string x in
  let this_char : slot :=
    match x with
    | O => None
    | S i => nth_error (characters s) i
    end in
  match indexOf this_char (not_allowed s) with
  | None =>
      let s := with_lists (characters s) (selected s ++ [this_char])
                 (not_allowed s) (found s) s in
      m <- defined (on_card _id (set_class "disabled_selected")
                      (matching s)) ;;
      let s := with_matching m s in
      let s := with_lists (characters s) (selected s)
                 (not_allowed s ++ [this_char]) (found s) s in
      check s
  | Some _ => Returned s
  end.

(** A click on the card with id ["card_" + x]: its [onclick] runs. *)
Definition click (x : nat) (s : page) : outcome page :=
  match find (fun c => card_id c =? "card_" ++ JS.nat_to_string x)
          (matching s) with
  | Some c => if onclick c then this_one x s else Returned s
  | None => Returned s
  end.

(** socket.on('character_list'); [list] is [data['list']], a list of
    (character/sound, sound), each a new array. *)
Fixpoint new_entries (r : nat) (l : list (string * string)) : list entry :=
  match l with
  | [] => []
  | p :: l' => {| ref := r; face := fst p; sound := snd p |}
               :: new_entries (S r) l'
  end.

Fixpoint new_cards (cls : string) (x : nat) (l : list entry) : list card :=
  match l with
  | [] => []
  | e :: l' =>
      {| hold_id := "card_hold_" ++ JS.nat_to_string (x + 1);
         card_id := "card_" ++ JS.nat_to_string (x + 1);
         face_html := face e; className := cls; onclick := true |}
      :: new_cards cls (x + 1) l'
  end.

Definition on_character_list (list : list (string * string)) (s : page)
  : page :=
  let cs := new_entries (next_ref s) list in
  {| characters := cs; points := points s; selected := selected s;
     not_allowed := not_allowed s; found := found s;
     matching := matching s ++ new_cards (template_class s) 0 cs;
     result_html := result_html s; points_html := points_html s;
     overlay_display := overlay_display s;
     template_class := template_class s;
     next_ref := next_ref s + List.length list;
     sent := sent s |}.

(** The page as the script starts on it. *)
Definition initial (cls : string) : page :=
  {| characters := []; points := 0; selected := []; not_allowed := [];
     found := []; matching := []; result_html := EmptyString;
     points_html := EmptyString; overlay_display := "none";
     template_class := cls; next_ref := 0; sent := [] |}.

End Matching.


(** ** drawing_single.js: the solo drawing challenge

    The page is modelled from the moment [init()] has run, as the
    collaborative page is; the pen, the lines and the canvas are those of
    that page. *)

Module Single.

Import Socket.

(** The three buttons under the canvas, by their [style.display]. *)
Record controls : Type := Controls {
  clr : string;
  submit : string;
  continue_ : string
}.

(** The element [incorrect_drawing] and the children the script writes. *)
Record panel : Type := Panel {
  panel_display : string;
  animation_src : string;     (* children[2].src *)
  strokes_html : string;      (* children[3].innerHTML *)
  mistaken_html : string      (* children[4].innerHTML *)
}.

Record page : Type := Page {
  mouse : MultiDraw.pen;
  snapshots : JS.obj string;
  strokeNum : nat;
  own_id : Z;
  current : MultiDraw.challenge;
  points : Z;
  canvas : MultiDraw.canvas_state;
  background : string;        (* the backgroundColor of the canvas *)
  not_allowed : string;       (* the display of the overlay *)
  draw_message : string;
  buttons : controls;
  incorrect_drawing : panel;
  points_html : string;
  sent : list emitted
}.

(** [a.toString()] for an array of strings. *)
Fixpoint join (l : list string) : string :=
  match l with
  | [] => EmptyString
  | [a] => a
  | a :: r => a ++ "," ++ join r
  end.

Definition emit (p : list (string * field)) (s : page) : page :=
  {| mouse := mouse s; snapshots := snapshots s; strokeNum := strokeNum s;
     own_id := own_id s; current := current s; points := points s;
     canvas := canvas s; background := background s;
     not_allowed := not_allowed s; draw_message := draw_message s;
     buttons := buttons s; incorrect_drawing := incorrect_drawing s;
     points_html := points_html s; sent := Emit "message" p :: sent s |}.

Definition with_mouse (m : MultiDraw.pen) (s : page) : page :=
  {| mouse := m; snapshots := snapshots s; strokeNum := strokeNum s;
     own_id := own_id s; current := current s; points := points s;
     canvas := canvas s; background := background s;
     not_allowed := not_allowed s; draw_message := draw_message s;
     buttons := buttons s; incorrect_drawing := incorrect_drawing s;
     points_html := points_html s; sent := sent s |}.

Definition with_strokes (o : JS.obj string) (n : nat) (s : page) : page :=
  {| mouse := mouse s; snapshots := o; strokeNum := n;
     own_id := own_id s; current := current s; points := points s;
     canvas := canvas s; background := background s;
     not_allowed := not_allowed s; draw_message := draw_message s;
     buttons := buttons s; incorrect_drawing := incorrect_drawing s;
     points_html := points_html s; sent := sent s |}.

Definition with_drawn (l : list MultiDraw.segment) (s : page) : page :=
  {| mouse := mouse s; snapshots := snapshots s; strokeNum := strokeNum s;
     own_id := own_id s; current := current s; points := points s;
     canvas := {| MultiDraw.offsetLeft := MultiDraw.offsetLeft (canvas s);
                  MultiDraw.offsetTop := MultiDraw.offsetTop (canvas s);
                  MultiDraw.drawn := l |};
     background := background s;
     not_allowed := not_allowed s; draw_message := draw_message s;
     buttons := buttons s; incorrect_drawing := incorrect_drawing s;
     points_html := points_html s; sent := sent s |}.

Definition with_buttons (b : controls) (s : page) : page :=
  {| mouse := mouse s; snapshots := snapshots s; strokeNum := strokeNum s;
     own_id := own_id s; current := current s; points := points s;
     canvas := canvas s; background := background s;
     not_allowed := not_allowed s; draw_message := draw_message s;
     buttons := b; incorrect_drawing := incorrect_drawing s;
     points_html := points_html s; sent := sent s |}.

Definition with_background (v : string) (s : page) : page :=
  {| mouse := mouse s; snapshots := snapshots s; strokeNum := strokeNum s;
     own_id := own_id s; current := current s; points := points s;
     canvas := canvas s; background := v;
     not_allowed := not_allowed s; draw_message := draw_message s;
     buttons := buttons s; incorrect_drawing := incorrect_drawing s;
     points_html := points_html s; sent := sent s |}.

Definition with_panel (p : panel) (s : page) : page :=
  {| mouse := mouse s; snapshots := snapshots s; strokeNum := strokeNum s;
     own_id := own_id s; current := current s; points := points s;
     canvas := canvas s; background := background s;
     not_allowed := not_allowed s; draw_message := draw_message s;
     buttons := buttons s; incorrect_drawing := p;
     points_html := points_html s; sent := sent s |}.

(** The variables as the script declares them, on a page whose text and
    buttons are as served. *)
Definition initial (c : MultiDraw.canvas_state) (bg overlay message : string)
    (b : controls) (p : panel) (total : string) : page :=
  {| mouse := {| MultiDraw.drawing_ := false; MultiDraw.prevX := 0;
                 MultiDraw.currX := 0; MultiDraw.prevY := 0;
                 MultiDraw.currY := 0 |};
     snapshots := []; strokeNum := 0; own_id := 0;
     current := {| MultiDraw.kana := EmptyString;
                   MultiDraw.sound := EmptyString;
                   MultiDraw.sound_num := 0 |};
     points := 0; canvas := c; background := bg; not_allowed := overlay;
     draw_message := message; buttons := b; incorrect_drawing := p;
     points_html := total; sent := [] |}.

Section Handlers.

Variable toDataURL : list MultiDraw.segment -> string.

(** socket.on('connect') *)
Definition on_connect (s : page) : page :=
  emit [("EventType", FStr "request_info")]
    (emit [("EventType", FStr "check_allowed")] s).

(** socket.on('allowed_check') *)
Definition on_allowed_check (allowed : bool) (s : page) : page :=
  if negb allowed then
    {| mouse := mouse s; snapshots := snapshots s; strokeNum := strokeNum s;
       own_id := own_id s; current := current s; points := points s;
       canvas := canvas s; background := background s;
       not_allowed := "block"; draw_message := draw_message s;
       buttons := buttons s; incorrect_drawing := incorrect_drawing s;
       points_html := points_html s; sent := sent s |}
  else s.

(** socket.on('info'): the identifier received goes to a variable of the
    handler, declared with [var]; the variable [own_id] of the script is
    not written. *)
Definition on_info (data_UserID : Z) (s : page) : page :=
  emit [("EventType", FStr "ask_for_challenge")] s.

(** socket.on('recv_challenge') *)
Definition on_recv_challenge (data : MultiDraw.challenge) (s : page) : page :=
  {| mouse := mouse s; snapshots := snapshots s; strokeNum := strokeNum s;
     own_id := own_id s;
     current := {| MultiDraw.kana := MultiDraw.kana data;
                   MultiDraw.sound := MultiDraw.sound data;
                   MultiDraw.sound_num := MultiDraw.sound_num data |};
     points := points s; canvas := canvas s; background := background s;
     not_allowed := not_allowed s;
     draw_message := "Draw the character for: " ++ MultiDraw.sound data;
     buttons := {| clr := "block"; submit := "block"; continue_ := "none" |};
     incorrect_drawing := incorrect_drawing s;
     points_html := points_html s; sent := sent s |}.

(** What a [result_single] message carries. *)
Record marking : Type := Marking {
  result : bool;
  data_points : Z;
  char_animation : string;
  incorrect_strokes : string;  (* what [toString()] gives for the value *)
  mistaken_for : list string
}.

(** socket.on('result_single') *)
Definition on_result_single (data : marking) (s : page) : page :=
  let s :=
    if negb (result data) then
      let s := with_background "#ff0000" s in
      with_panel
        {| panel_display := "block";
           animation_src := char_animation data;
           strokes_html :=
             "You got stroke "
             ++ incorrect_strokes data
             ++ " incorrect.";
           mistaken_html :=
             "The neural network thought your drawing looked most like: "
             ++ join (mistaken_for data) |} s
    else
      let total := (points s + data_points data)%Z in
      {| mouse := mouse s; snapshots := snapshots s;
         strokeNum := strokeNum s; own_id := own_id s;
         current := current s; points := total;
         canvas := canvas s; background := "#67e088";
         not_allowed := not_allowed s; draw_message := draw_message s;
         buttons := buttons s; incorrect_drawing := incorrect_drawing s;
         points_html := JS.Z_to_string total ++ " POINTS";
         sent := sent s |} in
  with_buttons {| clr := clr (buttons s); submit := submit (buttons s);
                  continue_ := "block" |} s.

(** draw() *)
Definition draw (s : page) : page :=
  let m := mouse s in
  with_drawn
    ({| MultiDraw.fromX := MultiDraw.prevX m;
        MultiDraw.fromY := MultiDraw.prevY m;
        MultiDraw.toX := MultiDraw.currX m;
        MultiDraw.toY := MultiDraw.currY m;
        MultiDraw.strokeStyle := MultiDraw.line_colour;
        MultiDraw.lineWidth := MultiDraw.line_width |}
     :: MultiDraw.drawn (canvas s)) s.

(** erase() *)
Definition erase (s : page) : page :=
  with_drawn [] (with_strokes [] 0 s).

(** save() *)
Definition save (s : page) : page :=
  let s := with_buttons {| clr := "none"; submit := "none";
                           continue_ := continue_ (buttons s) |} s in
  let image := Json.stringify (snapshots s) in
  emit [("UserID", FNum (own_id s));
        ("EventType", FStr "image_submit_single");
        ("image_data", FStr image);
        ("sound_num", FNum (MultiDraw.sound_num (current s)));
        ("sound", FStr (MultiDraw.sound (current s)))] s.

(** next() *)
Definition next (s : page) : page :=
  let s := with_background "white" s in
  let s := emit [("EventType", FStr "ask_for_challenge")] s in
  let s := with_buttons {| clr := clr (buttons s); submit := submit (buttons s);
                           continue_ := "none" |} s in
  let s := with_panel
             {| panel_display := "none";
                animation_src := animation_src (incorrect_drawing s);
                strokes_html := strokes_html (incorrect_drawing s);
                mistaken_html := mistaken_html (incorrect_drawing s) |} s in
  erase s.

(** findcoords(event_type, event) *)
Definition findcoords (event_type : MultiDraw.mouse_kind)
    (clientX clientY : Z) (s : page) : page :=
  let m := mouse s in
  match event_type with
  | MultiDraw.down =>
      let s := with_strokes (snapshots s) (strokeNum s + 1) s in
      with_mouse
        {| MultiDraw.drawing_ := true;
           MultiDraw.prevX := MultiDraw.currX m;
           MultiDraw.currX := clientX - MultiDraw.offsetLeft (canvas s);
           MultiDraw.prevY := MultiDraw.currY m;
           MultiDraw.currY := clientY - MultiDraw.offsetTop (canvas s) |} s
  | MultiDraw.up =>
      let src := toDataURL (MultiDraw.drawn (canvas s)) in
      let s := with_strokes
                 (JS.obj_set ("Stroke" ++ JS.nat_to_string (strokeNum s)) src
                    (snapshots s))
                 (strokeNum s) s in
      with_mouse
        {| MultiDraw.drawing_ := false;
           MultiDraw.prevX := MultiDraw.prevX m;
           MultiDraw.currX := MultiDraw.currX m;
           MultiDraw.prevY := MultiDraw.prevY m;
           MultiDraw.currY := MultiDraw.currY m |} s
  | MultiDraw.out =>
      with_mouse
        {| MultiDraw.drawing_ := false;
           MultiDraw.prevX := MultiDraw.prevX m;
           MultiDraw.currX := MultiDraw.currX m;
           MultiDraw.prevY := MultiDraw.prevY m;
           MultiDraw.currY := MultiDraw.currY m |} s
  | MultiDraw.move =>
      if MultiDraw.drawing_ m then
        let s := with_mouse
                   {| MultiDraw.drawing_ := MultiDraw.drawing_ m;
                      MultiDraw.prevX := MultiDraw.currX m;
                      MultiDraw.currX :=
                        clientX - MultiDraw.offsetLeft (canvas s);
                      MultiDraw.prevY := MultiDraw.currY m;
                      MultiDraw.currY :=
                        clientY - MultiDraw.offsetTop (canvas s) |} s in
        draw s
      else s
  end.

Inductive event : Type :=
| Connect
| AllowedCheck (allowed : bool)
| Info (data_UserID : Z)
| RecvChallenge (data : MultiDraw.challenge)
| ResultSingle (data : marking)
| Mouse (event_type : MultiDraw.mouse_kind) (clientX clientY : Z)
| ClickClear
| ClickSubmit
| ClickNext.

Definition step (e : event) (s : page) : page :=
  match e with
  | Connect => on_connect s
  | AllowedCheck a => on_allowed_check a s
  | Info u => on_info u s
  | RecvChallenge d => on_recv_challenge d s
  | ResultSingle d => on_result_single d s
  | Mouse k x y => findcoords k x y s
  | ClickClear => erase s
  | ClickSubmit => save s
  | ClickNext => next s
  end.

Fixpoint run (es : list event) (s : page) : page :=
  match es with
  | [] => s
  | e :: r => run r (step e s)
  end.

(** The events of a stroke of the collaborative page, on this page. *)
Definition stroke_events (k : MultiDraw.stroke) : list event :=
  (Mouse MultiDraw.down (fst (MultiDraw.pressed_at k))
     (snd (MultiDraw.pressed_at k))
   :: map (fun p : bool * (Z * Z) =>
             Mouse (if fst p then MultiDraw.move else MultiDraw.out)
               (fst (snd p)) (snd (snd p))) (MultiDraw.path k)
   ++ [Mouse MultiDraw.up (fst (MultiDraw.released_at k))
         (snd (MultiDraw.released_at k))])%list.

End Handlers.

End Single.

(** ** chat.js: the handlers around [message_order]

    The events of a chat page, over the page and the functions of
    [Chat]. *)

Module ChatSession.

Import Socket.
Import JS.Outcome.
Import Chat.

(** socket.on('connect') *)
Definition on_connect (s : page) : page :=
  with_sent (Emit "message" [("EventType", FStr "who_are_we")] :: sent s) s.

(** socket.on('you_are') *)
Definition on_you_are (you them data_room : Z) (s : page) : page :=
  {| yours_id := you; yours_messages := yours_messages s;
     others_id := them; others_messages := others_messages s;
     your_ind := your_ind s; other_ind := other_ind s; room := data_room;
     container := container s; mess_input := mess_input s;
     sent := Emit "message"
               [("EventType", FStr "get_messages"); ("Other", FNum them)]
             :: Emit "join" [("username", FNum you); ("room", FNum data_room)]
             :: sent s |}.

(** The user types into [mess_input]. *)
Definition type_message (v : string) (s : page) : page :=
  {| yours_id := yours_id s; yours_messages := yours_messages s;
     others_id := others_id s; others_messages := others_messages s;
     your_ind := your_ind s; other_ind := other_ind s; room := room s;
     container := container s; mess_input := v; sent := sent s |}.

Inductive event : Type :=
| Connect
| YouAre (you them data_room : Z)
| RecvPrevious (data_yours data_others : list message)
| NewMessage (m : message)
| Typed (v : string)
| ClickSend.

Definition step (fuel : nat) (e : event) (s : page) : outcome page :=
  match e with
  | Connect => Returned (on_connect s)
  | YouAre y t r => Returned (on_you_are y t r s)
  | RecvPrevious ys os => on_recv_previous fuel ys os s
  | NewMessage m => on_new_message fuel m s
  | Typed v => Returned (type_message v s)
  | ClickSend => Returned (send_message s)
  end.

(** The events one after the other; an exception in a handler leaves the
    page to the next event in the browser, here the run stops at it. *)
Fixpoint run (fuel : nat) (es : list event) (s : page) : outcome page :=
  match es with
  | [] => Returned s
  | e :: r => s' <- step fuel e s ;; run fuel r s'
  end.

(** The variables as the script declares them, on the page as served. *)
Definition initial (served : list node) (input : string) : page :=
  {| yours_id := 0; yours_messages := []; others_id := 0;
     others_messages := []; your_ind := 0; other_ind := 0; room := 0;
     container := served; mess_input := input; sent := [] |}.

End ChatSession.

(** ** profile.js: the buttons of the friends pages *)

Module Friends.

Import Socket.

(** [s] without its first [n] characters. *)
Fixpoint skip (n : nat) (s : string) : string :=
  match n, s with
  | O, _ => s
  | S n', String _ r => skip n' r
  | S _, EmptyString => EmptyString
  end.

(** [s.replace(pat, '')] for a string [pat]: the first occurrence of
    [pat] in [s] is taken out. *)
Fixpoint replace_first (pat s : string) : string :=
  if String.prefix pat s then skip (String.length pat) s
  else match s with
       | EmptyString => EmptyString
       | String c r => String c (replace_first pat r)
       end.

(** An element of the page that carries an id, with what [final_request]
    writes: its value and whether a click on it still calls a function. *)
Record button : Type := Button {
  button_id : string;
  value : string;
  onclick : bool
}.

Record page : Type := Page {
  buttons : list button;      (* in document order *)
  sent : list emitted
}.

(** The page a function leaves, and whether it returned or threw. *)
Record attempt : Type := Attempt {
  after : page;
  returned : bool
}.

Definition emit (p : list (string * field)) (s : page) : page :=
  {| buttons := buttons s; sent := Emit "message" p :: sent s |}.

(** [btn = getElementById(id_)], then the value [Requested] and the empty
    string as [onclick], on the first element with this id. *)
Fixpoint mark_requested (id_ : string) (l : list button)
  : option (list button) :=
  match l with
  | [] => None
  | b :: r =>
      if button_id b =? id_
      then Some ({| button_id := button_id b; value := "Requested";
                    onclick := false |} :: r)
      else match mark_requested id_ r with
           | Some r' => Some (b :: r')
           | None => None
           end
  end.

(** final_request(id_) *)
Definition final_request (id_ : string) (s : page) : attempt :=
  let user := replace_first "final_req_" id_ in
  let s := emit [("EventType", FStr "request_user"); ("UserID", FStr user)]
             s in
  match mark_requested id_ (buttons s) with
  | Some l => {| after := {| buttons := l; sent := sent s |};
                 returned := true |}
  | None => {| after := s; returned := false |}
  end.

(** accept_user(id_) *)
Definition accept_user (id_ : string) (s : page) : page :=
  let user := replace_first "accept_" id_ in
  emit [("EventType", FStr "accept"); ("UserID", FStr user)] s.

(** reject_user(id_) *)
Definition reject_user (id_ : string) (s : page) : page :=
  let user := replace_first "reject_" id_ in
  emit [("EventType", FStr "reject"); ("UserID", FStr user)] s.

(** view_user(id_) *)
Definition view_user (id_ : string) (s : page) : page :=
  let user := replace_first "friend_" id_ in
  emit [("EventType", FStr "view_other_profile"); ("OtherUsername", FStr user)]
    s.

End Friends.

(** ** profile.js: what the page asks for when it connects *)

Module ProfileConnect.

Import Socket.

(** [s.includes(sub)] *)
Fixpoint includes (sub s : string) : bool :=
  String.prefix sub s
  || match s with
     | EmptyString => false
     | String _ r => includes sub r
     end.

(** [s.split("/")] *)
Fixpoint split (s : string) : list string :=
  match s with
  | EmptyString => [EmptyString]
  | String c r =>
      if Ascii.eqb c "/" then EmptyString :: split r
      else match split r with
           | h :: t => String c h :: t
           | [] => [String c EmptyString]
           end
  end.

Record page : Type := Page {
  href : string;              (* window.location.href *)
  sent : list emitted
}.

Definition emit (p : list (string * field)) (s : page) : page :=
  {| href := href s; sent := Emit "message" p :: sent s |}.

(** socket.on('connect'); [usernme[usernme.length - 1]] is the last
    element of the array, which [split] never leaves empty. *)
Definition on_connect (s : page) : page :=
  let wndow := href s in
  if includes "other-profile" wndow then
    let usernme := split wndow in
    emit [("EventType", FStr "get_profile_data");
          ("OtherUsername", FStr (last usernme "undefined"))] s
  else if includes "change-password" wndow then
    emit [("EventType", FStr "check_pword_change")] s
  else
    let s := emit [("EventType", FStr "get_settings")] s in
    emit [("EventType", FStr "get_profile_data")] s.

End ProfileConnect.

(** * Notions used in the statements *)

Section DrawingNotions.

Import MultiDraw.

(** The other user's canvas is hidden whenever their image has arrived and
    this user has not submitted. *)
Definition peer_hidden (s : page) : Prop :=
  submitted (other_user s) = true ->
  submitted (yourself s) = false ->
  display (document s other_canvas) = "none".

Definition both_submitted (s : page) : bool :=
  submitted (yourself s) && submitted (other_user s).

(** Nothing on the page shows a result: the canvases have the background
    of the page [d] as served or white, and the ready button is as served
    or hidden. *)
Definition uncoloured (d : dom) (s : page) : Prop :=
  (backgroundColor (document s drawing_canvas)
   = backgroundColor (d drawing_canvas)
   \/ backgroundColor (document s drawing_canvas) = "white")
  /\ (backgroundColor (document s other_canvas)
      = backgroundColor (d other_canvas)
      \/ backgroundColor (document s other_canvas) = "white")
  /\ (display (document s ready_btn) = display (d ready_btn)
      \/ display (document s ready_btn) = "none").

(** What the colouring of the results reads and writes. *)
Record view : Type := View {
  v_waiting : bool;
  v_own_id : Z;
  v_submitted : bool * bool;      (* this user, the other user *)
  v_result : bool * bool;
  v_background : string * string; (* drawing_canvas, other_canvas *)
  v_ready : string                (* the display of the ready button *)
}.

Definition view_of (s : page) : view :=
  {| v_waiting := waiting s;
     v_own_id := own_id s;
     v_submitted := (submitted (yourself s), submitted (other_user s));
     v_result := (result (yourself s), result (other_user s));
     v_background := (backgroundColor (document s drawing_canvas),
                      backgroundColor (document s other_canvas));
     v_ready := display (document s ready_btn) |}.

Definition view_colour (v : view) : view :=
  if fst (v_submitted v) && snd (v_submitted v) then
    {| v_waiting := v_waiting v; v_own_id := v_own_id v;
       v_submitted := v_submitted v; v_result := v_result v;
       v_background := (if fst (v_result v) then "#67e088" else "red",
                        if snd (v_result v) then "#67e088" else "red");
       v_ready := "block" |}
  else v.

(** The effect of an event on the view. *)
Definition view_step (e : event) (v : view) : view :=
  match e with
  | Info _ u =>
      {| v_waiting := v_waiting v; v_own_id := u;
         v_submitted := v_submitted v; v_result := v_result v;
         v_background := v_background v; v_ready := v_ready v |}
  | OtherConnection _ _ =>
      {| v_waiting := false; v_own_id := v_own_id v;
         v_submitted := v_submitted v; v_result := v_result v;
         v_background := v_background v; v_ready := v_ready v |}
  | RecvImg _ =>
      {| v_waiting := v_waiting v; v_own_id := v_own_id v;
         v_submitted := (fst (v_submitted v), true); v_result := v_result v;
         v_background := v_background v; v_ready := v_ready v |}
  | ResultImg u r _ =>
      view_colour
        {| v_waiting := v_waiting v; v_own_id := v_own_id v;
           v_submitted := v_submitted v;
           v_result := if (u =? v_own_id v)%Z then (r, snd (v_result v))
                       else (fst (v_result v), r);
           v_background := v_background v; v_ready := v_ready v |}
  | RecvChallenge _ =>
      {| v_waiting := v_waiting v; v_own_id := v_own_id v;
         v_submitted := (false, false); v_result := (false, false);
         v_background := ("white", "white"); v_ready := "none" |}
  | ClickSubmit =>
      if v_waiting v then v
      else {| v_waiting := v_waiting v; v_own_id := v_own_id v;
              v_submitted := (true, snd (v_submitted v));
              v_result := v_result v;
              v_background := v_background v; v_ready := v_ready v |}
  | _ => v
  end.

(** The six ways the two submissions and the two results of a round can
    arrive, each result after its own submission. *)
Definition round_orders (img : string) (own : Z) (r1 : bool) (p1 : Z)
    (peer : Z) (r2 : bool) (p2 : Z) : list (list event) :=
  let S := ClickSubmit in
  let I := RecvImg img in
  let Rs := ResultImg own r1 p1 in
  let Ro := ResultImg peer r2 p2 in
  [ [S; Rs; I; Ro]; [S; I; Rs; Ro]; [S; I; Ro; Rs];
    [I; S; Rs; Ro]; [I; S; Ro; Rs]; [I; Ro; S; Rs] ].

(** While this user waits for another, nothing has been submitted. *)
Definition waiting_unsubmitted (s : page) : Prop :=
  waiting s = true -> submitted (yourself s) = false.

End DrawingNotions.

(** The other user has joined and their image arrives before this user
    has submitted. *)
Definition served : MultiDraw.dom :=
  fun _ => MultiDraw.Element "inline" "white" EmptyString.

Definition peer_first : list MultiDraw.event :=
  [MultiDraw.Info 3 1; MultiDraw.OtherConnection "ann" 7;
   MultiDraw.RecvImg "data:peer"].

Section JsonNotions.

Import Json.

(** The text after the first member of an object. *)
Fixpoint members_tail (l : JS.obj string) : string :=
  match l with
  | [] => "}"
  | kv :: r => "," ++ stringify_member kv ++ members_tail r
  end.

(** The object a sequence of property writes builds. *)
Definition written (l : list (string * string)) (acc : JS.obj string)
  : JS.obj string :=
  fold_left (fun o kv => JS.obj_set (fst kv) (snd kv) o) l acc.

End JsonNotions.

Section StrokeNotions.

Import MultiDraw.
Import Socket.

(** The part of the page a submission reads, apart from the strokes. *)
Definition session_of (s : page) : bool * Z * Z * challenge * list emitted :=
  (waiting s, own_id s, room s, current s, sent s).

End StrokeNotions.

(** Three short strokes on a page where the other user has joined. *)
Definition three_strokes_page : MultiDraw.page :=
  MultiDraw.on_other_connection "ann" 7
    (MultiDraw.initial
       (fun _ => MultiDraw.Element "inline" "white" EmptyString)
       (MultiDraw.Canvas 0 0 [])).

Definition short_stroke (x y : Z) : MultiDraw.stroke :=
  MultiDraw.Stroke (x, y) [(true, (x + 1, y + 1))%Z] (x + 1, y + 1)%Z.

Section ChatOrderNotions.

Import JS JS.Outcome Chat.
Local Open Scope list_scope.

(** The value of the latest message of [ms] sent at time [t]. *)
Fixpoint latest (t : N) (ms : list message) : option jsval :=
  match ms with
  | [] => None
  | m :: r =>
      match latest t r with
      | Some v => Some v
      | None =>
          if (time m =? t)%N then Some (entry (text m) (sender m)) else None
      end
  end.

Definition is_entry (v : jsval) : Prop :=
  match v with entry _ _ => True | _ => False end.

Definition shown (v : option jsval) : jsval :=
  match v with Some v => v | None => undefined end.

End ChatOrderNotions.

Section ChatRenderNotions.

Import JS JS.Outcome Chat.
Local Open Scope list_scope.

(** The ids of the clones when [yi] of this user's messages and [oi] of
    the other user's are shown. *)
Definition clone_ids (yi oi : nat) : list string :=
  map (fun z => ("your_message_" ++ nat_to_string z)%string) (seq 1 yi)
  ++ map (fun z => ("other_message_" ++ nat_to_string z)%string) (seq 1 oi).

(** The container holds the elements [base] of the page as served,
    followed by one clone for each id counted by the two indexes. *)
Definition consistent (base : list node) (s : page) : Prop :=
  static_ids base = true
  /\ exists gen,
       container s = base ++ gen
       /\ Permutation (map node_id gen) (clone_ids (your_ind s) (other_ind s)).

(** Removing the elements of a list of ids, one after the other. *)
Fixpoint remove_all (ids : list string) (c : list node)
  : option (list node) :=
  match ids with
  | [] => Some c
  | id :: r =>
      match remove_by_id id c with
      | Some c' => remove_all r c'
      | None => None
      end
  end.

End ChatRenderNotions.

(** A page with the two templates and three messages, two of them sent
    at the same time. *)
Definition chat_page : Chat.page :=
  {| Chat.yours_id := 1;
     Chat.yours_messages := [Chat.Message "hello" 1700000001 1;
                             Chat.Message "bye" 1700000005 1];
     Chat.others_id := 2;
     Chat.others_messages := [Chat.Message "hi" 1700000001 2];
     Chat.your_ind := 0; Chat.other_ind := 0; Chat.room := 3;
     Chat.container :=
       [Chat.Node "your_message" "display:none;" EmptyString None;
        Chat.Node "other_message" "display:none;" EmptyString None];
     Chat.mess_input := EmptyString; Chat.sent := [] |}.

Section DictionaryNotions.

Import JS JS.Outcome Dictionary.
Local Open Scope list_scope.

Definition result_id (z : nat) : string :=
  ("search_result_" ++ nat_to_string z)%string.

(** The results region holds the boxes [base] of the page as served,
    followed by one box for each result counted by [current_index], in
    order. *)
Definition tidy (base : list box) (s : page) : Prop :=
  static_ids base = true
  /\ exists boxes,
       search_results s = base ++ boxes
       /\ map box_id boxes = map result_id (seq 1 (current_index s)).

(** The page before any result was shown. *)
Definition fresh (t : box) (base : list box) : page :=
  {| current_index := 0; template := t; search_results := base |}.

(** A box has a part with a given id. *)
Definition has_part (id : string) (b : box) : Prop :=
  exists p, In p (parts b) /\ part_id p = id.

End DictionaryNotions.

Section RowNotions.

(** The rows the leaderboard handler makes from a message. *)
Definition leader_rows (users : list (string * Z)) : list Home.row :=
  Home.leaderboard
    (Home.on_leaderboard users {| Home.x := 0; Home.leaderboard := [] |}).

(** One round of the loop of the leaderboard handler. *)
Definition leader_round (s : Home.page) (user : string * Z) : Home.page :=
  {| Home.x := Home.x s + 1;
     Home.leaderboard :=
       Home.leaderboard s
       ++ [{| Home.number := ("#" ++ JS.nat_to_string (Home.x s + 1))%string;
              Home.username := fst user;
              Home.points := JS.Z_to_string (snd user) |}] |}.

(** The rows the handler of the search for users makes from a message. *)
Definition found_rows (users : list (Z * string)) : list Profile.result :=
  Profile.request_results_list
    (Profile.on_found_users users
       {| Profile.x := 0; Profile.request_results_list := [] |}).

(** One round of the loop of that handler. *)
Definition found_round (s : Profile.page) (user : Z * string)
  : Profile.page :=
  {| Profile.x := (Profile.x s + 1)%Z;
     Profile.request_results_list :=
       Profile.request_results_list s
       ++ [{| Profile.result_id :=
                ("request_result_"
                 ++ JS.Z_to_string (Profile.x s + 1)%Z)%string;
              Profile.display := "block";
              Profile.name_html := snd user;
              Profile.button_id :=
                ("final_req_" ++ JS.Z_to_string (fst user))%string |}] |}.

End RowNotions.

(** The hidden template of a search result, and a page that shows the
    result of an earlier search. *)
Definition result_template : Dictionary.box :=
  {| Dictionary.box_id := "search_result_";
     Dictionary.display := "none";
     Dictionary.parts :=
       [Dictionary.Part EmptyString "h1" "Reading";
        Dictionary.Part "primary_" "p" EmptyString;
        Dictionary.Part "secondary_" "p" EmptyString;
        Dictionary.Part "meaning_" "p" EmptyString] |}.

Definition searched_page : Dictionary.page :=
  {| Dictionary.current_index := 1;
     Dictionary.template := result_template;
     Dictionary.search_results :=
       [result_template;
        {| Dictionary.box_id := "search_result_1";
           Dictionary.display := "block";
           Dictionary.parts := [] |}] |}.

Section MatchingNotions.

Import JS JS.Outcome Matching.
Local Open Scope list_scope.

Definition card_id_of (z : nat) : string :=
  ("card_" ++ nat_to_string z)%string.
Definition hold_id_of (z : nat) : string :=
  ("card_hold_" ++ nat_to_string z)%string.

(** The deck is laid out: its entries are different objects, and the
    cards in [matching] are those made for them, in order. *)
Record laid (s : page) : Prop := Laid {
  laid_refs : NoDup (map ref (characters s));
  laid_cards :
    map card_id (matching s)
    = map card_id_of (seq 1 (List.length (characters s)));
  laid_holds :
    map hold_id (matching s)
    = map hold_id_of (seq 1 (List.length (characters s)))
}.

(** The element at position [i] changed by [f]. *)
Fixpoint upd {A : Type} (i : nat) (f : A -> A) (l : list A) {struct l}
  : list A :=
  match l, i with
  | [], _ => []
  | a :: r, O => f a :: r
  | a :: r, S i' => a :: upd i' f r
  end.

(** What a comparison leaves of a card: matched for good, or released. *)
Definition matched (c : card) : card :=
  set_onclick false (set_class "disabled_correct" c).
Definition released (c : card) : card :=
  set_onclick true (set_class "match_card" c).

End MatchingNotions.

(** A deck of five pairs, laid out on the page as the script starts on
    it, and the cards clicked one after the other. *)
Definition five_pairs : list (string * string) :=
  [("A", "a"); ("a", "a"); ("I", "i"); ("i", "i"); ("U", "u"); ("u", "u");
   ("E", "e"); ("e", "e"); ("O", "o"); ("o", "o")].

Definition game_page : Matching.page :=
  Matching.on_character_list five_pairs (Matching.initial "match_card").

Fixpoint play (clicks : list nat) (s : Matching.page)
  : JS.Outcome.outcome Matching.page :=
  match clicks with
  | [] => JS.Outcome.Returned s
  | x :: r => JS.Outcome.bind (Matching.click x s) (play r)
  end.

(** The page after the clicks, or the page itself when a click threw. *)
Definition after (clicks : list nat) (s : Matching.page) : Matching.page :=
  match play clicks s with
  | JS.Outcome.Returned s' => s'
  | _ => s
  end.


Section StrokeLabels.

Import MultiDraw.

(** The key [findcoords] writes a snapshot under when the counter is [n]. *)
Definition stroke_key (n : nat) : string :=
  "stroke" ++ JS.nat_to_string n.

(** A mouse position relative to the canvas. *)
Definition on_canvas (c : canvas_state) (p : Z * Z) : Z * Z :=
  (fst p - offsetLeft c, snd p - offsetTop c)%Z.

(** The line [draw()] makes between two positions on the canvas. *)
Definition line (p q : Z * Z) : segment :=
  {| fromX := fst p; fromY := snd p; toX := fst q; toY := snd q;
     strokeStyle := line_colour; lineWidth := line_width |}.

(** The lines through a sequence of positions, from [p], latest first. *)
Fixpoint polyline (p : Z * Z) (ps : list (Z * Z)) (acc : list segment)
  : list segment :=
  match ps with
  | [] => acc
  | q :: r => polyline q r (line p q :: acc)
  end.

Definition moves (ps : list (Z * Z)) : list event :=
  map (fun p : Z * Z => Mouse move (fst p) (snd p)) ps.

(** An [image_submit] message. *)
Definition is_image_submit (m : Socket.emitted) : bool :=
  match Socket.field_of "EventType" (Socket.payload m) with
  | Some (Socket.FStr t) => t =? "image_submit"
  | _ => false
  end.

Definition is_other_connection (e : event) : bool :=
  match e with OtherConnection _ _ => true | _ => false end.

Definition is_other_ready (e : event) : bool :=
  match e with OtherReady _ => true | _ => false end.

(** Every snapshot is under the key of a count not above the counter, and
    no key occurs twice. *)
Definition labelled (s : page) : Prop :=
  NoDup (JS.obj_keys (snapshots s))
  /\ forall k, In k (JS.obj_keys (snapshots s)) ->
               exists j, j <= strokeNum s /\ k = stroke_key j.

(** Nothing was submitted and this user still waits. *)
Definition still_waiting (s : page) : Prop :=
  waiting s = true /\ 
     forallb (fun m => negb (is_image_submit m)) (sent s) = true.

End StrokeLabels.

Section SoloNotions.

Import Single.

(** The key the solo page writes a snapshot under when the counter is
    [n]. *)
Definition solo_key (n : nat) : string :=
  "Stroke" ++ JS.nat_to_string n.

Definition solo_labelled (s : page) : Prop :=
  NoDup (JS.obj_keys (snapshots s))
  /\ forall k, In k (JS.obj_keys (snapshots s)) ->
               exists j, j <= strokeNum s /\ k = solo_key j.

(** An [image_submit_single] message. *)
Definition is_submit_single (m : Socket.emitted) : bool :=
  match Socket.field_of "EventType" (Socket.payload m) with
  | Some (Socket.FStr t) => t =? "image_submit_single"
  | _ => false
  end.


(** No submission so far carries another identifier than 0. *)
Definition anonymous (s : page) : Prop :=
  own_id s = 0%Z
  /\ forall m, In m (sent s) -> is_submit_single m = true ->
               Socket.field_of "UserID" (Socket.payload m)
               = Some (Socket.FNum 0).

End SoloNotions.

Section ChatSessionNotions.

Import Chat.

(** What is seen of a clone: its text, the template it was cloned from
    and its style. *)
Definition look (n : node) : string * option template * string :=
  (html n, cloned_from n, style n).

(** What [display_messages] shows for one element of its list, for the
    user [me]; nothing is shown for [undefined], where it throws. *)
Definition face (me : Z) (v : jsval)
  : option (string * option template * string) :=
  match v with
  | entry body from =>
      Some (body,
            Some (if (from =? me)%Z then your_message else other_message),
            "display:block;")
  | num _ => Some ("undefined", Some other_message, "display:block;")
  | undefined => None
  end.


End ChatSessionNotions.

Section DictionaryBoxNotions.

Import Dictionary.
Local Open Scope list_scope.

(** The children of the template as the clone for result [x] has them. *)
Definition cloned_parts (x : nat) (e : entry) (t : box) : list part :=
  let xs := JS.nat_to_string x in
  upd 3 (set_id ("meaning_" ++ xs))
    (upd 2 (set_id ("secondary_" ++ xs))
       (upd 1 (set_id ("primary_" ++ xs))
          (upd 1 (set_html (PrimaryReading e)) (parts t)))).

(** The id of item [y] of the readings or the meanings of result [x]. *)
Definition item_id (kind : string) (x y : nat) : string :=
  (kind ++ JS.nat_to_string x ++ JS.nat_to_string y)%string.

(** The parts [items] show the texts [texts], with the ids of the items
    of result [x] counted from [y] + 1. *)
Definition items_shown (kind : string) (x y : nat) (texts : list string)
    (items : list part) : Prop :=
  map html items = texts
  /\ map part_id items
     = map (item_id kind x) (seq (y + 1) (List.length texts)).

(** The box [b] shows result number [x], made from the entry [e] and the
    template [t]. *)
Definition result_box (t : box) (x : nat) (e : entry) (b : box) : Prop :=
  box_id b = result_id x
  /\ display b = "block"
  /\ exists readings meanings,
       parts b
       = cloned_parts x e t
         ++ heading "Other Readings:" :: readings
         ++ heading "Meanings:" :: meanings
       /\ items_shown "secondary_" x 0 (Readings e) readings
       /\ items_shown "meaning_" x 0 (Meanings e) meanings.

End DictionaryBoxNotions.

Section MatchingGameNotions.

Import Matching.
Local Open Scope list_scope.

(** A [done_matches] message. *)
Definition is_done (m : Socket.emitted) : bool :=
  match Socket.field_of "EventType" (Socket.payload m) with
  | Some (Socket.FStr t) => t =? "done_matches"
  | _ => false
  end.

(** The entries found in this deck, and ten for each deck finished. *)
Definition score (s : page) : nat :=
  List.length (found s) + 10 * List.length (filter is_done (sent s)).

(** A deck of at most ten cards is being played: the locked entries are
    those found followed by the one selected, if any; they are different
    entries of the deck; and the deck is not finished. *)
Definition playing (s : page) : Prop :=
  laid s
  /\ List.length (characters s) <= 10
  /\ exists fs ss,
       found s = map Some fs
       /\ selected s = map Some ss
       /\ not_allowed s = map Some (fs ++ ss)
       /\ List.length ss <= 1
       /\ NoDup (map ref (fs ++ ss))
       /\ incl (fs ++ ss) (characters s)
       /\ List.length fs < 10.

(** Nothing is on the board. *)
Definition cleared (s : page) : Prop :=
  matching s = [] /\ selected s = [] /\ not_allowed s = [] /\ found s = [].

End MatchingGameNotions.

Section IdentityNotions.

Import MultiDraw.

Definition is_info (e : event) : bool :=
  match e with Info _ _ => true | _ => false end.

(** The field [k] of a message, when it has one, is the number [v]. *)
Definition carries (k : string) (v : Z) (m : Socket.emitted) : bool :=
  match Socket.field_of k (Socket.payload m) with
  | None => true
  | Some (Socket.FNum z) => (z =? v)%Z
  | Some _ => false
  end.

(** Every message sent names the room [r] and the user [u], if any. *)
Definition addressed (r u : Z) (l : list Socket.emitted) : bool :=
  forallb (fun m => carries "room" r m && carries "UserID" u m
                    && carries "username" u m) l.

(** The page knows the room [r] and the user [u]. *)
Definition identified (r u : Z) (s : page) : Prop :=
  room s = r /\ own_id s = u /\ user_id (yourself s) = u
  /\ addressed r u (sent s) = true.

End IdentityNotions.
(** * Properties *)

(** Case analysis on the conditions of a handler, outermost first. *)
Ltac split_if :=
  match goal with
  | |- context [if ?b then _ else _] =>
      lazymatch b with
      | context [if _ then _ else _] => fail
      | _ => destruct b eqn:?
      end
  end.

Ltac by_cases := repeat (cbn; split_if); cbn in *; auto; try congruence.

(** Closes the cases whose conditions contradict each other. *)
Ltac absurd_case :=
  intros;
  repeat match goal with
         | H : negb ?b = _ |- _ => destruct b; cbn in H
         end;
  try congruence.

(** ** The collaborative drawing session *)

Section DrawingSession.

Import MultiDraw.

Variable toDataURL : list segment -> string.

#[local] Abbreviation step := (MultiDraw.step toDataURL).
#[local] Abbreviation run := (MultiDraw.run toDataURL).

(** An invariant of [step] holds after every sequence of events. *)
Lemma run_invariant (I : page -> Prop) :
  (forall e s, I s -> I (step e s)) ->
  forall es s, I s -> I (run es s).
Proof.
  intros Hstep es; induction es as [|e es IH]; intros s Hs; simpl; auto.
Qed.

Lemma run_app es1 es2 s : run (es1 ++ es2) s = run es2 (run es1 s).
Proof.
  revert s; induction es1 as [|e es1 IH]; intros s; simpl; auto.
Qed.

(** *** The other user's canvas *)

Lemma peer_hidden_step e s : peer_hidden s -> peer_hidden (step e s).
Proof.
  unfold peer_hidden; intros I.
  destruct e; simpl; try (exact I);
    unfold on_allowed_check, on_recv_img, on_result_img, colour_results,
      on_other_ready, findcoords, save;
    try destruct res; by_cases.
  all: intros; try (apply I; assumption); absurd_case.
Qed.

(** A step that changes the display of the other user's canvas is the
    receipt of their image before this user submitted, which hides it, or
    this user's submission, which shows it. *)
Lemma other_canvas_display_step e s :
  display (document (step e s) other_canvas)
  <> display (document s other_canvas) ->
  (exists image, e = RecvImg image /\ submitted (yourself s) = false
                 /\ display (document (step e s) other_canvas) = "none")
  \/ (e = ClickSubmit /\ waiting s = false
      /\ submitted (yourself (step e s)) = true
      /\ display (document (step e s) other_canvas) = "inline").
Proof.
  destruct e; simpl; try (intros H; now contradiction H).
  - unfold on_allowed_check; by_cases; intros H; now contradiction H.
  - unfold on_recv_img; cbn.
    destruct (submitted (yourself s)) eqn:Hs; cbn.
    + intros H; now contradiction H.
    + intros _; left; exists image; auto.
  - unfold on_result_img, colour_results; by_cases;
      intros H; now contradiction H.
  - unfold on_other_ready; by_cases; intros H; now contradiction H.
  - unfold findcoords; destruct res; by_cases; intros H; now contradiction H.
  - unfold save; destruct (waiting s) eqn:Hw; cbn.
    + intros H; now contradiction H.
    + intros _; right; auto.
Qed.

(** C1: in every interleaving of the events of the session the other
    user's canvas is hidden while their image has arrived and this user
    has not submitted; an image received before this user submitted hides
    the canvas at receipt; and the only step that turns the canvas from
    hidden to shown is this user's submission. *)
Theorem peer_canvas_hidden_until_submit :
  forall (d : dom) (c : canvas_state) (es : list event) (e : event),
    let s := run es (initial d c) in
    let s' := step e s in
    peer_hidden s
    /\ (forall image, e = RecvImg image ->
          submitted (yourself s) = false ->
          submitted (other_user s') = true
          /\ display (document s' other_canvas) = "none")
    /\ (display (document s other_canvas) = "none" ->
        display (document s' other_canvas) <> "none" ->
        e = ClickSubmit /\ waiting s = false
        /\ submitted (yourself s') = true
        /\ display (document s' other_canvas) = "inline").
Proof.
  intros d c es e s s'; split; [|split].
  - apply run_invariant; [exact peer_hidden_step|].
    unfold peer_hidden; cbn; discriminate.
  - intros image -> Hs; subst s'; simpl.
    unfold on_recv_img; cbn. rewrite Hs; cbn; auto.
  - intros Hn Hv.
    destruct (other_canvas_display_step e s) as [(i & _ & _ & H)|H].
    + fold s'; congruence.
    + fold s' in H; congruence.
    + exact H.
Qed.

(** *** Colouring the results *)

Lemma uncoloured_step d e s :
  both_submitted s = true \/ uncoloured d s ->
  both_submitted (step e s) = true \/ uncoloured d (step e s).
Proof.
  unfold both_submitted, uncoloured.
  destruct e; simpl; try (intros H; exact H).
  - unfold on_allowed_check; by_cases.
  - unfold on_recv_img; by_cases.
    + intros [H|H]; [left|right; exact H].
      apply andb_true_iff in H; destruct H as [H _]; rewrite H; auto.
    + intros [H|H]; [left|right; exact H].
      apply andb_true_iff in H; destruct H as [H _]; rewrite H; auto.
  - unfold on_result_img, colour_results; by_cases.
  - unfold on_other_ready; by_cases.
  - intros _; right; cbn; auto.
  - unfold findcoords; destruct res; by_cases.
  - unfold save, erase; by_cases.
    intros [H|H]; [left|right; exact H].
    apply andb_true_iff in H; destruct H as [_ H]; rewrite H; auto.
Qed.

Lemma view_of_step e s : view_of (step e s) = view_step e (view_of s).
Proof.
  destruct s as [m sn k w ro ow [ys yr yu yrd yp] [os or ou ord op]
                   cu cv oi doc se lo].
  destruct e; try reflexivity; unfold view_of, view_step, view_colour;
    cbn -[Z.add JS.Z_to_string append].
  - unfold on_allowed_check; by_cases.
  - unfold on_recv_img; destruct ys; reflexivity.
  - unfold on_result_img, colour_results;
      cbn -[Z.add JS.Z_to_string append].
    destruct (UserID =? ow)%Z, data_result, ys, os, yr, or; reflexivity.
  - unfold on_other_ready; by_cases.
  - unfold findcoords; destruct res; by_cases.
  - unfold save; destruct w; reflexivity.
Qed.

Lemma view_of_run es :
  forall s, view_of (run es s) = fold_left (fun v e => view_step e v) es
                                   (view_of s).
Proof.
  induction es as [|e es IH]; intros s; simpl; [reflexivity|].
  rewrite IH, view_of_step; reflexivity.
Qed.

Lemma round_orders_colours (img : string) (own : Z) (r1 : bool) (p1 peer : Z)
    (r2 : bool) (p2 : Z) (v : view) :
  v_waiting v = false -> v_own_id v = own -> peer <> own ->
  Forall
    (fun order =>
       let v' := fold_left (fun v e => view_step e v) order v in
       v_background v' = (if r1 then "#67e088" else "red",
                          if r2 then "#67e088" else "red")
       /\ v_ready v' = "block")
    (round_orders img own r1 p1 peer r2 p2).
Proof.
  intros Hw Ho Hp.
  assert (Hne : (peer =? own)%Z = false) by (apply Z.eqb_neq; exact Hp).
  destruct v as [w o [ys os] [yr or] [by_ bo] rd]; cbn in Hw, Ho; subst w o.
  unfold round_orders; repeat (apply Forall_cons); try apply Forall_nil;
    cbn; rewrite ?Z.eqb_refl, ?Hne;
    destruct ys, os, r1, r2; cbn; rewrite ?Z.eqb_refl, ?Hne; cbn; auto.
Qed.

(** C2: [colour_results] changes nothing unless both users have
    submitted; when both have, it gives each canvas the colour of its own
    user's result and shows the ready button; along every sequence of
    events no canvas is coloured and the button is not revealed while a
    submission is missing; and whichever way the submissions and results
    of a round arrive, the final colours are those of the two results. *)
Theorem colour_results_needs_both :
  forall (d : dom) (c : canvas_state) (es : list event),
    let s := run es (initial d c) in
    (both_submitted s = false -> colour_results s = s /\ uncoloured d s)
    /\ (both_submitted s = true ->
        let s' := colour_results s in
        backgroundColor (document s' drawing_canvas)
        = (if result (yourself s) then "#67e088" else "red")
        /\ backgroundColor (document s' other_canvas)
           = (if result (other_user s) then "#67e088" else "red")
        /\ display (document s' ready_btn) = "block")
    /\ (forall (img : string) (r1 : bool) (p1 peer : Z) (r2 : bool) (p2 : Z),
          waiting s = false -> peer <> own_id s ->
          Forall
            (fun order =>
               let s' := run order s in
               backgroundColor (document s' drawing_canvas)
               = (if r1 then "#67e088" else "red")
               /\ backgroundColor (document s' other_canvas)
                  = (if r2 then "#67e088" else "red")
               /\ display (document s' ready_btn) = "block")
            (round_orders img (own_id s) r1 p1 peer r2 p2)).
Proof.
  intros d c es s; split; [|split].
  - intros Hb; split.
    + unfold colour_results; fold (both_submitted s); rewrite Hb; auto.
    + assert (H : both_submitted s = true \/ uncoloured d s).
      { apply (run_invariant
                 (fun s => both_submitted s = true \/ uncoloured d s)).
        - intros e t; apply uncoloured_step.
        - right; unfold uncoloured; cbn; auto. }
      destruct H as [H|H]; [congruence|exact H].
  - intros Hb; unfold colour_results; fold (both_submitted s); rewrite Hb.
    by_cases.
  - intros img r1 p1 peer r2 p2 Hw Hp.
    pose proof (round_orders_colours img (own_id s) r1 p1 peer r2 p2
                  (view_of s) Hw eq_refl Hp) as H.
    eapply Forall_impl; [|exact H].
    intros order; cbv beta zeta. rewrite <- view_of_run.
    unfold view_of; cbn [v_background v_ready].
    intros [Hbg Hr]; injection Hbg as H1 H2; auto.
Qed.

(** *** A new challenge *)

(** C8: a new challenge clears both canvases and the recorded strokes,
    resets the submitted, result and ready fields of both users, shows
    the drawing controls again and records the challenge; the identifiers
    and the points of both users, and the other variables of the session,
    stay as they were. *)
Theorem recv_challenge_resets_round :
  forall (data : challenge) (s : page),
    let s' := on_recv_challenge data s in
    (drawn (canvas s') = [] /\ snapshots s' = [] /\ strokeNum s' = 0
     /\ other_image s' = []
     /\ backgroundColor (document s' drawing_canvas) = "white"
     /\ backgroundColor (document s' other_canvas) = "white")
    /\ (submitted (yourself s') = false /\ result (yourself s') = false
        /\ ready (yourself s') = false
        /\ submitted (other_user s') = false
        /\ result (other_user s') = false
        /\ ready (other_user s') = false)
    /\ (display (document s' clr) = "inline"
        /\ display (document s' submit) = "inline"
        /\ display (document s' ready_btn) = "none"
        /\ display (document s' ready_message) = "none")
    /\ (current s' = data
        /\ innerHTML (document s' draw_statement)
           = "Draw the character for '" ++ sound data ++ "'")
    /\ (user_id (yourself s') = user_id (yourself s)
        /\ points (yourself s') = points (yourself s)
        /\ user_id (other_user s') = user_id (other_user s)
        /\ points (other_user s') = points (other_user s))
    /\ (waiting s' = waiting s /\ room s' = room s /\ own_id s' = own_id s
        /\ mouse s' = mouse s /\ sent s' = sent s
        /\ location s' = location s).
Proof.
  intros data s s'; subst s'; destruct data; cbn.
  repeat split; reflexivity.
Qed.

(** *** Submitting while waiting *)

Lemma waiting_unsubmitted_step e s :
  waiting_unsubmitted s -> waiting_unsubmitted (step e s).
Proof.
  unfold waiting_unsubmitted; intros I.
  destruct e; simpl; try (exact I);
    unfold on_allowed_check, on_recv_img, on_result_img, colour_results,
      on_other_ready, findcoords, save, erase;
    try destruct res; by_cases; absurd_case.
Qed.

(** C9: in every state the session can reach, a submit made while this
    user still waits for another sends nothing, leaves the submitted flag
    false and every element of the page as it was, and clears the
    recorded strokes, the stroke counter and the canvas. *)
Theorem save_while_waiting_clears :
  forall (d : dom) (c : canvas_state) (es : list event),
    let s := run es (initial d c) in
    waiting s = true ->
    let s' := save s in
    sent s' = sent s
    /\ submitted (yourself s') = false
    /\ yourself s' = yourself s
    /\ (forall i, document s' i = document s i)
    /\ snapshots s' = [] /\ strokeNum s' = 0 /\ drawn (canvas s') = [].
Proof.
  intros d c es s Hw s'; subst s'.
  assert (Hs : waiting_unsubmitted s).
  { apply run_invariant; [exact waiting_unsubmitted_step|].
    unfold waiting_unsubmitted; reflexivity. }
  unfold save; rewrite Hw; cbn.
  repeat split; auto.
Qed.

End DrawingSession.

(** The submit button is pressed on a page that has just been served,
    after a stroke was drawn. *)
Lemma save_while_waiting_clears_witness :
  let d : MultiDraw.dom :=
    fun _ => MultiDraw.Element "inline" "white" EmptyString in
  let c := MultiDraw.Canvas 10 20 [] in
  let es := [MultiDraw.Mouse MultiDraw.down 15 25;
             MultiDraw.Mouse MultiDraw.move 16 26;
             MultiDraw.Mouse MultiDraw.up 16 26] in
  let s := MultiDraw.run (fun _ => "data:,") es (MultiDraw.initial d c) in
  MultiDraw.snapshots s = [("stroke1", "data:,")]
  /\ MultiDraw.sent (MultiDraw.save s) = []
  /\ MultiDraw.snapshots (MultiDraw.save s) = [].
Proof.
  cbv zeta.
  split; [reflexivity|].
  pose proof (save_while_waiting_clears (fun _ => "data:,")
                (fun _ => MultiDraw.Element "inline" "white" EmptyString)
                (MultiDraw.Canvas 10 20 [])
                [MultiDraw.Mouse MultiDraw.down 15 25;
                 MultiDraw.Mouse MultiDraw.move 16 26;
                 MultiDraw.Mouse MultiDraw.up 16 26]
                eq_refl) as (Hs & _ & _ & _ & Hn & _).
  split; [exact Hs | exact Hn].
Defined.

Lemma peer_canvas_hidden_until_submit_witness :
  let s := MultiDraw.run (fun _ => "data:,") peer_first
             (MultiDraw.initial served (MultiDraw.Canvas 0 0 [])) in
  MultiDraw.display (MultiDraw.document s MultiDraw.other_canvas) = "none"
  /\ MultiDraw.display
       (MultiDraw.document
          (MultiDraw.step (fun _ => "data:,") MultiDraw.ClickSubmit s)
          MultiDraw.other_canvas)
     = "inline".
Proof.
  cbv zeta. split.
  - exact (proj1 (peer_canvas_hidden_until_submit (fun _ => "data:,")
                    served (MultiDraw.Canvas 0 0 []) peer_first
                    MultiDraw.ClickSubmit)
             eq_refl eq_refl).
  - apply (proj2 (proj2 (peer_canvas_hidden_until_submit (fun _ => "data:,")
                           served (MultiDraw.Canvas 0 0 []) peer_first
                           MultiDraw.ClickSubmit))).
    + reflexivity.
    + discriminate.
Defined.

(** Both users are in the room; this user is right, the other is not. *)
Lemma colour_results_needs_both_witness :
  let s := MultiDraw.run (fun _ => "data:,")
             [MultiDraw.Info 3 1; MultiDraw.OtherConnection "ann" 7]
             (MultiDraw.initial served (MultiDraw.Canvas 0 0 [])) in
  let s' := MultiDraw.run (fun _ => "data:,")
              [MultiDraw.ClickSubmit; MultiDraw.ResultImg 1 true 5;
               MultiDraw.RecvImg "data:peer"; MultiDraw.ResultImg 7 false 5]
              s in
  MultiDraw.colour_results s = s
  /\ MultiDraw.backgroundColor
       (MultiDraw.document s' MultiDraw.drawing_canvas) = "#67e088"
  /\ MultiDraw.backgroundColor
       (MultiDraw.document s' MultiDraw.other_canvas) = "red".
Proof.
  cbv zeta.
  pose proof (colour_results_needs_both (fun _ => "data:,") served
                (MultiDraw.Canvas 0 0 [])
                [MultiDraw.Info 3 1; MultiDraw.OtherConnection "ann" 7])
    as (H1 & _ & H3).
  split.
  - exact (proj1 (H1 eq_refl)).
  - specialize (H3 "data:peer" true 5%Z 7%Z false 5%Z eq_refl
                  ltac:(discriminate)).
    apply Forall_inv in H3. cbv zeta in H3.
    destruct H3 as (Ha & Hb & _). split; [exact Ha|exact Hb].
Defined.

(** ** JSON texts of objects with string values *)

Section JsonRoundTrip.

Import Json.

Lemma append_assoc (a b c : string) : (a ++ b) ++ c = a ++ (b ++ c).
Proof.
  induction a as [|x a IH]; simpl; [reflexivity|now rewrite IH].
Qed.

Lemma length_append (a b : string) :
  String.length (a ++ b) = String.length a + String.length b.
Proof.
  induction a as [|x a IH]; simpl; [reflexivity|now rewrite IH].
Qed.

(** Reading back one escaped character. *)
Lemma parse_chars_escape_char (c : ascii) (t : string) :
  parse_chars (escape_char c ++ t) = cons_char c (parse_chars t).
Proof.
  destruct c as [[] [] [] [] [] [] [] []]; reflexivity.
Qed.

Lemma parse_chars_escape (s rest : string) :
  parse_chars (escape s ++ String quote rest) = Some (s, rest).
Proof.
  induction s as [|c s IH].
  - reflexivity.
  - cbn [escape]. rewrite append_assoc, parse_chars_escape_char, IH.
    reflexivity.
Qed.

Lemma parse_stringify_string (s rest : string) :
  parse_string (stringify_string s ++ rest) = Some (s, rest).
Proof.
  unfold stringify_string; cbn [append parse_string].
  change (N_of_ascii quote =? 34)%N with true; cbn iota.
  rewrite append_assoc; cbn [append]. apply parse_chars_escape.
Qed.

Lemma parse_stringify_member (kv : string * string) (rest : string) :
  parse_member (stringify_member kv ++ rest) = Some (kv, rest).
Proof.
  destruct kv as [k v]; unfold parse_member, stringify_member; cbn [fst snd].
  rewrite append_assoc, parse_stringify_string.
  cbn [append]. change (N_of_ascii ":" =? 58)%N with true; cbn iota.
  rewrite parse_stringify_string; reflexivity.
Qed.

Lemma stringify_members_tail kv l :
  stringify_members (kv :: l) ++ "}" = stringify_member kv ++ members_tail l.
Proof.
  revert kv; induction l as [|kv' l IH]; intros kv.
  - reflexivity.
  - change (stringify_members (kv :: kv' :: l))
      with (stringify_member kv ++ "," ++ stringify_members (kv' :: l)).
    rewrite !append_assoc, IH. reflexivity.
Qed.

Lemma parse_rest_tail l :
  forall fuel acc,
    List.length l < fuel ->
    parse_rest fuel acc (members_tail l) = Some (written l acc).
Proof.
  induction l as [|kv l IH]; intros fuel acc Hf.
  - destruct fuel; [lia|]. reflexivity.
  - destruct fuel; [simpl in Hf; lia|].
    cbn [members_tail parse_rest append].
    change (N_of_ascii "," =? 125)%N with false.
    change (N_of_ascii "," =? 44)%N with true. cbn iota.
    rewrite parse_stringify_member.
    destruct kv as [k v]. rewrite IH by (simpl in Hf; lia). reflexivity.
Qed.

Lemma members_tail_length l : List.length l < String.length (members_tail l).
Proof.
  induction l as [|kv l IH]; simpl; [lia|].
  rewrite length_append; lia.
Qed.

(** Parsing the text of an object gives the object its members build,
    written in the order of the text. *)
Lemma parse_stringify (o : JS.obj string) :
  parse (stringify o) = Some (written o []).
Proof.
  destruct o as [|kv l].
  - reflexivity.
  - unfold stringify. rewrite stringify_members_tail.
    destruct kv as [k v].
    unfold parse. cbn [append].
    change (N_of_ascii "{" =? 123)%N with true. cbn iota.
    unfold stringify_member at 1, stringify_string at 1.
    cbn [fst append].
    change (N_of_ascii quote =? 125)%N with false. cbn iota.
    rewrite parse_stringify_member.
    rewrite parse_rest_tail; [reflexivity|].
    cbn [String.length]. rewrite length_append.
    pose proof (members_tail_length l). lia.
Qed.

End JsonRoundTrip.

(** ** Strokes and the submitted image *)

Section Strokes.

Import MultiDraw.
Import Socket.

Variable toDataURL : list segment -> string.

#[local] Abbreviation run := (MultiDraw.run toDataURL).

(** Moving over the canvas, or leaving it, records nothing. *)
Lemma path_records_nothing (p : list (bool * (Z * Z))) :
  forall s,
    let s' := run (map (fun q : bool * (Z * Z) =>
                          Mouse (if fst q then move else out)
                            (fst (snd q)) (snd (snd q))) p) s in
    strokeNum s' = strokeNum s /\ snapshots s' = snapshots s
    /\ session_of s' = session_of s.
Proof.
  induction p as [|[[] [x y]] p IH]; intros s; cbn [map MultiDraw.run].
  - auto.
  - destruct (IH (step toDataURL (Mouse move x y) s)) as (H1 & H2 & H3).
    cbn [fst snd] in *. rewrite H1, H2, H3.
    cbn [step]; unfold findcoords, session_of; by_cases.
  - destruct (IH (step toDataURL (Mouse out x y) s)) as (H1 & H2 & H3).
    cbn [fst snd] in *. rewrite H1, H2, H3. auto.
Qed.

(** A stroke adds one to the counter and writes one snapshot under the
    key made of the new count. *)
Lemma stroke_records_one (k : stroke) (s : page) :
  let s' := run (stroke_events k) s in
  strokeNum s' = strokeNum s + 1
  /\ (exists v,
        snapshots s'
        = JS.obj_set ("stroke" ++ JS.nat_to_string (strokeNum s + 1)) v
            (snapshots s))
  /\ session_of s' = session_of s.
Proof.
  unfold stroke_events. cbn [MultiDraw.run]. rewrite run_app.
  set (s1 := step toDataURL (Mouse down _ _) s).
  destruct (path_records_nothing (path k) s1) as (H1 & H2 & H3).
  cbn zeta in H1, H2, H3.
  set (s2 := MultiDraw.run toDataURL _ s1) in *.
  cbn [MultiDraw.run step findcoords].
  cbn [strokeNum snapshots with_mouse with_snapshots].
  rewrite H1, H2. unfold session_of in *. cbn.
  injection H3 as Hw Ho Hr Hc Hs.
  rewrite Hw, Ho, Hr, Hc, Hs.
  repeat split. eexists; reflexivity.
Qed.

(** C3 (as amended): on a page with no recorded stroke where the other
    user has joined, a submit after three strokes sends one [image_submit]
    message whose [image_data], parsed as JSON, is an object of exactly
    three properties, with the keys [stroke1], [stroke2] and [stroke3] in
    this order. *)
Theorem three_strokes_submit :
  forall (k1 k2 k3 : stroke) (s : page),
    snapshots s = [] ->
    strokeNum s = 0 ->
    waiting s = false ->
    let s' :=
      save (run (stroke_events k1 ++ stroke_events k2 ++ stroke_events k3) s)
    in
    exists image v1 v2 v3,
      sent s'
      = Emit "message"
          [("UserID", FNum (own_id s)); ("EventType", FStr "image_submit");
           ("image_data", FStr image); ("room", FNum (room s));
           ("sound_num", FNum (sound_num (current s)))] :: sent s
      /\ Json.parse image
         = Some [("stroke1", v1); ("stroke2", v2); ("stroke3", v3)].
Proof.
  intros k1 k2 k3 s Hsnap Hnum Hw.
  rewrite !run_app.
  destruct (stroke_records_one k1 s) as (N1 & (v1 & S1) & E1).
  set (s1 := run (stroke_events k1) s) in *.
  destruct (stroke_records_one k2 s1) as (N2 & (v2 & S2) & E2).
  set (s2 := run (stroke_events k2) s1) in *.
  destruct (stroke_records_one k3 s2) as (N3 & (v3 & S3) & E3).
  set (s3 := run (stroke_events k3) s2) in *.
  rewrite N2, N1, Hnum in S3. rewrite S2, N1, Hnum in S3.
  rewrite S1, Hnum, Hsnap in S3.
  assert (Hobj : snapshots s3
                 = [("stroke1", v1); ("stroke2", v2); ("stroke3", v3)]).
  { rewrite S3. vm_compute. reflexivity. }
  assert (Hsess : session_of s3 = session_of s) by congruence.
  unfold session_of in Hsess. injection Hsess as Hw3 Ho3 Hr3 Hc3 Hs3.
  clearbody s3.
  exists (Json.stringify (snapshots s3)), v1, v2, v3.
  cbv zeta. split.
  - unfold save. rewrite Hw3, Hw. cbn.
    rewrite Ho3, Hr3, Hc3, Hs3. reflexivity.
  - rewrite parse_stringify, Hobj. vm_compute. reflexivity.
Qed.

End Strokes.

Lemma three_strokes_submit_witness :
  exists image v1 v2 v3,
    Socket.field_of "image_data"
      (Socket.payload
         (hd (Socket.Emit EmptyString [])
            (MultiDraw.sent
               (MultiDraw.save
                  (MultiDraw.run (fun _ => "data:,")
                     (MultiDraw.stroke_events (short_stroke 1 1)
                      ++ MultiDraw.stroke_events (short_stroke 5 5)
                      ++ MultiDraw.stroke_events (short_stroke 9 9))
                     three_strokes_page)))))
    = Some (Socket.FStr image)
    /\ Json.parse image
       = Some [("stroke1", v1); ("stroke2", v2); ("stroke3", v3)].
Proof.
  destruct (three_strokes_submit (fun _ => "data:,")
              (short_stroke 1 1) (short_stroke 5 5) (short_stroke 9 9)
              three_strokes_page eq_refl eq_refl eq_refl)
    as (image & v1 & v2 & v3 & Hsent & Hparse).
  exists image, v1, v2, v3. rewrite Hsent. split; [reflexivity|exact Hparse].
Defined.

(** C3 (as stated) fails: after three strokes the submitted object has no
    property [Stroke1], [Stroke2] or [Stroke3]; its keys are written with
    a small letter. *)
Lemma three_strokes_keys_are_lower_case :
  let s' :=
    MultiDraw.save
      (MultiDraw.run (fun _ => "data:,")
         (MultiDraw.stroke_events (short_stroke 1 1)
          ++ MultiDraw.stroke_events (short_stroke 5 5)
          ++ MultiDraw.stroke_events (short_stroke 9 9))
         three_strokes_page) in
  exists image o,
    Socket.field_of "image_data"
      (Socket.payload (hd (Socket.Emit EmptyString []) (MultiDraw.sent s')))
    = Some (Socket.FStr image)
    /\ Json.parse image = Some o
    /\ JS.obj_keys o = ["stroke1"; "stroke2"; "stroke3"]
    /\ JS.obj_keys o <> ["Stroke1"; "Stroke2"; "Stroke3"]
    /\ JS.obj_get "Stroke1" o = None
    /\ JS.obj_get "Stroke2" o = None
    /\ JS.obj_get "Stroke3" o = None.
Proof.
  cbv zeta. eexists; eexists.
  split; [vm_compute; reflexivity|].
  split; [vm_compute; reflexivity|].
  split; [reflexivity|].
  split; [discriminate|].
  repeat split.
Qed.

(** ** Numbers as text, and the order of the keys of an object *)

Section Objects.

Import JS.
Local Open Scope list_scope.

Lemma N_to_string_inj (a b : N) : N_to_string a = N_to_string b -> a = b.
Proof.
  unfold N_to_string; intros H.
  assert (Hu : Some (N.to_uint a) = Some (N.to_uint b)).
  { rewrite <- !NilEmpty.usu. now rewrite H. }
  injection Hu as Hu.
  rewrite <- (DecimalN.Unsigned.of_to a), <- (DecimalN.Unsigned.of_to b).
  now rewrite Hu.
Qed.

Lemma nat_to_string_inj (a b : nat) :
  nat_to_string a = nat_to_string b -> a = b.
Proof.
  unfold nat_to_string; intros H.
  assert (Hu : Some (Nat.to_uint a) = Some (Nat.to_uint b)).
  { rewrite <- !NilEmpty.usu. now rewrite H. }
  injection Hu as Hu.
  rewrite <- (DecimalNat.Unsigned.of_to a), <- (DecimalNat.Unsigned.of_to b).
  now rewrite Hu.
Qed.

(** The text of a number below 2^32 - 1 is an array index. *)
Lemma array_index_N_to_string (n : N) :
  (n < 4294967295)%N -> array_index (N_to_string n) = Some n.
Proof.
  intros Hn. unfold array_index, N_to_string at 1.
  rewrite NilEmpty.usu, DecimalN.Unsigned.of_to.
  rewrite String.eqb_refl.
  apply N.ltb_lt in Hn. rewrite Hn. reflexivity.
Qed.

(** The text of a number from 2^32 - 1 on is not one. *)
Lemma array_index_large (n : N) :
  (4294967295 <= n)%N -> array_index (N_to_string n) = None.
Proof.
  intros Hn. unfold array_index, N_to_string at 1.
  rewrite NilEmpty.usu, DecimalN.Unsigned.of_to.
  rewrite String.eqb_refl.
  apply N.ltb_ge in Hn. rewrite Hn. reflexivity.
Qed.

Context {V : Type}.
Implicit Types (o : obj V) (k : string) (v : V).

Lemma obj_mem_In k o : obj_mem k o = true <-> In k (obj_keys o).
Proof.
  unfold obj_mem. induction o as [|[k' v'] o IH]; simpl.
  - split; [discriminate|tauto].
  - destruct (String.eqb_spec k' k) as [->|Hne].
    + split; auto.
    + rewrite IH. split; [auto|]. intros [H|H]; [congruence|auto].
Qed.

Lemma obj_get_None k o : obj_get k o = None <-> ~ In k (obj_keys o).
Proof.
  rewrite <- obj_mem_In. unfold obj_mem.
  destruct (obj_get k o); split; intros H.
  - discriminate H.
  - exfalso; apply H; reflexivity.
  - discriminate.
  - reflexivity.
Qed.

Lemma obj_update_keys k v o : obj_keys (obj_update k v o) = obj_keys o.
Proof.
  induction o as [|[k' v'] o IH]; simpl; [reflexivity|].
  destruct (k' =? k); simpl; [reflexivity|now rewrite IH].
Qed.

Lemma obj_update_get_same k v o :
  In k (obj_keys o) -> obj_get k (obj_update k v o) = Some v.
Proof.
  induction o as [|[k' v'] o IH]; simpl; [tauto|].
  destruct (String.eqb_spec k' k) as [->|Hne]; simpl.
  - now rewrite String.eqb_refl.
  - intros [H|H]; [congruence|].
    destruct (String.eqb_spec k' k); [congruence|auto].
Qed.

Lemma obj_update_get_other k k' v o :
  k' <> k -> obj_get k' (obj_update k v o) = obj_get k' o.
Proof.
  intros Hne. induction o as [|[k0 v0] o IH]; simpl; [reflexivity|].
  destruct (String.eqb_spec k0 k) as [->|H0]; simpl.
  - destruct (String.eqb_spec k k'); [congruence|reflexivity].
  - destruct (k0 =? k'); [reflexivity|exact IH].
Qed.

Lemma obj_insert_index_get_same n k v o :
  ~ In k (obj_keys o) -> obj_get k (obj_insert_index n k v o) = Some v.
Proof.
  induction o as [|[k' v'] o IH]; simpl; intros Hn.
  - now rewrite String.eqb_refl.
  - destruct (array_index k') as [m|]; [destruct (m <? n)%N|]; simpl;
      rewrite ?String.eqb_refl; auto.
    destruct (String.eqb_spec k' k) as [->|Hne]; [tauto|].
    apply IH; tauto.
Qed.

Lemma obj_insert_index_get_other n k k' v o :
  k' <> k -> obj_get k' (obj_insert_index n k v o) = obj_get k' o.
Proof.
  intros Hne. induction o as [|[k0 v0] o IH]; simpl.
  - destruct (String.eqb_spec k k'); [congruence|reflexivity].
  - destruct (array_index k0) as [m|]; [destruct (m <? n)%N|]; simpl.
    + destruct (k0 =? k'); [reflexivity|exact IH].
    + destruct (String.eqb_spec k k'); [congruence|reflexivity].
    + destruct (String.eqb_spec k k'); [congruence|reflexivity].
Qed.

Lemma obj_insert_index_keys n k v o :
  exists a b, obj_keys o = a ++ b
              /\ obj_keys (obj_insert_index n k v o) = a ++ k :: b.
Proof.
  induction o as [|[k' v'] o (a & b & Ho & Hi)]; simpl.
  - exists [], []; auto.
  - destruct (array_index k') as [m|]; [destruct (m <? n)%N|]; simpl.
    + exists (k' :: a), b; simpl; rewrite Ho, Hi; auto.
    + exists [], (k' :: obj_keys o); auto.
    + exists [], (k' :: obj_keys o); auto.
Qed.

Lemma obj_get_app_not_in k v o :
  ~ In k (obj_keys o) -> obj_get k (o ++ [(k, v)]) = Some v.
Proof.
  induction o as [|[k' v'] o IH]; simpl; intros Hn.
  - now rewrite String.eqb_refl.
  - destruct (String.eqb_spec k' k) as [->|Hne]; [tauto|apply IH; tauto].
Qed.

Lemma obj_get_app_other k k' v o :
  k' <> k -> obj_get k' (o ++ [(k, v)]) = obj_get k' o.
Proof.
  intros Hne. induction o as [|[k0 v0] o IH]; simpl.
  - destruct (String.eqb_spec k k'); [congruence|reflexivity].
  - destruct (k0 =? k'); [reflexivity|exact IH].
Qed.

(** Reading after writing. *)
Lemma obj_get_set_same k v o : obj_get k (obj_set k v o) = Some v.
Proof.
  unfold obj_set. destruct (obj_mem k o) eqn:Hm.
  - apply obj_update_get_same, obj_mem_In, Hm.
  - assert (Hn : ~ In k (obj_keys o)).
    { rewrite <- obj_mem_In. congruence. }
    destruct (array_index k).
    + now apply obj_insert_index_get_same.
    + now apply obj_get_app_not_in.
Qed.

Lemma obj_get_set_other k k' v o :
  k' <> k -> obj_get k' (obj_set k v o) = obj_get k' o.
Proof.
  intros Hne. unfold obj_set. destruct (obj_mem k o).
  - now apply obj_update_get_other.
  - destruct (array_index k).
    + now apply obj_insert_index_get_other.
    + now apply obj_get_app_other.
Qed.

(** The keys after a write: the same keys when the key was there, one
    more key when it was not. *)
Lemma obj_set_keys k v o :
  (In k (obj_keys o) /\ obj_keys (obj_set k v o) = obj_keys o)
  \/ (~ In k (obj_keys o)
      /\ exists a b, obj_keys o = a ++ b
                     /\ obj_keys (obj_set k v o) = a ++ k :: b).
Proof.
  unfold obj_set. destruct (obj_mem k o) eqn:Hm.
  - left. split; [apply obj_mem_In, Hm|apply obj_update_keys].
  - right. split; [rewrite <- obj_mem_In; congruence|].
    destruct (array_index k).
    + apply obj_insert_index_keys.
    + exists (obj_keys o), []. unfold obj_keys.
      rewrite map_app, app_nil_r. auto.
Qed.

Lemma obj_set_In k k' v o :
  In k' (obj_keys (obj_set k v o)) <-> k' = k \/ In k' (obj_keys o).
Proof.
  destruct (obj_set_keys k v o) as [[Hin ->]|[Hn (a & b & Ho & ->)]].
  - split; [auto|]. intros [->|H]; auto.
  - rewrite Ho, !in_app_iff. simpl. split.
    + intros [H|[H|H]]; auto.
    + intros [H|[H|H]]; auto.
Qed.

Lemma obj_set_NoDup k v o :
  NoDup (obj_keys o) -> NoDup (obj_keys (obj_set k v o)).
Proof.
  intros Hnd.
  destruct (obj_set_keys k v o) as [[Hin ->]|[Hn (a & b & Ho & ->)]]; auto.
  rewrite Ho in Hnd, Hn.
  apply NoDup_Add with (a := k) (l := a ++ b); [apply Add_app|].
  split; auto.
Qed.

Lemma obj_set_length k v o :
  List.length (obj_keys (obj_set k v o))
  = if obj_mem k o then List.length (obj_keys o)
    else S (List.length (obj_keys o)).
Proof.
  destruct (obj_set_keys k v o) as [[Hin ->]|[Hn (a & b & Ho & ->)]].
  - apply obj_mem_In in Hin. now rewrite Hin.
  - destruct (obj_mem k o) eqn:Hm; [apply obj_mem_In in Hm; tauto|].
    rewrite Ho, !length_app. simpl. lia.
Qed.

Lemma obj_get_In_values k v o : obj_get k o = Some v -> In v (obj_values o).
Proof.
  induction o as [|[k' v'] o IH]; simpl; [discriminate|].
  destruct (k' =? k); [intros [= ->]; auto|auto].
Qed.

(** A write adds no value but the one written. *)
Lemma obj_set_values_In k v x o :
  In x (obj_values (obj_set k v o)) -> x = v \/ In x (obj_values o).
Proof.
  unfold obj_set. destruct (obj_mem k o); [|destruct (array_index k) as [n|]].
  - induction o as [|[k' v'] o IH]; simpl; [tauto|].
    destruct (k' =? k); simpl; intros [H|H]; auto.
    destruct (IH H); auto.
  - induction o as [|[k' v'] o IH]; simpl; [intros [H|[]]; auto|].
    destruct (array_index k') as [m|]; [destruct (m <? n)%N|]; simpl;
      intros [H|H]; auto.
    destruct (IH H); auto.
  - unfold obj_values. rewrite map_app, in_app_iff. simpl.
    intros [H|[H|[]]]; auto.
Qed.

(** With distinct keys, the values are the values read at the keys. *)
Lemma obj_values_by_keys (d : V) o :
  NoDup (obj_keys o) ->
  obj_values o
  = map (fun k => match obj_get k o with Some v => v | None => d end)
      (obj_keys o).
Proof.
  induction o as [|[k v] o IH]; simpl; intros Hnd; [reflexivity|].
  inversion Hnd as [|? ? Hk Hnd']; subst.
  rewrite String.eqb_refl. f_equal.
  rewrite (IH Hnd'). apply map_ext_in. intros k' Hin.
  destruct (String.eqb_spec k k') as [->|Hne]; [tauto|reflexivity].
Qed.

End Objects.

(** ** The chat room *)

Section ChatOrder.

Import JS JS.Outcome Chat.
Local Open Scope list_scope.

Lemma add_messages_app ms1 ms2 o :
  add_messages (ms1 ++ ms2) o = add_messages ms2 (add_messages ms1 o).
Proof. unfold add_messages. apply fold_left_app. Qed.

Lemma to_add_of_app mine theirs :
  to_add_of mine theirs = add_messages (mine ++ theirs) [].
Proof. unfold to_add_of. now rewrite add_messages_app. Qed.

Lemma add_messages_entries ms :
  forall o, Forall is_entry (obj_values o) ->
            Forall is_entry (obj_values (add_messages ms o)).
Proof.
  induction ms as [|m ms IH]; intros o Ho; simpl; [exact Ho|].
  apply IH. apply Forall_forall. intros x Hx.
  apply obj_set_values_In in Hx. destruct Hx as [->|Hx]; [exact I|].
  rewrite Forall_forall in Ho. auto.
Qed.

Lemma add_messages_NoDup ms :
  forall o, NoDup (obj_keys o) -> NoDup (obj_keys (add_messages ms o)).
Proof.
  induction ms as [|m ms IH]; intros o Ho; simpl; [exact Ho|].
  apply IH, obj_set_NoDup, Ho.
Qed.

(** The value under a timestamp is that of the latest message with it. *)
Lemma add_messages_get t ms :
  forall o,
    obj_get (N_to_string t) (add_messages ms o)
    = match latest t ms with
      | Some v => Some v
      | None => obj_get (N_to_string t) o
      end.
Proof.
  induction ms as [|m ms IH]; intros o; simpl; [reflexivity|].
  rewrite IH. destruct (latest t ms); [reflexivity|].
  destruct (N.eqb_spec (time m) t) as [->|Hne].
  - apply obj_get_set_same.
  - apply obj_get_set_other. intros H. apply N_to_string_inj in H.
    congruence.
Qed.


(** *** bubble *)

(** The object built from the messages has no numeric [length]. *)
Lemma below_length_to_add x mine theirs :
  below x (length_of (to_add_of mine theirs)) = false.
Proof.
  unfold length_of.
  destruct (obj_get "length" (to_add_of mine theirs)) as [v|] eqn:Hg;
    [|reflexivity].
  apply obj_get_In_values in Hg.
  assert (H : Forall is_entry (obj_values (to_add_of mine theirs))).
  { unfold to_add_of. do 2 apply add_messages_entries. constructor. }
  rewrite Forall_forall in H. specialize (H v Hg).
  destruct v; simpl in *; tauto.
Qed.

(** Entered with a positive numeric length, the inner loop never ends:
    its index only goes down. *)
Lemma inner_loop_runs_on fuel :
  forall n y o flag,
    (y < n)%Z -> inner_loop fuel (num n) y o flag = Running.
Proof.
  induction fuel as [|fuel IH]; intros n y o flag Hy; simpl; [reflexivity|].
  apply Z.ltb_lt in Hy. rewrite Hy.
  destruct (compare_swap y o flag) as [o' flag'].
  apply IH. apply Z.ltb_lt in Hy. lia.
Qed.

Lemma bubble_from_runs_on fuel n o :
  (0 < n)%Z -> bubble_from fuel (num n) o = Running.
Proof.
  intros Hn. unfold bubble_from. destruct fuel as [|fuel]; simpl;
    [reflexivity|].
  apply Z.ltb_lt in Hn. rewrite Hn. apply Z.ltb_lt in Hn.
  now rewrite inner_loop_runs_on.
Qed.

(** *** The order of the keys when the timestamps are array indexes *)

Lemma obj_insert_index_sorted (v : jsval) (t : N) :
  forall (o : obj jsval) (ts : list N),
    obj_keys o = map N_to_string ts ->
    Forall (fun x => (x < 4294967295)%N) ts ->
    StronglySorted N.lt ts ->
    ~ In t ts ->
    exists ts',
      obj_keys (obj_insert_index t (N_to_string t) v o) = map N_to_string ts'
      /\ StronglySorted N.lt ts'
      /\ (forall x, In x ts' <-> x = t \/ In x ts).
Proof.
  induction o as [|[k' v'] o IH]; intros ts Hk Hb Hs Hn.
  - destruct ts; [|discriminate]. exists [t]; simpl.
    split; [reflexivity|split].
    + repeat constructor.
    + intros x; intuition congruence.
  - destruct ts as [|a ts]; [discriminate|]. simpl in Hk.
    injection Hk as -> Hk.
    inversion Hb as [|? ? Ha Hb']; subst.
    inversion Hs as [|? ? Hs' Hlt]; subst.
    simpl. rewrite (array_index_N_to_string a Ha).
    destruct (N.ltb_spec a t) as [Hat|Hat].
    + destruct (IH ts Hk Hb' Hs') as (ts' & Hk' & Hs'' & Hin).
      { simpl in Hn; tauto. }
      exists (a :: ts'); simpl. rewrite Hk'.
      split; [reflexivity|split].
      * constructor; auto. apply Forall_forall. intros x Hx.
        apply Hin in Hx. destruct Hx as [->|Hx]; auto.
        rewrite Forall_forall in Hlt; auto.
      * intros x. rewrite Hin. intuition congruence.
    + exists (t :: a :: ts); simpl. rewrite Hk.
      split; [reflexivity|split].
      * assert (Hta : (t < a)%N) by (simpl in Hn; lia).
        constructor; [constructor; auto|].
        constructor; auto. apply Forall_forall. intros x Hx.
        rewrite Forall_forall in Hlt. specialize (Hlt x Hx). lia.
      * intros x; intuition congruence.
Qed.

Lemma add_messages_sorted ms :
  forall (o : obj jsval) (ts : list N),
    Forall (fun m => (time m < 4294967295)%N) ms ->
    obj_keys o = map N_to_string ts ->
    Forall (fun x => (x < 4294967295)%N) ts ->
    StronglySorted N.lt ts ->
    exists ts',
      obj_keys (add_messages ms o) = map N_to_string ts'
      /\ StronglySorted N.lt ts'
      /\ (forall x, In x ts' <-> In x ts \/ In x (map time ms)).
Proof.
  induction ms as [|m ms IH]; intros o ts Hm Hk Hb Hs; simpl.
  - exists ts. split; [exact Hk|split; [exact Hs|]].
    intros x; tauto.
  - inversion Hm as [|? ? Hm1 Hm2]; subst.
    set (k := N_to_string (time m)).
    set (v := entry (text m) (sender m)).
    assert (Hstep : exists ts1,
               obj_keys (obj_set k v o) = map N_to_string ts1
               /\ StronglySorted N.lt ts1
               /\ (forall x, In x ts1 <-> x = time m \/ In x ts)).
    { unfold obj_set. destruct (obj_mem k o) eqn:Hmem.
      - exists ts. rewrite obj_update_keys.
        split; [exact Hk|split; [exact Hs|]].
        intros x; split; [tauto|]. intros [->|H]; auto.
        apply obj_mem_In in Hmem. rewrite Hk in Hmem.
        apply in_map_iff in Hmem. destruct Hmem as (y & Hy & Hin).
        apply N_to_string_inj in Hy. now subst.
      - unfold k. rewrite (array_index_N_to_string _ Hm1).
        apply obj_insert_index_sorted; auto.
        intros Hin. assert (H : In k (obj_keys o)).
        { rewrite Hk. apply in_map. exact Hin. }
        apply obj_mem_In in H. congruence. }
    destruct Hstep as (ts1 & Hk1 & Hs1 & Hin1).
    destruct (IH (obj_set k v o) ts1 Hm2 Hk1) as (ts' & Hk' & Hs' & Hin');
      auto.
    { apply Forall_forall. intros x Hx. apply Hin1 in Hx.
      destruct Hx as [->|Hx]; auto. rewrite Forall_forall in Hb; auto. }
    exists ts'. split; [exact Hk'|split; [exact Hs'|]].
    intros x. rewrite Hin', Hin1. intuition congruence.
Qed.

Lemma to_add_values mine theirs (ts : list N) :
  obj_keys (to_add_of mine theirs) = map N_to_string ts ->
  obj_values (to_add_of mine theirs)
  = map (fun t => shown (latest t (mine ++ theirs))) ts.
Proof.
  intros Hk.
  rewrite (obj_values_by_keys undefined).
  - rewrite Hk, map_map. apply map_ext. intros t.
    rewrite to_add_of_app, add_messages_get. simpl.
    destruct (latest t (mine ++ theirs)); reflexivity.
  - unfold to_add_of. do 2 apply add_messages_NoDup. constructor.
Qed.

(** On the object built from the messages neither loop is entered. *)
Lemma bubble_to_add mine theirs fuel :
  bubble (S fuel) (to_add_of mine theirs)
  = Returned (rev (obj_values (to_add_of mine theirs))).
Proof.
  unfold bubble, bubble_from; simpl.
  now rewrite below_length_to_add.
Qed.

(** C4 (as amended): on the object [message_order] builds, which has no
    numeric [length], [bubble] enters neither loop and returns the values
    in the reverse of their enumeration order; the inner loop, entered
    with a positive numeric length, never ends, because its index only
    goes down; and when every timestamp is an array index the values
    returned are those of the distinct timestamps, newest first. *)
Theorem bubble_returns_reverse_enumeration :
  forall (mine theirs : list message) (fuel : nat),
    let o := to_add_of mine theirs in
    bubble (S fuel) o = Returned (rev (obj_values o))
    /\ (forall (steps : nat) (n y : Z) (o' : obj jsval) (flag : bool),
          (0 < n)%Z -> (y <= 0)%Z ->
          inner_loop steps (num n) y o' flag = Running)
    /\ (forall (steps : nat) (n : Z) (o' : obj jsval),
          (0 < n)%Z -> bubble_from steps (num n) o' = Running)
    /\ (Forall (fun m => (time m < 4294967295)%N) (mine ++ theirs) ->
        exists ts,
          StronglySorted N.lt ts
          /\ (forall t, In t ts <-> In t (map time (mine ++ theirs)))
          /\ bubble (S fuel) o
             = Returned (map (fun t => shown (latest t (mine ++ theirs)))
                           (rev ts))).
Proof.
  intros mine theirs fuel o.
  assert (Hb : bubble (S fuel) o = Returned (rev (obj_values o))).
  { apply bubble_to_add. }
  split; [exact Hb|split; [|split]].
  - intros steps n y o' flag Hn Hy. apply inner_loop_runs_on. lia.
  - intros steps n o' Hn. now apply bubble_from_runs_on.
  - intros Hall.
    destruct (add_messages_sorted (mine ++ theirs) [] [] Hall eq_refl)
      as (ts & Hk & Hs & Hin); [constructor|constructor|].
    exists ts. split; [exact Hs|split].
    + intros t. rewrite Hin. simpl. tauto.
    + rewrite Hb. unfold o. rewrite <- to_add_of_app in Hk.
      rewrite (to_add_values mine theirs ts Hk), map_rev. reflexivity.
Qed.


End ChatOrder.

(** C4 (as stated) fails: on three messages [bubble] returns at once, and
    what it returns is ordered by timestamp, newest first. *)
Lemma bubble_returns_newest_first :
  Chat.bubble 1
    (Chat.to_add_of
       [Chat.Message "one" 1700000001 1; Chat.Message "three" 1700000003 1]
       [Chat.Message "two" 1700000002 2])
  = JS.Outcome.Returned
      [Chat.entry "three" 1; Chat.entry "two" 2; Chat.entry "one" 1].
Proof. vm_compute. reflexivity. Qed.

(** With timestamps that are not array indexes (here in milliseconds) the
    values come back in the reverse of the order of arrival, whatever the
    timestamps. *)
Example bubble_keeps_arrival_order :
  Chat.bubble 1
    (Chat.to_add_of
       [Chat.Message "late" 1700000000002 1;
        Chat.Message "early" 1700000000001 1] [])
  = JS.Outcome.Returned [Chat.entry "early" 1; Chat.entry "late" 1].
Proof. vm_compute. reflexivity. Qed.

(** A loop entered with the length 1, and three messages with
    timestamps in seconds. *)
Lemma bubble_returns_reverse_enumeration_witness :
  Chat.inner_loop 100 (Chat.num 1) 0 [] false = JS.Outcome.Running
  /\ exists ts,
       Chat.bubble 1
         (Chat.to_add_of
            [Chat.Message "one" 1700000001 1;
             Chat.Message "three" 1700000003 1]
            [Chat.Message "two" 1700000002 2])
       = JS.Outcome.Returned
           (map (fun t =>
                   shown (latest t
                            [Chat.Message "one" 1700000001 1;
                             Chat.Message "three" 1700000003 1;
                             Chat.Message "two" 1700000002 2]))
              (rev ts))
       /\ StronglySorted N.lt ts.
Proof.
  pose proof (bubble_returns_reverse_enumeration
                [Chat.Message "one" 1700000001 1;
                 Chat.Message "three" 1700000003 1]
                [Chat.Message "two" 1700000002 2] 0)
    as (_ & Hloop & _ & Hsorted).
  split.
  - apply Hloop; [reflexivity|discriminate].
  - destruct Hsorted as (ts & Hs & _ & Hb).
    + repeat constructor.
    + exists ts. split; [exact Hb|exact Hs].
Defined.

(** ** Rendering the chat twice *)

Section ChatRender.

Import JS JS.Outcome Chat.
Local Open Scope list_scope.

Lemma remove_loop_all prefix n :
  forall z c,
    remove_loop prefix z n c
    = remove_all (map (fun z => (prefix ++ nat_to_string z)%string) (seq z n))
        c.
Proof.
  induction n as [|n IH]; intros z c; simpl; [reflexivity|].
  destruct (remove_by_id _ c); [apply IH|reflexivity].
Qed.

Lemma remove_all_app ids1 ids2 c :
  remove_all (ids1 ++ ids2) c
  = match remove_all ids1 c with
    | Some c' => remove_all ids2 c'
    | None => None
    end.
Proof.
  revert c; induction ids1 as [|id ids1 IH]; intros c; simpl; [reflexivity|].
  destruct (remove_by_id id c); [apply IH|reflexivity].
Qed.

Lemma remove_by_id_skip id (base c : list node) :
  (forall x, In x base -> node_id x <> id) ->
  remove_by_id id (base ++ c)
  = match remove_by_id id c with
    | Some c' => Some (base ++ c')
    | None => None
    end.
Proof.
  induction base as [|b base IH]; intros Hb; simpl.
  - destruct (remove_by_id id c); reflexivity.
  - destruct (String.eqb_spec (node_id b) id) as [He|Hne].
    + exfalso. apply (Hb b); simpl; auto.
    + rewrite IH by (intros x Hx; apply Hb; simpl; auto).
      destruct (remove_by_id id c); reflexivity.
Qed.

Lemma remove_by_id_here id n (g : list node) :
  node_id n = id -> remove_by_id id (n :: g) = Some g.
Proof.
  intros <-. simpl. now rewrite String.eqb_refl.
Qed.

Lemma generated_not_static id (base : list node) :
  static_ids base = true -> generated_id id = true ->
  forall x, In x base -> node_id x <> id.
Proof.
  unfold static_ids. rewrite forallb_forall. intros Hb Hg x Hx He.
  specialize (Hb x Hx). rewrite He, Hg in Hb. discriminate.
Qed.

(** Removing the ids of the clones, in any order, leaves the page as
    served. *)
Lemma remove_all_clones (base : list node) :
  static_ids base = true ->
  forall ids gen,
    NoDup ids ->
    (forall id, In id ids -> generated_id id = true) ->
    Permutation (map node_id gen) ids ->
    remove_all ids (base ++ gen) = Some base.
Proof.
  intros Hb. induction ids as [|id ids IH]; intros gen Hnd Hg Hp; simpl.
  - apply Permutation_sym, Permutation_nil in Hp.
    destruct gen; [|discriminate]. now rewrite app_nil_r.
  - assert (Hin : In id (map node_id gen)).
    { apply (Permutation_in _ (Permutation_sym Hp)). simpl; auto. }
    apply in_map_iff in Hin. destruct Hin as (n & Hn & Hin).
    apply in_split in Hin. destruct Hin as (g1 & g2 & ->).
    assert (Hnd' : NoDup (map node_id (g1 ++ n :: g2))).
    { apply (Permutation_NoDup (Permutation_sym Hp) Hnd). }
    rewrite map_app in Hnd'. simpl in Hnd'.
    pose proof (NoDup_remove_2 _ _ _ Hnd') as Hnot.
    rewrite Hn in Hnot. rewrite in_app_iff in Hnot.
    rewrite app_assoc.
    rewrite remove_by_id_skip.
    + rewrite (remove_by_id_here id n g2 Hn). rewrite <- app_assoc.
      apply IH.
      * now inversion Hnd.
      * intros id' H'. apply Hg. simpl; auto.
      * rewrite map_app. rewrite map_app in Hp. simpl in Hp.
        rewrite Hn in Hp.
        apply Permutation_sym, Permutation_cons_app_inv in Hp.
        now apply Permutation_sym.
    + intros x Hx. apply in_app_iff in Hx. destruct Hx as [Hx|Hx].
      * apply (generated_not_static id base Hb); auto.
        apply Hg; simpl; auto.
      * intros He. apply Hnot. left. rewrite <- He. now apply in_map.
Qed.

Lemma clone_ids_generated yi oi id :
  In id (clone_ids yi oi) -> generated_id id = true.
Proof.
  unfold clone_ids. rewrite in_app_iff, !in_map_iff.
  intros [(z & <- & _)|(z & <- & _)]; unfold generated_id;
    cbn -[nat_to_string]; destruct (nat_to_string z); reflexivity.
Qed.

Lemma clone_ids_NoDup yi oi : NoDup (clone_ids yi oi).
Proof.
  unfold clone_ids. apply NoDup_app.
  - apply Injective_map_NoDup; [|apply seq_NoDup].
    intros a b H. simpl in H. injection H as H.
    now apply nat_to_string_inj.
  - apply Injective_map_NoDup; [|apply seq_NoDup].
    intros a b H. simpl in H. injection H as H.
    now apply nat_to_string_inj.
  - intros id H1 H2. apply in_map_iff in H1. apply in_map_iff in H2.
    destruct H1 as (a & <- & _). destruct H2 as (b & Hb & _).
    discriminate Hb.
Qed.

Lemma clone_ids_your yi oi :
  Permutation
    (("your_message_" ++ nat_to_string (S yi))%string :: clone_ids yi oi)
    (clone_ids (S yi) oi).
Proof.
  unfold clone_ids. rewrite seq_S, map_app. simpl.
  rewrite <- app_assoc. simpl. apply Permutation_middle.
Qed.

Lemma clone_ids_other yi oi :
  Permutation
    (("other_message_" ++ nat_to_string (S oi))%string :: clone_ids yi oi)
    (clone_ids yi (S oi)).
Proof.
  unfold clone_ids. rewrite seq_S, map_app. simpl.
  rewrite app_assoc. apply Permutation_cons_append.
Qed.


(** On a consistent page the two removal loops leave the page as
    served. *)
Lemma removal_restores (base : list node) (s : page) :
  consistent base s ->
  exists c1,
    remove_loop "your_message_" 1 (your_ind s) (container s) = Some c1
    /\ remove_loop "other_message_" 1 (other_ind s) c1 = Some base.
Proof.
  intros (Hb & gen & Hc & Hp).
  pose proof (remove_all_clones base Hb
                (clone_ids (your_ind s) (other_ind s)) gen
                (clone_ids_NoDup _ _)
                (clone_ids_generated _ _) Hp) as H.
  unfold clone_ids in H. rewrite remove_all_app in H.
  rewrite !remove_loop_all, Hc.
  destruct (remove_all _ (base ++ gen)) as [c1|]; [|discriminate].
  exists c1. rewrite remove_loop_all. auto.
Qed.

Lemma to_add_entries mine theirs :
  Forall is_entry (rev (obj_values (to_add_of mine theirs))).
Proof.
  apply Forall_rev. unfold to_add_of.
  do 2 apply add_messages_entries. constructor.
Qed.


End ChatRender.

Lemma chat_page_consistent : consistent (Chat.container chat_page) chat_page.
Proof.
  split; [reflexivity|]. exists []. split; [reflexivity|].
  apply perm_nil.
Defined.



(** ** The lists and tables rebuilt from a message *)

Section DictionaryResults.

Import JS JS.Outcome Dictionary.
Local Open Scope list_scope.

Lemma nat_to_string_not_empty (z : nat) : nat_to_string z <> EmptyString.
Proof.
  unfold nat_to_string. intros H.
  pose proof (NilEmpty.usu (Nat.to_uint z)) as Hu. rewrite H in Hu.
  simpl in Hu. injection Hu as Hu.
  pose proof (DecimalNat.Unsigned.of_to z) as Hz. rewrite <- Hu in Hz.
  simpl in Hz. subst z. discriminate H.
Qed.

Lemma result_id_inj a b : result_id a = result_id b -> a = b.
Proof.
  unfold result_id. intros H. simpl in H. injection H as H.
  now apply nat_to_string_inj.
Qed.

Lemma result_id_not_static (base : list box) z :
  static_ids base = true ->
  forall b, In b base -> box_id b <> result_id z.
Proof.
  unfold static_ids. rewrite forallb_forall. intros Hs b Hb He.
  specialize (Hs b Hb). rewrite He in Hs. unfold result_id in Hs.
  cbn -[nat_to_string] in Hs.
  pose proof (nat_to_string_not_empty z) as Hz.
  destruct (nat_to_string z); [congruence|discriminate Hs].
Qed.

Lemma remove_box_skip id (pre r : list box) :
  (forall b, In b pre -> box_id b <> id) ->
  remove_box id (pre ++ r)
  = match remove_box id r with
    | Some r' => Some (pre ++ r')
    | None => None
    end.
Proof.
  induction pre as [|b pre IH]; intros Hp; simpl.
  - destruct (remove_box id r); reflexivity.
  - destruct (String.eqb_spec (box_id b) id) as [He|Hne].
    + exfalso. apply (Hp b); simpl; auto.
    + rewrite IH by (intros x Hx; apply Hp; simpl; auto).
      destruct (remove_box id r); reflexivity.
Qed.

(** The removal loop takes the result boxes away, first to last. *)
Lemma remove_loop_boxes (base : list box) :
  static_ids base = true ->
  forall n z boxes,
    map box_id boxes = map result_id (seq z n) ->
    remove_loop z n (base ++ boxes) = Returned base.
Proof.
  intros Hs. induction n as [|n IH]; intros z boxes Hb; simpl.
  - destruct boxes; [|discriminate]. now rewrite app_nil_r.
  - destruct boxes as [|b boxes]; [discriminate|]. simpl in Hb.
    injection Hb as Hb1 Hb2.
    fold (result_id z). rewrite remove_box_skip.
    + simpl. rewrite Hb1, String.eqb_refl. simpl. now apply IH.
    + intros x Hx. now apply (result_id_not_static base).
Qed.

Lemma find_part_found id (r : list box) :
  (exists b, In b r /\ has_part id b) -> exists p, find_part id r = Some p.
Proof.
  induction r as [|b r IH]; intros (b0 & Hin & Hp); simpl; [contradiction|].
  destruct (find (fun p => part_id p =? id) (parts b)) as [p|] eqn:Hf;
    [eauto|].
  destruct Hin as [->|Hin]; [|apply IH; eauto].
  destruct Hp as (p & Hp & Hid).
  pose proof (find_none _ _ Hf p Hp) as Hn. simpl in Hn.
  rewrite Hid, String.eqb_refl in Hn. discriminate.
Qed.

Lemma append_to_box_last id p (pre : list box) (b : box) :
  (forall x, In x pre -> box_id x <> id) ->
  box_id b = id ->
  append_to_box id p (pre ++ [b])
  = Some (pre ++ [{| box_id := box_id b; display := display b;
                     parts := parts b ++ [p] |}]).
Proof.
  intros Hp Hb. induction pre as [|x pre IH]; simpl.
  - now rewrite Hb, String.eqb_refl.
  - destruct (String.eqb_spec (box_id x) id) as [He|Hne].
    + exfalso. apply (Hp x); simpl; auto.
    + rewrite IH by (intros y Hy; apply Hp; simpl; auto). reflexivity.
Qed.

(** The loop over the readings or the meanings of a result adds parts to
    the last box only. *)
Lemma add_items_last kind x items :
  forall y (pre : list box) (b : box),
    (forall z, In z pre -> box_id z <> result_id x) ->
    box_id b = result_id x ->
    has_part (kind ++ nat_to_string x) b ->
    exists b',
      add_items kind x y items (pre ++ [b]) = Returned (pre ++ [b'])
      /\ box_id b' = result_id x
      /\ (forall id, has_part id b -> has_part id b').
Proof.
  induction items as [|item items IH]; intros y pre b Hpre Hb Hp; simpl.
  - exists b; auto.
  - destruct (find_part_found (kind ++ nat_to_string x)%string (pre ++ [b]))
      as (n & Hn).
    { exists b. rewrite in_app_iff; simpl; auto. }
    rewrite Hn. simpl. fold (result_id x).
    rewrite (append_to_box_last _ _ pre b Hpre Hb). simpl.
    match goal with |- context [add_items _ _ _ _ (pre ++ [?c])] =>
      destruct (IH (y + 1) pre c Hpre Hb) as (b' & Hr & Hid & Hparts) end.
    { destruct Hp as (p & Hin & Hpid). exists p. simpl.
      rewrite in_app_iff; auto. }
    exists b'. split; [exact Hr|split; [exact Hid|]].
    intros id (p & Hin & Hpid). apply Hparts. exists p. simpl.
    rewrite in_app_iff; auto.
Qed.

Lemma on_child_some i f (ps : list part) :
  i < List.length ps ->
  exists ps', on_child i f ps = Some ps'
              /\ List.length ps' = List.length ps
              /\ nth_error ps' i = option_map f (nth_error ps i)
              /\ (forall j, j <> i -> nth_error ps' j = nth_error ps j).
Proof.
  revert i; induction ps as [|p ps IH]; intros i Hi; simpl in Hi; [lia|].
  destruct i as [|i]; simpl.
  - exists (f p :: ps). repeat split; auto.
    intros [|j] Hj; [congruence|reflexivity].
  - destruct (IH i) as (ps' & -> & Hl & Hn & Ho); [lia|].
    exists (p :: ps'). simpl. repeat split; auto.
    intros [|j] Hj; [reflexivity|]. simpl. apply Ho. congruence.
Qed.

(** The clone of a template with four parts has the ids of result [x]. *)
Lemma clone_box_parts x e (t : box) :
  4 <= List.length (parts t) ->
  exists c,
    clone_box x e t = Returned c
    /\ box_id c = result_id x
    /\ has_part ("secondary_" ++ nat_to_string x) c
    /\ has_part ("meaning_" ++ nat_to_string x) c.
Proof.
  intros Ht. unfold clone_box. cbv zeta.
  destruct (on_child_some 1 (set_html (PrimaryReading e)) (parts t))
    as (p1 & -> & L1 & _ & _); [lia|]. cbn [bind defined].
  destruct (on_child_some 1 (set_id ("primary_" ++ nat_to_string x)) p1)
    as (p2 & -> & L2 & _ & _); [lia|]. cbn [bind defined].
  destruct (on_child_some 2 (set_id ("secondary_" ++ nat_to_string x)) p2)
    as (p3 & -> & L3 & N3 & _); [lia|]. cbn [bind defined].
  destruct (on_child_some 3 (set_id ("meaning_" ++ nat_to_string x)) p3)
    as (p4 & -> & L4 & N4 & O4); [lia|]. cbn [bind defined].
  eexists. split; [reflexivity|]. split; [reflexivity|]. cbn [parts].
  assert (H2 : exists q, nth_error p2 2 = Some q).
  { destruct (nth_error p2 2) eqn:E; [eauto|].
    apply nth_error_None in E. lia. }
  assert (H3 : exists q, nth_error p3 3 = Some q).
  { destruct (nth_error p3 3) eqn:E; [eauto|].
    apply nth_error_None in E. lia. }
  destruct H2 as (q2 & Hq2). destruct H3 as (q3 & Hq3).
  split.
  - exists (set_id ("secondary_" ++ nat_to_string x) q2). split; [|reflexivity].
    apply (nth_error_In p4 2). rewrite O4 by lia. rewrite N3, Hq2.
    reflexivity.
  - exists (set_id ("meaning_" ++ nat_to_string x) q3). split; [|reflexivity].
    apply (nth_error_In p4 3). rewrite N4, Hq3. reflexivity.
Qed.

Lemma append_keeps_parts id p (b : box) :
  has_part id b ->
  has_part id {| box_id := box_id b; display := display b;
                 parts := parts b ++ [p] |}.
Proof.
  intros (q & Hq & Hid). exists q. simpl. rewrite in_app_iff. auto.
Qed.

(** The body of the loop over the entries adds one box, the last. *)
Lemma add_entry_last x e (t : box) (pre : list box) :
  4 <= List.length (parts t) ->
  (forall z, In z pre -> box_id z <> result_id x) ->
  exists b,
    add_entry x e t pre = Returned (pre ++ [b]) /\ box_id b = result_id x.
Proof.
  intros Ht Hpre. unfold add_entry. cbv zeta.
  destruct (clone_box_parts x e t Ht) as (c & -> & Hc & Hs & Hm).
  cbn [bind]. fold (result_id x).
  rewrite (append_to_box_last _ _ pre c Hpre Hc). cbn [bind defined].
  match goal with |- context [add_items _ _ _ _ (pre ++ [?c1])] =>
    destruct (add_items_last "secondary_" x (Readings e) 0 pre c1 Hpre Hc)
      as (b1 & -> & Hb1 & Hp1) end.
  { now apply append_keeps_parts. }
  cbn [bind].
  rewrite (append_to_box_last _ _ pre b1 Hpre Hb1). cbn [bind defined].
  match goal with |- context [add_items _ _ _ _ (pre ++ [?c2])] =>
    destruct (add_items_last "meaning_" x (Meanings e) 0 pre c2 Hpre Hb1)
      as (b2 & -> & Hb2 & _) end.
  { apply append_keeps_parts, Hp1. now apply append_keeps_parts. }
  exists b2; auto.
Qed.

(** The loop over the entries returns and leaves the region tidy. *)
Lemma add_entries_tidy (t : box) (base : list box) entries :
  static_ids base = true ->
  4 <= List.length (parts t) ->
  forall x boxes,
    map box_id boxes = map result_id (seq 1 x) ->
    exists s',
      add_entries x entries
        {| current_index := x; template := t;
           search_results := base ++ boxes |}
      = Returned s'
      /\ tidy base s' /\ template s' = t.
Proof.
  intros Hs Ht. induction entries as [|e entries IH]; intros x boxes Hb.
  - eexists. split; [reflexivity|]. split; [|reflexivity].
    split; [exact Hs|]. exists boxes; auto.
  - cbn [add_entries template search_results]. cbv zeta.
    destruct (add_entry_last (x + 1) e t (base ++ boxes) Ht)
      as (b & -> & Hid).
    { intros z Hz. apply in_app_iff in Hz. destruct Hz as [Hz|Hz].
      - now apply (result_id_not_static base).
      - intros He. assert (Hin : In (result_id (x + 1)) (map box_id boxes)).
        { rewrite <- He. now apply in_map. }
        rewrite Hb in Hin. apply in_map_iff in Hin.
        destruct Hin as (k & Hk & Hin). apply result_id_inj in Hk.
        apply in_seq in Hin. lia. }
    cbn [bind]. rewrite <- app_assoc.
    apply IH. rewrite map_app, Hb. simpl. rewrite Hid.
    replace (x + 1) with (S x) by lia.
    rewrite (seq_S x 1), map_app. reflexivity.
Qed.

(** The results region after a message is the one the same message
    builds on the page as served. *)
Lemma dictionary_results_rebuilt (base : list box) (s : page) entries :
  tidy base s ->
  4 <= List.length (parts (template s)) ->
  exists s',
    on_dictionary_results entries s = Returned s'
    /\ tidy base s'
    /\ on_dictionary_results entries (fresh (template s) base) = Returned s'.
Proof.
  intros (Hs & boxes & Hr & Hb) Ht.
  destruct (add_entries_tidy (template s) base entries Hs Ht 0 [] eq_refl)
    as (s' & Hadd & Htidy & _).
  rewrite app_nil_r in Hadd.
  exists s'. unfold on_dictionary_results.
  rewrite Hr, (remove_loop_boxes base Hs _ _ boxes Hb). cbn [bind].
  split; [exact Hadd|split; [exact Htidy|]].
  cbn [fresh current_index search_results template remove_loop bind].
  exact Hadd.
Qed.

End DictionaryResults.

Section AppendedRows.

Local Open Scope list_scope.

Lemma leaderboard_fold users :
  forall x l,
    Home.leaderboard
      (fold_left leader_round users {| Home.x := x; Home.leaderboard := l |})
    = l ++ Home.leaderboard
             (fold_left leader_round users
                {| Home.x := x; Home.leaderboard := [] |}).
Proof.
  induction users as [|u users IH]; intros x l; simpl.
  - now rewrite app_nil_r.
  - unfold leader_round at 2 4. simpl.
    rewrite IH. rewrite (IH (x + 1) [_]). now rewrite <- app_assoc.
Qed.

Lemma leaderboard_appends users (s : Home.page) :
  Home.leaderboard (Home.on_leaderboard users s)
  = Home.leaderboard s ++ leader_rows users.
Proof.
  unfold leader_rows, Home.on_leaderboard. cbn [Home.leaderboard].
  apply leaderboard_fold.
Qed.

Lemma found_users_fold users :
  forall x l,
    Profile.request_results_list
      (fold_left found_round users
         {| Profile.x := x; Profile.request_results_list := l |})
    = l ++ Profile.request_results_list
             (fold_left found_round users
                {| Profile.x := x; Profile.request_results_list := [] |}).
Proof.
  induction users as [|u users IH]; intros x l; simpl.
  - now rewrite app_nil_r.
  - unfold found_round at 2 4. simpl.
    rewrite IH. rewrite (IH (x + 1)%Z [_]). now rewrite <- app_assoc.
Qed.

Lemma found_users_appends users (s : Profile.page) :
  Profile.request_results_list (Profile.on_found_users users s)
  = Profile.request_results_list s ++ found_rows users.
Proof.
  unfold found_rows, Profile.on_found_users.
  destruct users as [|u users]; [simpl; now rewrite app_nil_r|].
  cbn [List.length Nat.eqb negb]. apply found_users_fold.
Qed.

End AppendedRows.

(** C6 (as amended): a [dictionary_results] message removes the result
    boxes of the previous message and builds those of its own payload, so
    that the results region is what the same message builds on the page
    as served; a [leaderboard] message and a [found_users] message clear
    nothing: each adds the rows made from its payload after the rows that
    are there. *)
Theorem list_regions_after_message :
  (forall (base : list Dictionary.box) (s : Dictionary.page)
          (entries : list Dictionary.entry),
      tidy base s ->
      4 <= List.length (Dictionary.parts (Dictionary.template s)) ->
      exists s',
        Dictionary.on_dictionary_results entries s = JS.Outcome.Returned s'
        /\ tidy base s'
        /\ Dictionary.on_dictionary_results entries
             (fresh (Dictionary.template s) base)
           = JS.Outcome.Returned s')
  /\ (forall (users : list (string * Z)) (s : Home.page),
         Home.leaderboard (Home.on_leaderboard users s)
         = (Home.leaderboard s ++ leader_rows users)%list)
  /\ (forall (users : list (Z * string)) (s : Profile.page),
         Profile.request_results_list (Profile.on_found_users users s)
         = (Profile.request_results_list s ++ found_rows users)%list).
Proof.
  split; [|split].
  - intros base s entries. apply dictionary_results_rebuilt.
  - apply leaderboard_appends.
  - apply found_users_appends.
Qed.

Lemma searched_page_tidy : tidy [result_template] searched_page.
Proof.
  split; [reflexivity|].
  exists [{| Dictionary.box_id := "search_result_1";
             Dictionary.display := "block";
             Dictionary.parts := [] |}].
  split; reflexivity.
Defined.

Lemma list_regions_after_message_witness :
  exists s',
    Dictionary.on_dictionary_results
      [Dictionary.Entry "neko" ["byou"] ["cat"]] searched_page
    = JS.Outcome.Returned s'
    /\ Dictionary.on_dictionary_results
         [Dictionary.Entry "neko" ["byou"] ["cat"]]
         (fresh result_template [result_template])
       = JS.Outcome.Returned s'.
Proof.
  destruct (proj1 list_regions_after_message [result_template] searched_page
              [Dictionary.Entry "neko" ["byou"] ["cat"]]
              searched_page_tidy (le_n 4))
    as (s' & H1 & _ & H2).
  exists s'. split; [exact H1|exact H2].
Defined.

(** C6 (as stated) fails: the table of the leaderboard and the list of
    found users keep the rows of the previous message. *)
Lemma leaderboard_keeps_previous_rows :
  let s0 := {| Home.x := 0; Home.leaderboard := [] |} in
  let s1 := Home.on_leaderboard [("ann", 10%Z)] s0 in
  let s2 := Home.on_leaderboard [("bob", 7%Z)] s1 in
  Home.leaderboard s2
  = [Home.Row "#1" "ann" "10"; Home.Row "#1" "bob" "7"]
  /\ Home.leaderboard s2
     <> Home.leaderboard (Home.on_leaderboard [("bob", 7%Z)] s0)
  /\ let p0 := {| Profile.x := 0; Profile.request_results_list := [] |} in
     let p1 := Profile.on_found_users [(4%Z, "ann")] p0 in
     let p2 := Profile.on_found_users [(5%Z, "bob")] p1 in
     Profile.request_results_list p2
     = [Profile.Result "request_result_0" "block" "ann" "final_req_4";
        Profile.Result "request_result_0" "block" "bob" "final_req_5"]
     /\ Profile.request_results_list p2
        <> Profile.request_results_list
             (Profile.on_found_users [(5%Z, "bob")] p0).
Proof.
  cbv zeta. split; [reflexivity|]. split; [discriminate|].
  split; [reflexivity|discriminate].
Qed.

(** ** The matching game *)

Section MatchingGame.

Import JS JS.Outcome Matching.
Local Open Scope list_scope.

Lemma upd_nth_error {A : Type} (f : A -> A) (l : list A) :
  forall i j,
    nth_error (upd i f l) j
    = if (j =? i)%nat then option_map f (nth_error l j) else nth_error l j.
Proof.
  induction l as [|a l IH]; intros i j; simpl.
  - destruct (j =? i)%nat; destruct j; reflexivity.
  - destruct i as [|i], j as [|j]; simpl; auto.
Qed.

Lemma upd_map {A B : Type} (g : A -> B) (f : A -> A) (l : list A) i :
  (forall a, g (f a) = g a) -> map g (upd i f l) = map g l.
Proof.
  intros Hg. revert i; induction l as [|a l IH]; intros [|i]; simpl;
    rewrite ?Hg, ?IH; reflexivity.
Qed.

Lemma card_id_of_inj a b : card_id_of a = card_id_of b -> a = b.
Proof.
  unfold card_id_of. intros H. simpl in H. injection H as H.
  now apply nat_to_string_inj.
Qed.

Lemma hold_id_of_inj a b : hold_id_of a = hold_id_of b -> a = b.
Proof.
  unfold hold_id_of. intros H. simpl in H. injection H as H.
  now apply nat_to_string_inj.
Qed.

(** Looking a card up by the id of its position finds that position. *)
Lemma on_card_at (f : card -> card) (m : list card) :
  forall z n i,
    map card_id m = map card_id_of (seq z n) ->
    i < n ->
    on_card (card_id_of (z + i)) f m = Some (upd i f m).
Proof.
  induction m as [|c m IH]; intros z n i Hm Hi.
  - destruct n; [lia|discriminate].
  - destruct n as [|n]; [lia|]. simpl in Hm. injection Hm as Hc Hm.
    simpl. rewrite Hc. destruct i as [|i].
    + rewrite Nat.add_0_r, String.eqb_refl. reflexivity.
    + destruct (String.eqb_spec (card_id_of z) (card_id_of (z + S i)))
        as [He|Hne].
      * apply card_id_of_inj in He. lia.
      * replace (z + S i) with (S z + i) by lia.
        rewrite (IH (S z) n i Hm) by lia. reflexivity.
Qed.

(** The position of an entry of the deck is what [indexOf] finds. *)
Lemma indexOf_characters (cs : list entry) :
  NoDup (map ref cs) ->
  forall i e, nth_error cs i = Some e ->
              indexOf (Some e) (map Some cs) = Some i.
Proof.
  induction cs as [|c cs IH]; intros Hnd i e Hi.
  - destruct i; discriminate.
  - simpl in Hnd. inversion Hnd as [|? ? Hc Hnd']; subst.
    destruct i as [|i]; simpl in Hi.
    + injection Hi as ->. simpl. now rewrite Nat.eqb_refl.
    + simpl. destruct (Nat.eqb_spec (ref c) (ref e)) as [He|Hne].
      * exfalso. apply Hc. rewrite He. apply in_map.
        eapply nth_error_In; eauto.
      * now rewrite (IH Hnd' i e Hi).
Qed.

Lemma same_refl (a : slot) : same a a = true.
Proof. destruct a; simpl; [apply Nat.eqb_refl|reflexivity]. Qed.

Lemma indexOf_app_found a (l r : list slot) k :
  indexOf a l = Some k -> indexOf a (l ++ r) = Some k.
Proof.
  revert k; induction l as [|b l IH]; intros k; simpl; [discriminate|].
  destruct (same b a); [auto|].
  destruct (indexOf a l) as [i|]; [|discriminate].
  intros [= <-]. now rewrite (IH i eq_refl).
Qed.

Lemma indexOf_bound a (l : list slot) k :
  indexOf a l = Some k -> k < List.length l.
Proof.
  revert k; induction l as [|b l IH]; intros k; simpl; [discriminate|].
  destruct (same b a); [intros [= <-]; lia|].
  destruct (indexOf a l) as [i|]; [|discriminate].
  intros [= <-]. specialize (IH i eq_refl). lia.
Qed.

Lemma indexOf_app_last a (l : list slot) :
  indexOf a l = None -> indexOf a (l ++ [a]) = Some (List.length l).
Proof.
  induction l as [|b l IH]; simpl; intros H.
  - now rewrite same_refl.
  - destruct (same b a); [discriminate|].
    destruct (indexOf a l); [discriminate|]. now rewrite IH.
Qed.

Lemma remove_at_app k (l r : list slot) :
  k < List.length l -> remove_at k (l ++ r) = remove_at k l ++ r.
Proof.
  revert k; induction l as [|b l IH]; intros k Hk; simpl in *; [lia|].
  destruct k; simpl; [reflexivity|]. now rewrite IH by lia.
Qed.

Lemma remove_at_last (l : list slot) a :
  remove_at (List.length l) (l ++ [a]) = l.
Proof.
  induction l as [|b l IH]; simpl; [reflexivity|now rewrite IH].
Qed.

Lemma indexOf_remove_at a k (l : list slot) :
  indexOf a l = None -> indexOf a (remove_at k l) = None.
Proof.
  revert k; induction l as [|b l IH]; intros k; simpl; [destruct k; auto|].
  destruct (same b a) eqn:Hs; [discriminate|].
  destruct (indexOf a l) eqn:Hi; [discriminate|]. intros _.
  destruct k; simpl; [exact Hi|]. now rewrite Hs, IH.
Qed.

(** After a wrong pair the two entries leave the locked list, and
    nothing else does. *)
Lemma unlock_both a b (na : list slot) k :
  indexOf a na = Some k ->
  indexOf b na = None ->
  let na1 := splice1 (indexOf a (na ++ [b])) (na ++ [b]) in
  splice1 (indexOf b na1) na1 = remove_at k na.
Proof.
  intros Ha Hb. cbv zeta.
  rewrite (indexOf_app_found a na [b] k Ha). simpl.
  rewrite remove_at_app by (eapply indexOf_bound; eauto).
  rewrite (indexOf_app_last b (remove_at k na))
    by (now apply indexOf_remove_at).
  simpl. apply remove_at_last.
Qed.

(** The holders go, first to last. *)
Lemma remove_holders_first (m : list card) :
  forall z n k,
    map hold_id m = map hold_id_of (seq z k) ->
    n <= k ->
    remove_holders z n m = Returned (skipn n m).
Proof.
  induction m as [|c m IH]; intros z n k Hm Hn.
  - destruct k; [|discriminate]. replace n with 0 by lia. reflexivity.
  - destruct k as [|k]; [discriminate|]. simpl in Hm.
    injection Hm as Hc Hm.
    destruct n as [|n]; [reflexivity|].
    simpl. fold (hold_id_of z). rewrite Hc, String.eqb_refl. simpl.
    apply (IH (S z) n k Hm). lia.
Qed.

Lemma card_updates_matched (m : list card) ia ib :
  upd ib (set_onclick false)
    (upd ia (set_onclick false)
       (upd ib (set_class "disabled_correct")
          (upd ia (set_class "disabled_correct")
             (upd ib (set_class "disabled_selected") m))))
  = upd ib matched (upd ia matched m).
Proof.
  apply nth_error_ext. intros j. rewrite !upd_nth_error.
  destruct (j =? ia)%nat, (j =? ib)%nat, (nth_error m j); reflexivity.
Qed.

Lemma card_updates_released (m : list card) ia ib :
  upd ib (set_onclick true)
    (upd ia (set_onclick true)
       (upd ib (set_class "match_card")
          (upd ia (set_class "match_card")
             (upd ib (set_class "disabled_selected") m))))
  = upd ib released (upd ia released m).
Proof.
  apply nth_error_ext. intros j. rewrite !upd_nth_error.
  destruct (j =? ia)%nat, (j =? ib)%nat, (nth_error m j); reflexivity.
Qed.

(** The second card of a pair is chosen: the state [check] starts from. *)
Lemma this_one_second (s : page) ib (a b : entry) :
  laid s ->
  selected s = [Some a] ->
  nth_error (characters s) ib = Some b ->
  indexOf (Some b) (not_allowed s) = None ->
  this_one (ib + 1) s
  = check
      (with_lists (characters s) [Some a; Some b]
         (not_allowed s ++ [Some b]) (found s)
         (with_matching
            (upd ib (set_class "disabled_selected") (matching s)) s)).
Proof.
  intros Hl Hsel Hb Hnb. unfold this_one.
  replace (ib + 1) with (S ib) by lia. rewrite Hb, Hnb.
  cbn [matching with_lists].
  change ("card_" ++ nat_to_string (S ib))%string with (card_id_of (1 + ib)).
  rewrite (on_card_at _ _ 1 (List.length (characters s)) ib (laid_cards s Hl))
    by (apply nth_error_Some; congruence).
  cbn [defined bind]. rewrite Hsel. reflexivity.
Qed.

Lemma card_of_position (s : page) i (e : entry) :
  NoDup (map ref (characters s)) ->
  nth_error (characters s) i = Some e ->
  card_of (Some e) s = card_id_of (1 + i).
Proof.
  intros Hnd Hi. unfold card_of.
  rewrite (indexOf_characters _ Hnd i e Hi).
  replace (i + 1) with (1 + i) by lia. reflexivity.
Qed.

(** Rewrites the four writes of [check] to the cards of a pair, on a deck
    of [n] cards. *)
Ltac write_cards n :=
  repeat (rewrite (on_card_at _ _ 1 n) by (rewrite ?upd_map; auto);
          cbn [defined bind]).

(** C7 (as amended): when the second card of a pair is chosen on a laid
    out deck, the selection is empty afterwards, and
    - if the two sounds are equal and the deck is not finished by this
      pair, both entries are added to [found], both cards get the class
      [disabled_correct] and lose their click handler, both entries stay
      locked and the points grow by 2;
    - if the two sounds are equal and this pair brings [found] to ten
      entries, the points grow by 2, the three lists and the deck are
      emptied, the first ten card holders are removed and a new deck is
      asked for;
    - if the sounds differ, the two cards get the class [match_card] and
      their click handler back, the two entries leave the locked list,
      and [found] and the points stay as they are.
    No other card changes. *)
Theorem second_card_compared :
  forall (s : page) (ia ib k : nat) (a b : entry),
    laid s ->
    selected s = [Some a] ->
    nth_error (characters s) ia = Some a ->
    nth_error (characters s) ib = Some b ->
    indexOf (Some a) (not_allowed s) = Some k ->
    indexOf (Some b) (not_allowed s) = None ->
    (sound a = sound b ->
     List.length (found s) + 2 <> 10 ->
     exists s',
       this_one (ib + 1) s = Returned s'
       /\ selected s' = []
       /\ found s' = found s ++ [Some a; Some b]
       /\ points s' = points s + 2
       /\ not_allowed s' = not_allowed s ++ [Some b]
       /\ characters s' = characters s
       /\ matching s' = upd ib matched (upd ia matched (matching s))
       /\ sent s' = sent s)
    /\ (sound a = sound b ->
        List.length (found s) + 2 = 10 ->
        10 <= List.length (characters s) ->
        exists s',
          this_one (ib + 1) s = Returned s'
          /\ selected s' = []
          /\ found s' = []
          /\ points s' = points s + 2
          /\ not_allowed s' = []
          /\ characters s' = []
          /\ matching s'
             = skipn 10 (upd ib matched (upd ia matched (matching s)))
          /\ sent s'
             = Socket.Emit "message"
                 [("EventType", Socket.FStr "match_connect")]
               :: Socket.Emit "message"
                    [("EventType", Socket.FStr "done_matches")]
               :: sent s)
    /\ (sound a <> sound b ->
        List.length (found s) <> 10 ->
        exists s',
          this_one (ib + 1) s = Returned s'
          /\ selected s' = []
          /\ found s' = found s
          /\ points s' = points s
          /\ not_allowed s' = remove_at k (not_allowed s)
          /\ characters s' = characters s
          /\ matching s' = upd ib released (upd ia released (matching s))
          /\ sent s' = sent s).
Proof.
  intros s ia ib k a b Hl Hsel Ha Hb Hka Hnb.
  pose proof (this_one_second s ib a b Hl Hsel Hb Hnb) as Hthis.
  assert (Hia : ia < List.length (characters s))
    by (apply nth_error_Some; congruence).
  assert (Hib : ib < List.length (characters s))
    by (apply nth_error_Some; congruence).
  pose proof (laid_refs s Hl) as Hrefs.
  pose proof (laid_cards s Hl) as Hcards.
  pose proof (laid_holds s Hl) as Hholds.
  clear Hl. rewrite Hthis. clear Hthis.
  destruct s as [cs pts sel na fo m rh ph od tc nr se].
  cbn [characters selected not_allowed found matching points sent] in *.
  subst sel.
  split; [|split].
  - intros Hs Hf. unfold check.
    cbn [selected with_lists sound_of bind].
    apply String.eqb_eq in Hs. rewrite Hs.
    cbn [matching with_lists with_result with_matching characters
           selected not_allowed found points sent result_html points_html
           overlay_display template_class next_ref].
    rewrite !(card_of_position _ ia a), !(card_of_position _ ib b); auto.
    write_cards (List.length cs).
    rewrite card_updates_matched.
    unfold finish.
    cbn -[upd matched released skipn remove_holders Nat.eqb List.length
            Nat.add].
    rewrite length_app. cbn [List.length].
    destruct (Nat.eqb_spec (List.length fo + 2) 10) as [He|_]; [lia|].
    eexists. split; [reflexivity|]. cbn. repeat split; reflexivity.
  - intros Hs Hf Hten. unfold check.
    cbn [selected with_lists sound_of bind].
    apply String.eqb_eq in Hs. rewrite Hs.
    cbn [matching with_lists with_result with_matching characters
           selected not_allowed found points sent result_html points_html
           overlay_display template_class next_ref].
    rewrite !(card_of_position _ ia a), !(card_of_position _ ib b); auto.
    write_cards (List.length cs).
    rewrite card_updates_matched.
    unfold finish.
    cbn -[upd matched released skipn remove_holders Nat.eqb List.length
            Nat.add].
    rewrite length_app. cbn [List.length].
    destruct (Nat.eqb_spec (List.length fo + 2) 10) as [_|Hne]; [|lia].
    cbn -[upd matched released skipn remove_holders Nat.eqb List.length
            Nat.add].
    rewrite (remove_holders_first _ 1 10 (List.length cs)); auto.
    + eexists. split; [reflexivity|]. cbn. repeat split; reflexivity.
    + rewrite !upd_map; auto.
  - intros Hs Hf. unfold check.
    cbn [selected with_lists sound_of bind].
    apply String.eqb_neq in Hs. rewrite Hs.
    cbn [matching with_lists with_result with_matching characters
           selected not_allowed found points sent result_html points_html
           overlay_display template_class next_ref].
    rewrite !(card_of_position _ ia a), !(card_of_position _ ib b); auto.
    write_cards (List.length cs).
    rewrite card_updates_released.
    unfold finish.
    cbn -[upd matched released skipn remove_holders Nat.eqb List.length
            Nat.add remove_at splice1 indexOf].
    pose proof (unlock_both (Some a) (Some b) na k Hka Hnb) as Hun.
    cbv zeta in Hun. unfold slot in *. rewrite Hun.
    destruct (Nat.eqb_spec (List.length fo) 10) as [He|_]; [lia|].
    eexists. split; [reflexivity|]. cbn. repeat split; reflexivity.
Qed.

End MatchingGame.

Lemma game_page_laid clicks :
  Matching.characters (after clicks game_page)
  = Matching.characters game_page ->
  map Matching.card_id (Matching.matching (after clicks game_page))
  = map Matching.card_id (Matching.matching game_page) ->
  map Matching.hold_id (Matching.matching (after clicks game_page))
  = map Matching.hold_id (Matching.matching game_page) ->
  laid (after clicks game_page).
Proof.
  intros Hc Hm Hh. split.
  - rewrite Hc. cbn.
    repeat (constructor; [simpl; intuition discriminate|]). constructor.
  - rewrite Hc, Hm. reflexivity.
  - rewrite Hc, Hh. reflexivity.
Defined.

(** The first card is selected; the second has the same sound. *)
Lemma second_card_compared_witness :
  exists s',
    Matching.this_one 2 (after [1] game_page) = JS.Outcome.Returned s'
    /\ Matching.selected s' = []
    /\ Matching.found s'
       = [Some (Matching.Entry 0 "A" "a"); Some (Matching.Entry 1 "a" "a")]
    /\ Matching.points s' = 2.
Proof.
  destruct (proj1 (second_card_compared (after [1] game_page) 0 1 0
                     (Matching.Entry 0 "A" "a") (Matching.Entry 1 "a" "a")
                     (game_page_laid [1] eq_refl eq_refl eq_refl)
                     eq_refl eq_refl eq_refl eq_refl eq_refl)
              eq_refl ltac:(discriminate))
    as (s' & H1 & H2 & H3 & H4 & _).
  exists s'. repeat split; assumption.
Defined.

(** C7 (as stated) fails on the last pair of a deck: the two entries are
    not in [found] afterwards, which is empty, and their cards are not
    disabled but gone. *)
Lemma last_pair_empties_found :
  let s := after [1; 2; 3; 4; 5; 6; 7; 8; 9] game_page in
  Matching.selected s = [Some (Matching.Entry 8 "O" "o")]
  /\ List.length (Matching.found s) = 8
  /\ exists s',
       Matching.click 10 s = JS.Outcome.Returned s'
       /\ Matching.selected s' = []
       /\ Matching.found s' = []
       /\ ~ In (Some (Matching.Entry 8 "O" "o")) (Matching.found s')
       /\ Matching.matching s' = []
       /\ Matching.points s' = 10.
Proof.
  cbv zeta. split; [reflexivity|]. split; [reflexivity|].
  eexists. split; [vm_compute; reflexivity|].
  cbn. repeat split; auto.
Qed.

(** ** More on the collaborative drawing page *)

Section DrawingMore.

Import MultiDraw.
Import Socket.
Local Open Scope list_scope.

Variable toDataURL : list segment -> string.

#[local] Abbreviation step := (MultiDraw.step toDataURL).
#[local] Abbreviation run := (MultiDraw.run toDataURL).

Lemma stroke_key_inj a b : stroke_key a = stroke_key b -> a = b.
Proof.
  unfold stroke_key. intros H. simpl in H. injection H as H.
  now apply nat_to_string_inj.
Qed.

(** A key that starts with a letter is not an array index. *)
Lemma stroke_key_not_index n : JS.array_index (stroke_key n) = None.
Proof.
  unfold JS.array_index, stroke_key. simpl.
  destruct (NilEmpty.uint_of_string _); reflexivity.
Qed.

(** A new key that is not an array index goes last. *)
Lemma obj_set_new {V} (k : string) (v : V) (o : JS.obj V) :
  ~ In k (JS.obj_keys o) -> JS.array_index k = None ->
  JS.obj_set k v o = o ++ [(k, v)].
Proof.
  intros Hn Hi. unfold JS.obj_set.
  destruct (JS.obj_mem k o) eqn:Hm; [apply obj_mem_In in Hm; tauto|].
  now rewrite Hi.
Qed.

(** Strokes drawn one after the other are labelled in order. *)
Lemma strokes_extend_labels (ks : list stroke) :
  forall s n,
    strokeNum s = n ->
    JS.obj_keys (snapshots s) = map stroke_key (seq 1 n) ->
    let s' := run (List.concat (map stroke_events ks)) s in
    strokeNum s' = n + List.length ks
    /\ JS.obj_keys (snapshots s')
       = map stroke_key (seq 1 (n + List.length ks))
    /\ session_of s' = session_of s.
Proof.
  induction ks as [|k ks IH]; intros s n Hn Hk; cbn [map List.concat].
  - simpl. rewrite Nat.add_0_r. auto.
  - cbv zeta. rewrite run_app.
    destruct (stroke_records_one toDataURL k s) as (N1 & (v & S1) & E1).
    set (s1 := run (stroke_events k) s) in *.
    rewrite Hn in N1, S1.
    assert (Hk1 : JS.obj_keys (snapshots s1)
                  = map stroke_key (seq 1 (n + 1))).
    { rewrite S1. fold (stroke_key (n + 1)). rewrite obj_set_new.
      - unfold JS.obj_keys in *. rewrite map_app, Hk. simpl.
        replace (n + 1) with (S n) by lia.
        rewrite (seq_S n 1), map_app. reflexivity.
      - rewrite Hk. intros Hin. apply in_map_iff in Hin.
        destruct Hin as (j & Hj & Hin). apply stroke_key_inj in Hj.
        apply in_seq in Hin. lia.
      - apply stroke_key_not_index. }
    destruct (IH s1 (n + 1) N1 Hk1) as (N2 & K2 & E2).
    cbn [List.length]. replace (n + S (List.length ks))
      with (n + 1 + List.length ks) by lia.
    split; [exact N2|split; [exact K2|]]. congruence.
Qed.

(** X1: after the canvas is cleared, [n] strokes leave exactly [n]
    snapshots, under the keys [stroke1] to [stroke]n in this order, and
    the counter at [n]. *)
Theorem strokes_after_clear_are_labelled :
  forall (s : page) (ks : list stroke),
    let s' := run (List.concat (map stroke_events ks)) (erase s) in
    strokeNum s' = List.length ks
    /\ JS.obj_keys (snapshots s')
       = map stroke_key (seq 1 (List.length ks))
    /\ List.length (snapshots s') = List.length ks.
Proof.
  intros s ks.
  destruct (strokes_extend_labels ks (erase s) 0 eq_refl eq_refl)
    as (Hn & Hk & _).
  cbv zeta. split; [exact Hn|split; [exact Hk|]].
  rewrite <- (length_map fst). fold (JS.obj_keys (snapshots
    (run (List.concat (map stroke_events ks)) (erase s)))).
  rewrite Hk, length_map, length_seq. reflexivity.
Qed.

Lemma labelled_step e s : labelled s -> labelled (step e s).
Proof.
  unfold labelled. intros (Hnd & Hk).
  destruct s as [m sn k w ro ow ys os cu cv oi doc se lo].
  cbn [snapshots strokeNum] in *.
  assert (Hempty : NoDup (JS.obj_keys (@nil (string * string)))
                   /\ forall x, In x (JS.obj_keys (@nil (string * string))) ->
                                exists j, j <= 0 /\ x = stroke_key j).
  { split; [constructor|intros x []]. }
  destruct e; try (split; [exact Hnd|exact Hk]); try exact Hempty.
  - unfold step, on_allowed_check; by_cases.
  - unfold step, on_recv_img; by_cases.
  - unfold step, on_result_img, colour_results; by_cases.
  - unfold step, on_other_ready; by_cases.
  - destruct res; cbn [step findcoords snapshots strokeNum with_mouse
                         with_snapshots with_strokeNum].
    + split; [exact Hnd|]. intros x Hx.
      destruct (Hk x Hx) as (j & Hj & ->). exists j. split; [lia|auto].
    + split; [now apply obj_set_NoDup|]. intros x Hx.
      apply obj_set_In in Hx. destruct Hx as [->|Hx]; [|auto].
      exists k. split; [lia|reflexivity].
    + split; [exact Hnd|exact Hk].
    + unfold findcoords; by_cases.
  - unfold step, save; by_cases.
Qed.

Lemma snapshots_bounded_by_counter_aux (d : dom) (c : canvas_state) es :
  labelled (run es (initial d c)).
Proof.
  apply run_invariant; [exact labelled_step|].
  split; [constructor|intros x []].
Qed.

(** X2: in every state the session can reach, the snapshot keys are
    distinct, each is [stroke]j for a count j not above the stroke
    counter, and so there are at most one more snapshots than the
    counter says (a release with no press writes [stroke0]). *)
Theorem snapshots_bounded_by_counter :
  forall (d : dom) (c : canvas_state) (es : list event),
    let s := run es (initial d c) in
    NoDup (JS.obj_keys (snapshots s))
    /\ (forall k, In k (JS.obj_keys (snapshots s)) ->
                  exists j, j <= strokeNum s /\ k = stroke_key j)
    /\ List.length (snapshots s) <= strokeNum s + 1.
Proof.
  intros d c es s.
  destruct (snapshots_bounded_by_counter_aux d c es) as (Hnd & Hk).
  fold s in Hnd, Hk. split; [exact Hnd|split; [exact Hk|]].
  rewrite <- (length_map fst). fold (JS.obj_keys (snapshots s)).
  assert (Hincl : incl (JS.obj_keys (snapshots s))
                    (map stroke_key (seq 0 (strokeNum s + 1)))).
  { intros k Hin. destruct (Hk k Hin) as (j & Hj & ->).
    apply in_map, in_seq. lia. }
  apply NoDup_incl_length in Hincl; [|exact Hnd].
  now rewrite length_map, length_seq in Hincl.
Qed.

(** Property writes in enumeration order rebuild an object whose keys are
    distinct and are not array indexes. *)
Lemma written_plain (o : JS.obj string) :
  forall acc,
    NoDup (JS.obj_keys (acc ++ o)) ->
    Forall (fun k => JS.array_index k = None) (JS.obj_keys o) ->
    written o acc = acc ++ o.
Proof.
  induction o as [|[k v] o IH]; intros acc Hnd Hp; simpl.
  - now rewrite app_nil_r.
  - inversion Hp as [|? ? Hk Hp']; subst.
    assert (Hn : ~ In k (JS.obj_keys acc)).
    { unfold JS.obj_keys in *. rewrite map_app in Hnd. simpl in Hnd.
      apply NoDup_remove_2 in Hnd. rewrite in_app_iff in Hnd. tauto. }
    rewrite (obj_set_new k v acc Hn Hk).
    rewrite IH; rewrite <- ?app_assoc; auto.
Qed.

(** X3: in every state the session can reach with the other user
    present, what [save] sends as [image_data] is a JSON text that parses
    back to the snapshot object, key for key in the same order. *)
Theorem submitted_image_decodes_to_snapshots :
  forall (d : dom) (c : canvas_state) (es : list event),
    let s := run es (initial d c) in
    waiting s = false ->
    exists image,
      sent (save s)
      = Emit "message"
          [("UserID", FNum (own_id s)); ("EventType", FStr "image_submit");
           ("image_data", FStr image); ("room", FNum (room s));
           ("sound_num", FNum (sound_num (current s)))] :: sent s
      /\ Json.parse image = Some (snapshots s).
Proof.
  intros d c es s Hw.
  destruct (snapshots_bounded_by_counter_aux d c es) as (Hnd & Hk).
  exists (Json.stringify (snapshots s)). split.
  - unfold save. rewrite Hw. reflexivity.
  - rewrite parse_stringify. f_equal.
    apply (written_plain (snapshots s) []); [exact Hnd|].
    apply Forall_forall. intros k Hin.
    destruct (Hk k Hin) as (j & _ & ->). apply stroke_key_not_index.
Qed.

Lemma still_waiting_step e s :
  is_other_connection e = false -> still_waiting s -> still_waiting (step e s).
Proof.
  unfold still_waiting. intros He (Hw & Hs).
  destruct s as [m sn k w ro ow ys os cu cv oi doc se lo].
  cbn [waiting sent] in *. subst w.
  destruct e; try discriminate He;
    unfold step, on_connect, on_move_user, on_allowed_check, on_info,
      on_recv_img, on_wait, on_result_img, colour_results, on_other_ready,
      on_recv_challenge, findcoords, erase, save, ready_click, leave_game;
    try destruct res; by_cases.
Qed.

(** X4: as long as no [other_connection] message has arrived, no
    [image_submit] message is sent, whatever is clicked or received. *)
Theorem no_submission_before_peer :
  forall (d : dom) (c : canvas_state) (es : list event),
    forallb (fun e => negb (is_other_connection e)) es = true ->
    let s := run es (initial d c) in
    waiting s = true
    /\ forall m, In m (sent s) -> is_image_submit m = false.
Proof.
  intros d c es Hes.
  assert (H : forall s0, still_waiting s0 -> still_waiting (run es s0)).
  { induction es as [|e es IH]; intros s0 H0; simpl; [exact H0|].
    simpl in Hes. apply andb_true_iff in Hes. destruct Hes as [He Hes].
    apply IH; [exact Hes|]. apply still_waiting_step; [|exact H0].
    now destruct (is_other_connection e). }
  destruct (H (initial d c)) as (Hw & Hs); [split; reflexivity|].
  split; [exact Hw|]. intros m Hm.
  rewrite forallb_forall in Hs. specialize (Hs m Hm).
  now destruct (is_image_submit m).
Qed.

Lemma moves_while_released (ps : list (Z * Z)) :
  forall s, drawing_ (mouse s) = false -> run (moves ps) s = s.
Proof.
  induction ps as [|p ps IH]; intros s Hs; simpl; [reflexivity|].
  unfold findcoords. rewrite Hs. now apply IH.
Qed.

(** X5: once the button is released or the mouse has left the canvas,
    moving the mouse changes nothing on the page until the button is
    pressed again. *)
Theorem moves_after_release_draw_nothing :
  forall (s : page) (x y : Z) (ps : list (Z * Z)),
    run (Mouse up x y :: moves ps) s = step (Mouse up x y) s
    /\ run (Mouse out x y :: moves ps) s = step (Mouse out x y) s.
Proof.
  intros s x y ps. split; simpl; apply moves_while_released; reflexivity.
Qed.

Lemma moves_while_pressed (ps : list (Z * Z)) :
  forall s,
    drawing_ (mouse s) = true ->
    let s' := run (moves ps) s in
    drawn (canvas s')
    = polyline (currX (mouse s), currY (mouse s))
        (map (on_canvas (canvas s)) ps) (drawn (canvas s))
    /\ drawing_ (mouse s') = true
    /\ strokeNum s' = strokeNum s /\ snapshots s' = snapshots s.
Proof.
  induction ps as [|p ps IH]; intros s Hs; [simpl; auto|].
  destruct s as [[dr px cx py cy] sn k w ro ow ys os cu [ol ot dn]
                   oi doc se lo].
  cbn in Hs. subst dr. destruct p as [x y].
  cbn [moves map MultiDraw.run MultiDraw.step fst snd]. fold (moves ps).
  set (t := findcoords toDataURL move x y _).
  destruct (IH t eq_refl) as (Hd & Hp & Hn & Hk).
  cbv zeta in *. rewrite Hd, Hp, Hn, Hk. subst t. cbn. repeat split.
Qed.

(** X6: a press followed by moves draws the connected line through the
    positions of the press and of the moves, taken relative to the
    canvas, in black and of width 20, on top of what was drawn; nothing
    is recorded before the release, and the counter has grown by one. *)
Theorem press_and_moves_draw_polyline :
  forall (s : page) (p : Z * Z) (ps : list (Z * Z)),
    let s' := run (Mouse down (fst p) (snd p) :: moves ps) s in
    drawn (canvas s')
    = polyline (on_canvas (canvas s) p) (map (on_canvas (canvas s)) ps)
        (drawn (canvas s))
    /\ strokeNum s' = strokeNum s + 1
    /\ snapshots s' = snapshots s.
Proof.
  intros s p ps. cbv zeta. cbn [MultiDraw.run].
  destruct (moves_while_pressed ps (step (Mouse down (fst p) (snd p)) s)
              eq_refl) as (Hd & _ & Hn & Hk).
  cbv zeta in Hd. rewrite Hd, Hn, Hk.
  destruct s as [m sn k w ro ow ys os cu cv oi doc se lo].
  repeat split.
Qed.


(** The other user is not marked ready. *)
Lemma not_ready_step e s :
  is_other_ready e = false ->
  ready (other_user s) = false -> ready (other_user (step e s)) = false.
Proof.
  intros He Hr.
  destruct s as [m sn k w ro ow ys [os or ou ord op] cu cv oi doc se lo].
  cbn [other_user ready] in Hr. subst ord.
  destruct e; try discriminate He; try reflexivity.
  - unfold step, on_allowed_check; by_cases.
  - unfold step, on_recv_img; by_cases.
  - unfold step, on_result_img, colour_results; by_cases.
  - unfold step, findcoords; destruct res; by_cases.
  - unfold step, save; by_cases.
Qed.

(** X8: the [both] flag of the [user_ready] message tells whether a
    ready message of the other user was taken since the last challenge:
    it is false when none arrived after the challenge, and true when the
    click follows a ready message that names the other user. *)
Theorem ready_message_both_flag :
  forall (s : page) (data : challenge) (es : list event),
    forallb (fun e => negb (is_other_ready e)) es = true ->
    (exists rest,
       sent (ready_click (run es (on_recv_challenge data s)))
       = Emit "message"
           [("EventType", FStr "user_ready");
            ("UserID",
             FNum (user_id (yourself (run es (on_recv_challenge data s)))));
            ("OtherID",
             FNum (user_id (other_user (run es (on_recv_challenge data s)))));
            ("both", FBool false);
            ("room", FNum (room (run es (on_recv_challenge data s))))]
         :: rest)
    /\ Socket.field_of "both"
         (Socket.payload
            (hd (Emit EmptyString [])
               (sent (ready_click
                        (on_other_ready (user_id (other_user s)) s)))))
       = Some (FBool true)
    /\ forall u, u <> user_id (other_user s) -> on_other_ready u s = s.
Proof.
  intros s data es Hes. split; [|split].
  - assert (H : forall s0, ready (other_user s0) = false ->
                           ready (other_user (run es s0)) = false).
    { induction es as [|e es IH]; intros s0 H0; simpl; [exact H0|].
      simpl in Hes. apply andb_true_iff in Hes. destruct Hes as [He Hes].
      apply IH; [exact Hes|]. apply not_ready_step; [|exact H0].
      now destruct (is_other_ready e). }
    specialize (H (on_recv_challenge data s) eq_refl).
    unfold ready_click. cbn. rewrite H. eexists. reflexivity.
  - unfold on_other_ready. rewrite Z.eqb_refl. reflexivity.
  - intros u Hu. unfold on_other_ready.
    apply Z.eqb_neq in Hu. now rewrite Hu.
Qed.

End DrawingMore.

(** The other user has joined and one stroke was drawn: the submitted text
    parses back to the one snapshot. *)
Lemma submitted_image_decodes_to_snapshots_witness :
  let s := MultiDraw.run (fun _ => "data:,")
             [MultiDraw.Info 3 1; MultiDraw.OtherConnection "ann" 7;
              MultiDraw.Mouse MultiDraw.down 1 1;
              MultiDraw.Mouse MultiDraw.move 2 2;
              MultiDraw.Mouse MultiDraw.up 2 2]
             (MultiDraw.initial served (MultiDraw.Canvas 0 0 [])) in
  MultiDraw.waiting s = false
  /\ exists image,
       MultiDraw.sent (MultiDraw.save s)
       = Socket.Emit "message"
           [("UserID", Socket.FNum 1); ("EventType", Socket.FStr "image_submit");
            ("image_data", Socket.FStr image); ("room", Socket.FNum 3);
            ("sound_num", Socket.FNum 0)] :: MultiDraw.sent s
       /\ Json.parse image = Some [("stroke1", "data:,")].
Proof.
  cbv zeta. split; [reflexivity|].
  exact (submitted_image_decodes_to_snapshots (fun _ => "data:,") served
           (MultiDraw.Canvas 0 0 [])
           [MultiDraw.Info 3 1; MultiDraw.OtherConnection "ann" 7;
            MultiDraw.Mouse MultiDraw.down 1 1;
            MultiDraw.Mouse MultiDraw.move 2 2;
            MultiDraw.Mouse MultiDraw.up 2 2] eq_refl).
Defined.

(** A stroke and two clicks on submit, alone in the room. *)
Lemma no_submission_before_peer_witness :
  let s := MultiDraw.run (fun _ => "data:,")
             [MultiDraw.Connect; MultiDraw.Info 3 1;
              MultiDraw.Mouse MultiDraw.down 1 1;
              MultiDraw.Mouse MultiDraw.up 2 2;
              MultiDraw.ClickSubmit; MultiDraw.ClickReady;
              MultiDraw.ClickSubmit]
             (MultiDraw.initial served (MultiDraw.Canvas 0 0 [])) in
  MultiDraw.waiting s = true
  /\ forall m, In m (MultiDraw.sent s) -> is_image_submit m = false.
Proof.
  exact (no_submission_before_peer (fun _ => "data:,") served
           (MultiDraw.Canvas 0 0 [])
           [MultiDraw.Connect; MultiDraw.Info 3 1;
            MultiDraw.Mouse MultiDraw.down 1 1;
            MultiDraw.Mouse MultiDraw.up 2 2;
            MultiDraw.ClickSubmit; MultiDraw.ClickReady;
            MultiDraw.ClickSubmit] eq_refl).
Defined.

(** A challenge, a stroke and a submission, then the click on ready. *)
Lemma ready_message_both_flag_witness :
  let s := MultiDraw.run (fun _ => "data:,")
             [MultiDraw.Info 3 1; MultiDraw.OtherConnection "ann" 7]
             (MultiDraw.initial served (MultiDraw.Canvas 0 0 [])) in
  let es := [MultiDraw.Mouse MultiDraw.down 1 1;
             MultiDraw.Mouse MultiDraw.up 2 2; MultiDraw.ClickSubmit] in
  let c := {| MultiDraw.kana := "a"; MultiDraw.sound := "a";
              MultiDraw.sound_num := 1 |} in
  Socket.field_of "both"
    (Socket.payload
       (hd (Socket.Emit EmptyString [])
          (MultiDraw.sent
             (MultiDraw.ready_click
                (MultiDraw.run (fun _ => "data:,") es
                   (MultiDraw.on_recv_challenge c s))))))
  = Some (Socket.FBool false)
  /\ Socket.field_of "both"
       (Socket.payload
          (hd (Socket.Emit EmptyString [])
             (MultiDraw.sent
                (MultiDraw.ready_click (MultiDraw.on_other_ready 7 s)))))
     = Some (Socket.FBool true).
Proof.
  cbv zeta.
  pose proof (ready_message_both_flag (fun _ => "data:,")
                (MultiDraw.run (fun _ => "data:,")
                   [MultiDraw.Info 3 1; MultiDraw.OtherConnection "ann" 7]
                   (MultiDraw.initial served (MultiDraw.Canvas 0 0 [])))
                {| MultiDraw.kana := "a"; MultiDraw.sound := "a";
                   MultiDraw.sound_num := 1 |}
                [MultiDraw.Mouse MultiDraw.down 1 1;
                 MultiDraw.Mouse MultiDraw.up 2 2; MultiDraw.ClickSubmit]
                eq_refl) as ((rest & H1) & H2 & _).
  split.
  - rewrite H1. reflexivity.
  - exact H2.
Defined.

(** ** The solo drawing page *)

Section Solo.

Import Single.
Import Socket.
Local Open Scope list_scope.

Variable toDataURL : list MultiDraw.segment -> string.

#[local] Abbreviation step := (Single.step toDataURL).
#[local] Abbreviation run := (Single.run toDataURL).

Lemma solo_run_app es1 es2 s : run (es1 ++ es2) s = run es2 (run es1 s).
Proof.
  revert s; induction es1 as [|e es1 IH]; intros s; simpl; auto.
Qed.

Lemma solo_run_invariant (I : page -> Prop) :
  (forall e s, I s -> I (step e s)) ->
  forall es s, I s -> I (run es s).
Proof.
  intros Hstep es; induction es as [|e es IH]; intros s Hs; simpl; auto.
Qed.

Lemma solo_key_inj a b : solo_key a = solo_key b -> a = b.
Proof.
  unfold solo_key. intros H. simpl in H. injection H as H.
  now apply nat_to_string_inj.
Qed.

Lemma solo_key_not_index n : JS.array_index (solo_key n) = None.
Proof.
  unfold JS.array_index, solo_key. simpl.
  destruct (NilEmpty.uint_of_string _); reflexivity.
Qed.

(** Moving over the canvas, or leaving it, records nothing. *)
Lemma solo_path_records_nothing (p : list (bool * (Z * Z))) :
  forall s,
    let s' := run (map (fun q : bool * (Z * Z) =>
                          Mouse (if fst q then MultiDraw.move
                                 else MultiDraw.out)
                            (fst (snd q)) (snd (snd q))) p) s in
    strokeNum s' = strokeNum s /\ snapshots s' = snapshots s.
Proof.
  induction p as [|[[] [x y]] p IH]; intros s; cbn [map Single.run].
  - auto.
  - destruct (IH (step (Mouse MultiDraw.move x y) s)) as (H1 & H2).
    cbn [fst snd] in *. rewrite H1, H2.
    cbn [Single.step]; unfold findcoords; by_cases.
  - destruct (IH (step (Mouse MultiDraw.out x y) s)) as (H1 & H2).
    cbn [fst snd] in *. rewrite H1, H2. auto.
Qed.

(** A stroke adds one to the counter and writes one snapshot under the
    key made of the new count. *)
Lemma solo_stroke_records_one (k : MultiDraw.stroke) (s : page) :
  let s' := run (stroke_events k) s in
  strokeNum s' = strokeNum s + 1
  /\ exists v,
       snapshots s' = JS.obj_set (solo_key (strokeNum s + 1)) v (snapshots s).
Proof.
  unfold stroke_events. cbn [Single.run]. rewrite solo_run_app.
  set (s1 := step (Mouse MultiDraw.down _ _) s).
  destruct (solo_path_records_nothing (MultiDraw.path k) s1) as (H1 & H2).
  cbn zeta in H1, H2.
  set (s2 := Single.run toDataURL _ s1) in *.
  cbn [Single.run Single.step findcoords].
  cbn [strokeNum snapshots with_mouse with_strokes].
  rewrite H1, H2. cbn.
  split; [reflexivity|]. eexists; reflexivity.
Qed.

Lemma solo_strokes_extend_labels (ks : list MultiDraw.stroke) :
  forall s n,
    strokeNum s = n ->
    JS.obj_keys (snapshots s) = map solo_key (seq 1 n) ->
    let s' := run (List.concat (map stroke_events ks)) s in
    strokeNum s' = n + List.length ks
    /\ JS.obj_keys (snapshots s')
       = map solo_key (seq 1 (n + List.length ks)).
Proof.
  induction ks as [|k ks IH]; intros s n Hn Hk; cbn [map List.concat].
  - simpl. rewrite Nat.add_0_r. auto.
  - cbv zeta. rewrite solo_run_app.
    destruct (solo_stroke_records_one k s) as (N1 & (v & S1)).
    set (s1 := run (stroke_events k) s) in *.
    rewrite Hn in N1, S1.
    assert (Hk1 : JS.obj_keys (snapshots s1)
                  = map solo_key (seq 1 (n + 1))).
    { rewrite S1. rewrite obj_set_new.
      - unfold JS.obj_keys in *. rewrite map_app, Hk. simpl.
        replace (n + 1) with (S n) by lia.
        rewrite (seq_S n 1), map_app. reflexivity.
      - rewrite Hk. intros Hin. apply in_map_iff in Hin.
        destruct Hin as (j & Hj & Hin). apply solo_key_inj in Hj.
        apply in_seq in Hin. lia.
      - apply solo_key_not_index. }
    destruct (IH s1 (n + 1) N1 Hk1) as (N2 & K2).
    cbn [List.length]. replace (n + S (List.length ks))
      with (n + 1 + List.length ks) by lia.
    split; [exact N2|exact K2].
Qed.

(** X9: on the solo page, after a click on next (which asks for the next
    challenge and clears the canvas), [n] strokes leave exactly [n]
    snapshots, under the keys [Stroke1] to [Stroke]n in this order; the
    keys start with a capital letter, unlike those of the collaborative
    page. *)
Theorem solo_strokes_after_next_are_labelled :
  forall (s : page) (ks : list MultiDraw.stroke),
    let s' := run (List.concat (map stroke_events ks)) (next s) in
    strokeNum s' = List.length ks
    /\ JS.obj_keys (snapshots s') = map solo_key (seq 1 (List.length ks))
    /\ List.length (snapshots s') = List.length ks
    /\ sent (next s)
       = Emit "message" [("EventType", FStr "ask_for_challenge")] :: sent s.
Proof.
  intros s ks.
  destruct (solo_strokes_extend_labels ks (next s) 0 eq_refl eq_refl)
    as (Hn & Hk).
  cbv zeta. split; [exact Hn|split; [exact Hk|split; [|reflexivity]]].
  rewrite <- (length_map fst). fold (JS.obj_keys (snapshots
    (run (List.concat (map stroke_events ks)) (next s)))).
  rewrite Hk, length_map, length_seq. reflexivity.
Qed.

Lemma anonymous_step e s : anonymous s -> anonymous (step e s).
Proof.
  unfold anonymous. intros (Ho & Hs).
  destruct s as [m sn k ow cu pt cv bg na dm bt pn ph se].
  cbn [own_id sent] in *. subst ow.
  destruct e; cbn; try (split; [reflexivity|exact Hs]).
  - split; [reflexivity|]. intros x [<-|[<-|Hx]]; try discriminate. auto.
  - destruct allowed; cbn; split; auto.
  - split; [reflexivity|]. intros x [<-|Hx]; try discriminate. auto.
  - destruct (result data); cbn; split; auto.
  - destruct event_type; cbn; try (split; [reflexivity|exact Hs]).
    destruct (MultiDraw.drawing_ m); cbn; split; auto.
  - split; [reflexivity|]. intros x [<-|Hx]; [reflexivity|auto].
  - split; [reflexivity|]. intros x [<-|Hx]; try discriminate. auto.
Qed.

(** X10: the identifier the [info] message delivers never reaches a
    submission: the handler keeps it in a variable of its own, so in every
    run of the solo page each [image_submit_single] message carries the
    [UserID] 0 the script starts with. *)
Theorem solo_submissions_carry_user_zero :
  forall (c : MultiDraw.canvas_state) (bg overlay message : string)
         (b : controls) (p : panel) (total : string) (es : list event),
    let s := run es (initial c bg overlay message b p total) in
    own_id s = 0%Z
    /\ forall m, In m (sent s) -> is_submit_single m = true ->
                 field_of "UserID" (payload m) = Some (FNum 0).
Proof.
  intros c bg overlay message b p total es.
  apply (solo_run_invariant anonymous); [exact anonymous_step|].
  split; [reflexivity|intros m []].
Qed.



Lemma solo_labelled_step e s : solo_labelled s -> solo_labelled (step e s).
Proof.
  unfold solo_labelled. intros (Hnd & Hk).
  destruct s as [m sn k ow cu pt cv bg na dm bt pn ph se].
  cbn [snapshots strokeNum] in *.
  assert (Hempty : NoDup (JS.obj_keys (@nil (string * string)))
                   /\ forall x, In x (JS.obj_keys (@nil (string * string))) ->
                                exists j, j <= 0 /\ x = solo_key j).
  { split; [constructor|intros x []]. }
  destruct e; try (split; [exact Hnd|exact Hk]); try exact Hempty.
  - destruct allowed; cbn; split; auto.
  - cbn [Single.step]. unfold on_result_single.
    destruct (result data); cbn; split; auto.
  - destruct event_type; cbn [Single.step findcoords snapshots strokeNum
                                with_mouse with_strokes].
    + split; [exact Hnd|]. intros x Hx.
      destruct (Hk x Hx) as (j & Hj & ->). exists j. split; [lia|auto].
    + split; [now apply obj_set_NoDup|]. intros x Hx.
      apply obj_set_In in Hx. destruct Hx as [->|Hx]; [|auto].
      exists k. split; [lia|reflexivity].
    + split; [exact Hnd|exact Hk].
    + cbn. destruct (MultiDraw.drawing_ m); cbn; split; auto.
Qed.

(** X12: in every state the solo page can reach, a click on submit hides
    the clear and submit buttons and sends one message, whose
    [image_data] is a JSON text that parses back to the snapshot object as
    it is, and which names the sound and the number of the latest
    challenge. *)
Theorem solo_submission_decodes_to_snapshots :
  forall (c : MultiDraw.canvas_state) (bg overlay message : string)
         (b : controls) (p : panel) (total : string) (es : list event),
    let s := run es (initial c bg overlay message b p total) in
    exists image,
      sent (save s)
      = Emit "message"
          [("UserID", FNum 0); ("EventType", FStr "image_submit_single");
           ("image_data", FStr image);
           ("sound_num", FNum (MultiDraw.sound_num (current s)));
           ("sound", FStr (MultiDraw.sound (current s)))] :: sent s
      /\ Json.parse image = Some (snapshots s)
      /\ buttons (save s)
         = {| clr := "none"; submit := "none";
              continue_ := continue_ (buttons s) |}
      /\ snapshots (save s) = snapshots s.
Proof.
  intros c bg overlay message b p total es s.
  assert (Hl : solo_labelled s).
  { apply solo_run_invariant; [exact solo_labelled_step|].
    split; [constructor|intros x []]. }
  assert (Ha : anonymous s).
  { apply solo_run_invariant; [exact anonymous_step|].
    split; [reflexivity|intros m []]. }
  destruct Hl as (Hnd & Hk). destruct Ha as (Ho & _).
  exists (Json.stringify (snapshots s)). split; [|split; [|split]].
  - unfold save. cbn. rewrite Ho. reflexivity.
  - rewrite parse_stringify. f_equal.
    apply (written_plain (snapshots s) []); [exact Hnd|].
    apply Forall_forall. intros k Hin.
    destruct (Hk k Hin) as (j & _ & ->). apply solo_key_not_index.
  - reflexivity.
  - reflexivity.
Qed.

End Solo.

(** ** The chat session *)

Section ChatSessionProofs.

Import JS JS.Outcome Chat.
Local Open Scope list_scope.

(** The clones are made in the order of the list, each with the text and
    on the side of its element. *)
Lemma display_messages_faces (l : list jsval) :
  Forall is_entry l ->
  forall s,
    exists yi oi gen,
      display_messages l s
      = Returned (with_view yi oi (container s ++ gen) s)
      /\ Permutation
           (map node_id gen ++ clone_ids (your_ind s) (other_ind s))
           (clone_ids yi oi)
      /\ map (fun n => Some (look n)) gen = map (face (yours_id s)) l.
Proof.
  induction 1 as [|v l Hv Hl IH]; intros s.
  - exists (your_ind s), (other_ind s), []. simpl. rewrite app_nil_r.
    destruct s; auto.
  - destruct v as [| |body from]; try contradiction. simpl.
    destruct (from =? yours_id s)%Z.
    + match goal with |- context [display_messages l ?t] =>
        destruct (IH t) as (yi & oi & gen & Hd & Hp & Hf) end.
      simpl in Hd, Hp, Hf. rewrite Hd.
      eexists yi, oi, (_ :: gen). split; [|split].
      * unfold with_view; simpl. rewrite <- app_assoc. reflexivity.
      * simpl. etransitivity; [|exact Hp].
        etransitivity; [apply Permutation_middle|].
        apply Permutation_app_head, clone_ids_your.
      * simpl. now rewrite Hf.
    + match goal with |- context [display_messages l ?t] =>
        destruct (IH t) as (yi & oi & gen & Hd & Hp & Hf) end.
      simpl in Hd, Hp, Hf. rewrite Hd.
      eexists yi, oi, (_ :: gen). split; [|split].
      * unfold with_view; simpl. rewrite <- app_assoc. reflexivity.
      * simpl. etransitivity; [|exact Hp].
        etransitivity; [apply Permutation_middle|].
        apply Permutation_app_head, clone_ids_other.
      * simpl. now rewrite Hf.
Qed.

(** On a consistent page [message_order] returns, with the page as served
    followed by the clones of the values of the object, last first. *)
Lemma message_order_shows (base : list node) (s : page) (fuel : nat) :
  consistent base s ->
  exists yi oi gen,
    message_order (S fuel) s = Returned (with_view yi oi (base ++ gen) s)
    /\ Permutation (map node_id gen) (clone_ids yi oi)
    /\ map (fun n => Some (look n)) gen
       = map (face (yours_id s))
           (rev (obj_values
                   (to_add_of (yours_messages s) (others_messages s)))).
Proof.
  intros Hs.
  destruct (removal_restores base s Hs) as (c1 & Hr1 & Hr2).
  destruct (display_messages_faces _
              (to_add_entries (yours_messages s) (others_messages s))
              (with_view 0 0 base s))
    as (yi & oi & gen & Hd & Hp & Hf).
  simpl in Hd, Hp, Hf. rewrite app_nil_r in Hp.
  exists yi, oi, gen. split; [|split; [exact Hp|exact Hf]].
  unfold message_order, message_order_list.
  rewrite Hr1, Hr2, bubble_to_add. exact Hd.
Qed.






(** X15: a new message is filed by comparing its timestamp, not its
    sender, with this user's identifier: it joins this user's messages
    when the two numbers are equal and the other user's otherwise.  In
    the second case it is shown nevertheless on the side of its sender:
    the page then has a clone with its text, made from [your_message]
    when the sender is this user. *)
Theorem new_message_filed_by_timestamp :
  forall (base : list node) (s : page) (m : message) (fuel : nat),
    consistent base s ->
    exists s',
      on_new_message (S fuel) m s = Returned s'
      /\ (yours_messages s', others_messages s')
         = (if (Z.of_N (time m) =? yours_id s)%Z
            then (yours_messages s ++ [m], others_messages s)
            else (yours_messages s, others_messages s ++ [m]))
      /\ ((Z.of_N (time m) =? yours_id s)%Z = false ->
          exists n,
            In n (container s')
            /\ html n = text m
            /\ cloned_from n
               = Some (if (sender m =? yours_id s)%Z
                       then your_message else other_message)).
Proof.
  intros base s m fuel Hs. unfold on_new_message.
  destruct (Z.of_N (time m) =? yours_id s)%Z.
  - destruct (message_order_shows base
                (with_messages (yours_messages s ++ [m]) (others_messages s) s)
                fuel Hs) as (yi & oi & gen & Hm & _ & _).
    eexists. split; [exact Hm|]. split; [reflexivity|discriminate].
  - destruct (message_order_shows base
                (with_messages (yours_messages s) (others_messages s ++ [m]) s)
                fuel Hs) as (yi & oi & gen & Hm & _ & Hf).
    eexists. split; [exact Hm|]. split; [reflexivity|]. intros _.
    cbn [yours_messages others_messages with_messages yours_id] in Hf.
    assert (Hin : In (entry (text m) (sender m))
                    (rev (obj_values
                            (to_add_of (yours_messages s)
                               (others_messages s ++ [m]))))).
    { apply in_rev. rewrite rev_involutive.
      apply (obj_get_In_values (N_to_string (time m))).
      unfold to_add_of. rewrite add_messages_app. simpl.
      apply obj_get_set_same. }
    apply (in_map (face (yours_id s))) in Hin. rewrite <- Hf in Hin.
    apply in_map_iff in Hin. destruct Hin as (n & Hn & Hin).
    exists n. cbn [container with_view]. split; [|split].
    + apply in_app_iff. now right.
    + simpl in Hn. unfold look in Hn. now injection Hn.
    + simpl in Hn. unfold look in Hn. now injection Hn.
Qed.

End ChatSessionProofs.



(** A message of this user, whose timestamp is not this user's
    identifier, arrives on [chat_page]. *)
Lemma new_message_filed_by_timestamp_witness :
  exists s' n,
    Chat.on_new_message 1 (Chat.Message "again" 1700000009 1) chat_page
    = JS.Outcome.Returned s'
    /\ Chat.others_messages s'
       = [Chat.Message "hi" 1700000001 2; Chat.Message "again" 1700000009 1]
    /\ In n (Chat.container s')
    /\ Chat.html n = "again"
    /\ Chat.cloned_from n = Some Chat.your_message.
Proof.
  destruct (new_message_filed_by_timestamp (Chat.container chat_page)
              chat_page (Chat.Message "again" 1700000009 1) 0
              chat_page_consistent)
    as (s' & Hr & Hf & Hn).
  destruct (Hn eq_refl) as (n & Hin & Hh & Hc).
  exists s', n. split; [exact Hr|]. split; [|auto].
  simpl in Hf. now injection Hf.
Defined.

(** ** Rows and buttons *)

Section RowsAndButtons.

Local Open Scope list_scope.

Lemma map_combine_map {A B C D} (g : A -> B) (f : B * C -> D) l (l' : list C) :
  map f (combine (map g l) l')
  = map (fun p => f (g (fst p), snd p)) (combine l l').
Proof.
  revert l'; induction l as [|a l IH]; intros [|c l']; simpl; auto.
  now rewrite IH.
Qed.

Lemma leaderboard_from (users : list (string * Z)) :
  forall k rows,
    fold_left
      (fun s user =>
         let x' := Home.x s + 1 in
         {| Home.x := x';
            Home.leaderboard :=
              Home.leaderboard s
              ++ [{| Home.number := ("#" ++ JS.nat_to_string x')%string;
                     Home.username := fst user;
                     Home.points := JS.Z_to_string (snd user) |}] |})
      users {| Home.x := k; Home.leaderboard := rows |}
    = {| Home.x := k + List.length users;
         Home.leaderboard :=
           rows
           ++ map (fun p : nat * (string * Z) =>
                     {| Home.number := ("#" ++ JS.nat_to_string (fst p))%string;
                        Home.username := fst (snd p);
                        Home.points := JS.Z_to_string (snd (snd p)) |})
                (combine (seq (k + 1) (List.length users)) users) |}.
Proof.
  induction users as [|u users IH]; intros k rows; simpl.
  - now rewrite Nat.add_0_r, app_nil_r.
  - rewrite IH. f_equal; [lia|]. rewrite <- app_assoc. simpl.
    replace (k + 1 + 1) with (S (k + 1)) by lia. reflexivity.
Qed.

(** X16: a [leaderboard] message adds one row for each user of its
    payload, in the order of the payload, after the rows that are there;
    the rows are numbered [#1], [#2], ... from 1 again at every message,
    and show the name and the points of the user. *)
Theorem leaderboard_rows_numbered_from_one :
  forall (users : list (string * Z)) (s : Home.page),
    Home.leaderboard (Home.on_leaderboard users s)
    = Home.leaderboard s
      ++ map (fun p : nat * (string * Z) =>
                {| Home.number := ("#" ++ JS.nat_to_string (fst p))%string;
                   Home.username := fst (snd p);
                   Home.points := JS.Z_to_string (snd (snd p)) |})
           (combine (seq 1 (List.length users)) users)
    /\ Home.x (Home.on_leaderboard users s) = List.length users.
Proof.
  intros users s. unfold Home.on_leaderboard.
  rewrite leaderboard_from. split; reflexivity.
Qed.

Lemma found_users_from (users : list (Z * string)) :
  forall k rows,
    fold_left
      (fun s user =>
         let x' := (Profile.x s + 1)%Z in
         {| Profile.x := x';
            Profile.request_results_list :=
              Profile.request_results_list s
              ++ [{| Profile.result_id :=
                       ("request_result_" ++ JS.Z_to_string x')%string;
                     Profile.display := "block";
                     Profile.name_html := snd user;
                     Profile.button_id :=
                       ("final_req_" ++ JS.Z_to_string (fst user))%string |}]
         |})
      users {| Profile.x := k; Profile.request_results_list := rows |}
    = {| Profile.x := (k + Z.of_nat (List.length users))%Z;
         Profile.request_results_list :=
           rows
           ++ map (fun p : nat * (Z * string) =>
                     {| Profile.result_id :=
                          ("request_result_"
                           ++ JS.Z_to_string (k + Z.of_nat (fst p)))%string;
                        Profile.display := "block";
                        Profile.name_html := snd (snd p);
                        Profile.button_id :=
                          ("final_req_"
                           ++ JS.Z_to_string (fst (snd p)))%string |})
                (combine (seq 1 (List.length users)) users) |}.
Proof.
  induction users as [|u users IH]; intros k rows.
  - simpl. now rewrite Z.add_0_r, app_nil_r.
  - cbn [fold_left List.length Profile.x Profile.request_results_list].
    rewrite IH. f_equal; [lia|]. rewrite <- app_assoc. f_equal.
    cbn [seq combine map fst snd app].
    rewrite <- (seq_shift _ 1), map_combine_map.
    f_equal. apply map_ext. intros [j p]. cbn [fst snd].
    now replace (k + 1 + Z.of_nat j)%Z with (k + Z.of_nat (S j))%Z by lia.
Qed.

(** X17: a [found_users] message with a non-empty payload adds one row
    for each user found, in order, after the rows that are there; the
    rows get the ids [request_result_0], [request_result_1], ... from 0
    again at every message, show the name of the user and give the id
    [final_req_] followed by the identifier of the user to their button.
    An empty payload changes nothing. *)
Theorem found_users_rows_numbered_from_zero :
  forall (users : list (Z * string)) (s : Profile.page),
    Profile.request_results_list (Profile.on_found_users users s)
    = Profile.request_results_list s
      ++ map (fun p : nat * (Z * string) =>
                {| Profile.result_id :=
                     ("request_result_"
                      ++ JS.Z_to_string (Z.of_nat (fst p)))%string;
                   Profile.display := "block";
                   Profile.name_html := snd (snd p);
                   Profile.button_id :=
                     ("final_req_" ++ JS.Z_to_string (fst (snd p)))%string |})
           (combine (seq 0 (List.length users)) users)
    /\ Profile.x (Profile.on_found_users users s)
       = match users with
         | [] => Profile.x s
         | _ :: _ => (Z.of_nat (List.length users) - 1)%Z
         end.
Proof.
  intros users s. unfold Profile.on_found_users.
  destruct users as [|u users].
  - destruct s. simpl. now rewrite app_nil_r.
  - change (negb (List.length (u :: users) =? 0)%nat) with true. cbv iota.
    rewrite found_users_from. cbn [Profile.x Profile.request_results_list].
    split; [|lia]. f_equal.
    rewrite <- (seq_shift _ 0), map_combine_map.
    apply map_ext. intros [j p]. cbn [fst snd]. f_equal.
    now replace (-1 + Z.of_nat (S j))%Z with (Z.of_nat j) by lia.
Qed.

Lemma replace_first_unfold pat s :
  Friends.replace_first pat s
  = if String.prefix pat s then Friends.skip (String.length pat) s
    else match s with
         | EmptyString => EmptyString
         | String c r => String c (Friends.replace_first pat r)
         end.
Proof. destruct s; reflexivity. Qed.

Lemma prefix_app pat u : String.prefix pat (pat ++ u)%string = true.
Proof.
  induction pat as [|c pat IH]; simpl; [now destruct u|].
  destruct (Ascii.ascii_dec c c); [exact IH|congruence].
Qed.

Lemma skip_app pat u : Friends.skip (String.length pat) (pat ++ u)%string = u.
Proof. induction pat as [|c pat IH]; simpl; auto. Qed.

(** Taking the first occurrence of a prefix out gives the rest back. *)
Lemma replace_first_prefix pat u :
  Friends.replace_first pat (pat ++ u)%string = u.
Proof. now rewrite replace_first_unfold, prefix_app, skip_app. Qed.

(** X18: the ids of the buttons of the friends pages are decoded as they
    were made: a click on a button whose id is [final_req_], [accept_],
    [reject_] or [friend_] followed by a text sends a message that carries
    exactly this text, whatever the text is, even when it contains the
    prefix again; what is sent for a user found is a string, not a
    number. *)
Theorem button_ids_decode_to_their_user :
  forall (u : string) (p : Friends.page),
    Friends.sent (Friends.after (Friends.final_request ("final_req_" ++ u) p))
    = Socket.Emit "message"
        [("EventType", Socket.FStr "request_user");
         ("UserID", Socket.FStr u)] :: Friends.sent p
    /\ Friends.sent (Friends.accept_user ("accept_" ++ u) p)
       = Socket.Emit "message"
           [("EventType", Socket.FStr "accept"); ("UserID", Socket.FStr u)]
         :: Friends.sent p
    /\ Friends.sent (Friends.reject_user ("reject_" ++ u) p)
       = Socket.Emit "message"
           [("EventType", Socket.FStr "reject"); ("UserID", Socket.FStr u)]
         :: Friends.sent p
    /\ Friends.sent (Friends.view_user ("friend_" ++ u) p)
       = Socket.Emit "message"
           [("EventType", Socket.FStr "view_other_profile");
            ("OtherUsername", Socket.FStr u)] :: Friends.sent p.
Proof.
  intros u p. repeat split.
  - unfold Friends.final_request. cbv zeta.
    rewrite (replace_first_prefix "final_req_" u).
    destruct (Friends.mark_requested _ _); reflexivity.
  - unfold Friends.accept_user.
    now rewrite (replace_first_prefix "accept_" u).
  - unfold Friends.reject_user.
    now rewrite (replace_first_prefix "reject_" u).
  - unfold Friends.view_user.
    now rewrite (replace_first_prefix "friend_" u).
Qed.

Lemma mark_requested_first id (pre : list Friends.button) b post :
  Friends.button_id b = id ->
  (forall c, In c pre -> Friends.button_id c <> id) ->
  Friends.mark_requested id (pre ++ b :: post)
  = Some (pre ++ Friends.Button id "Requested" false :: post).
Proof.
  intros Hb. induction pre as [|c pre IH]; intros Hpre; simpl.
  - rewrite Hb, String.eqb_refl. reflexivity.
  - destruct (String.eqb_spec (Friends.button_id c) id) as [He|_].
    + exfalso. apply (Hpre c); [now left|exact He].
    + rewrite IH; [reflexivity|]. intros d Hd. apply Hpre. now right.
Qed.

(** X19: [final_request] writes to the first element of the page that
    carries the id it is given: this element gets the value [Requested]
    and loses its click handler, and no other element changes; so of two
    buttons with one id, as two searches that find the same user leave
    them, only the first is ever marked, whichever was clicked.  Without
    such an element the message is sent and the function throws. *)
Theorem final_request_marks_first_button :
  forall (id : string) (p : Friends.page)
         (pre : list Friends.button) (b : Friends.button)
         (post : list Friends.button),
    Friends.buttons p = pre ++ b :: post ->
    Friends.button_id b = id ->
    (forall c, In c pre -> Friends.button_id c <> id) ->
    Friends.returned (Friends.final_request id p) = true
    /\ Friends.buttons (Friends.after (Friends.final_request id p))
       = pre ++ Friends.Button id "Requested" false :: post
    /\ forall q : Friends.page,
         (forall c, In c (Friends.buttons q) -> Friends.button_id c <> id) ->
         Friends.returned (Friends.final_request id q) = false
         /\ Friends.buttons (Friends.after (Friends.final_request id q))
            = Friends.buttons q
         /\ List.length (Friends.sent
                           (Friends.after (Friends.final_request id q)))
            = S (List.length (Friends.sent q)).
Proof.
  intros id p pre b post Hp Hb Hpre.
  unfold Friends.final_request. cbv zeta. cbn [Friends.buttons Friends.emit].
  rewrite Hp, (mark_requested_first id pre b post Hb Hpre).
  split; [reflexivity|split; [reflexivity|]].
  intros q Hq.
  assert (Hn : Friends.mark_requested id (Friends.buttons q) = None).
  { induction (Friends.buttons q) as [|c l IH]; simpl; [reflexivity|].
    destruct (String.eqb_spec (Friends.button_id c) id) as [He|_].
    - exfalso. apply (Hq c); [now left|exact He].
    - rewrite IH; [reflexivity|]. intros d Hd. apply Hq. now right. }
  rewrite Hn. repeat split.
Qed.

End RowsAndButtons.

(** The same user was found by two searches; the second copy of the
    button is clicked. *)
Lemma final_request_marks_first_button_witness :
  let p := {| Friends.buttons :=
                [Friends.Button "final_req_4" "Request" true;
                 Friends.Button "final_req_5" "Request" true;
                 Friends.Button "final_req_4" "Request" true];
              Friends.sent := [] |} in
  Friends.buttons (Friends.after (Friends.final_request "final_req_4" p))
  = [Friends.Button "final_req_4" "Requested" false;
     Friends.Button "final_req_5" "Request" true;
     Friends.Button "final_req_4" "Request" true].
Proof.
  cbv zeta.
  exact (proj1 (proj2 (final_request_marks_first_button "final_req_4"
                         {| Friends.buttons :=
                              [Friends.Button "final_req_4" "Request" true;
                               Friends.Button "final_req_5" "Request" true;
                               Friends.Button "final_req_4" "Request" true];
                            Friends.sent := [] |}
                         [] (Friends.Button "final_req_4" "Request" true)
                         [Friends.Button "final_req_5" "Request" true;
                          Friends.Button "final_req_4" "Request" true]
                         eq_refl eq_refl
                         (fun c (H : In c []) => match H with end)))).
Defined.

(** ** The boxes of the dictionary results *)

Section DictionaryBoxes.

Import JS JS.Outcome Dictionary.
Local Open Scope list_scope.

Lemma upd_length {A : Type} (f : A -> A) (l : list A) i :
  List.length (upd i f l) = List.length l.
Proof.
  revert i; induction l as [|a l IH]; intros [|i]; simpl; auto.
Qed.

Lemma on_child_upd i f (ps : list part) :
  i < List.length ps -> on_child i f ps = Some (upd i f ps).
Proof.
  revert i; induction ps as [|p ps IH]; intros i Hi; simpl in Hi; [lia|].
  destruct i as [|i]; simpl; [reflexivity|].
  rewrite IH by lia. reflexivity.
Qed.

Lemma clone_box_cloned x e (t : box) :
  4 <= List.length (parts t) ->
  clone_box x e t
  = Returned {| box_id := result_id x; display := "block";
                parts := cloned_parts x e t |}.
Proof.
  intros Ht. unfold clone_box, cloned_parts. cbv zeta.
  rewrite on_child_upd by lia. cbn [bind defined].
  rewrite on_child_upd by (rewrite upd_length; lia). cbn [bind defined].
  rewrite on_child_upd by (rewrite !upd_length; lia). cbn [bind defined].
  rewrite on_child_upd by (rewrite !upd_length; lia). cbn [bind defined].
  reflexivity.
Qed.

(** The loop over the readings or the meanings appends one part for each
    item to the last box, with the text of the item. *)
Lemma add_items_shown kind x items :
  forall y (pre : list box) (b : box),
    (forall z, In z pre -> box_id z <> result_id x) ->
    box_id b = result_id x ->
    has_part (kind ++ nat_to_string x) b ->
    exists added,
      add_items kind x y items (pre ++ [b])
      = Returned (pre ++ [{| box_id := box_id b; display := display b;
                             parts := parts b ++ added |}])
      /\ items_shown kind x y items added.
Proof.
  induction items as [|item items IH]; intros y pre b Hpre Hb Hp; simpl.
  - exists []. rewrite app_nil_r. destruct b. split; [reflexivity|].
    split; reflexivity.
  - destruct (find_part_found (kind ++ nat_to_string x)%string (pre ++ [b]))
      as (n & Hn).
    { exists b. rewrite in_app_iff; simpl; auto. }
    rewrite Hn. simpl. fold (result_id x).
    rewrite (append_to_box_last _ _ pre b Hpre Hb). simpl.
    match goal with |- context [add_items _ _ _ _ (pre ++ [?c])] =>
      destruct (IH (y + 1) pre c Hpre Hb) as (added & Hr & Ht & Hi) end.
    { now apply append_keeps_parts. }
    rewrite Hr. cbn [box_id display parts]. eexists (_ :: added).
    split; [rewrite <- app_assoc; reflexivity|].
    split; cbn [map html part_id set_html set_id List.length seq].
    + now rewrite Ht.
    + rewrite Hi. rewrite <- Ht, !length_map.
      replace (S (y + 1)) with (y + 1 + 1) by lia. reflexivity.
Qed.

(** The body of the loop over the entries adds the box of the entry. *)
Lemma add_entry_box x e (t : box) (pre : list box) :
  4 <= List.length (parts t) ->
  (forall z, In z pre -> box_id z <> result_id x) ->
  exists b,
    add_entry x e t pre = Returned (pre ++ [b]) /\ result_box t x e b.
Proof.
  intros Ht Hpre. unfold add_entry. cbv zeta.
  destruct (clone_box_parts x e t Ht) as (c & Hc & Hid & Hs & Hm).
  rewrite Hc. rewrite (clone_box_cloned x e t Ht) in Hc.
  injection Hc as Hc.
  cbn [bind]. fold (result_id x).
  rewrite (append_to_box_last _ _ pre c Hpre Hid). cbn [bind defined].
  match goal with |- context [add_items _ _ _ _ (pre ++ [?c1])] =>
    destruct (add_items_shown "secondary_" x (Readings e) 0 pre c1 Hpre Hid)
      as (readings & -> & Hr) end.
  { now apply append_keeps_parts. }
  cbn [bind].
  match goal with |- context [append_to_box _ _ (pre ++ [?b1])] =>
    rewrite (append_to_box_last _ _ pre b1 Hpre Hid) end.
  cbn [bind defined].
  match goal with |- context [add_items _ _ _ _ (pre ++ [?c2])] =>
    destruct (add_items_shown "meaning_" x (Meanings e) 0 pre c2 Hpre Hid)
      as (meanings & -> & Hmn) end.
  { cbn [box_id display parts].
    destruct Hm as (q & Hq & Hqid). exists q. cbn [parts].
    rewrite !in_app_iff. auto. }
  eexists. split; [reflexivity|]. cbn [box_id display parts].
  subst c. cbn [box_id display parts].
  split; [reflexivity|split; [reflexivity|]].
  exists readings, meanings.
  split; [|split; assumption].
  rewrite <- !app_assoc. reflexivity.
Qed.

Lemma add_entries_boxes (t : box) (base : list box) entries :
  static_ids base = true ->
  4 <= List.length (parts t) ->
  forall x boxes,
    map box_id boxes = map result_id (seq 1 x) ->
    exists news,
      add_entries x entries
        {| current_index := x; template := t;
           search_results := base ++ boxes |}
      = Returned {| current_index := x + List.length entries; template := t;
                    search_results := base ++ boxes ++ news |}
      /\ Forall2 (fun xe b => result_box t (fst xe) (snd xe) b)
           (combine (seq (x + 1) (List.length entries)) entries) news.
Proof.
  intros Hs Ht. induction entries as [|e entries IH]; intros x boxes Hb.
  - exists []. simpl. rewrite Nat.add_0_r, app_nil_r.
    split; [reflexivity|constructor].
  - cbn [add_entries template search_results]. cbv zeta.
    destruct (add_entry_box (x + 1) e t (base ++ boxes) Ht)
      as (b & -> & Hbox).
    { intros z Hz. apply in_app_iff in Hz. destruct Hz as [Hz|Hz].
      - now apply (result_id_not_static base).
      - intros He. assert (Hin : In (result_id (x + 1)) (map box_id boxes)).
        { rewrite <- He. now apply in_map. }
        rewrite Hb in Hin. apply in_map_iff in Hin.
        destruct Hin as (k & Hk & Hin). apply result_id_inj in Hk.
        apply in_seq in Hin. lia. }
    cbn [bind]. rewrite <- app_assoc.
    destruct (IH (x + 1) (boxes ++ [b])) as (news & Hr & Hf).
    { rewrite map_app, Hb. simpl. rewrite (proj1 Hbox).
      replace (x + 1) with (S x) by lia.
      rewrite (seq_S x 1), map_app. reflexivity. }
    exists (b :: news). rewrite Hr. split.
    + cbn [List.length]. rewrite <- app_assoc.
      replace (x + 1 + List.length entries)
        with (x + S (List.length entries)) by lia.
      reflexivity.
    + cbn [List.length seq combine]. constructor; [exact Hbox|].
      replace (S (x + 1)) with (x + 1 + 1) by lia. exact Hf.
Qed.

(** X20: a [dictionary_results] message leaves, after the page as served,
    one box for each result of its payload, in order; box number [x] has
    the id [search_result_]x, is displayed as a block and holds the
    children of the template, the second with the primary reading as its
    text and the ids [primary_]x, [secondary_]x and [meaning_]x on the
    second to fourth, followed by the heading [Other Readings:], one
    element for each reading with the reading as its text, the heading
    [Meanings:] and one element for each meaning; the counter is the
    number of results. *)
Theorem dictionary_results_boxes :
  forall (base : list box) (s : page) (entries : list entry),
    tidy base s ->
    4 <= List.length (parts (template s)) ->
    exists boxes,
      on_dictionary_results entries s
      = Returned {| current_index := List.length entries;
                    template := template s;
                    search_results := base ++ boxes |}
      /\ Forall2 (fun xe b => result_box (template s) (fst xe) (snd xe) b)
           (combine (seq 1 (List.length entries)) entries) boxes.
Proof.
  intros base s entries (Hs & old & Hr & Hb) Ht.
  destruct (add_entries_boxes (template s) base entries Hs Ht 0 [] eq_refl)
    as (boxes & Hadd & Hf).
  rewrite app_nil_r in Hadd.
  exists boxes. unfold on_dictionary_results.
  rewrite Hr, (remove_loop_boxes base Hs _ _ old Hb). cbn [bind].
  split; [exact Hadd|exact Hf].
Qed.

End DictionaryBoxes.

(** Two results arrive on a page that shows the result of an earlier
    search. *)
Lemma dictionary_results_boxes_witness :
  exists boxes,
    Dictionary.on_dictionary_results
      [Dictionary.Entry "neko" ["byou"] ["cat"];
       Dictionary.Entry "inu" [] ["dog"; "hound"]] searched_page
    = JS.Outcome.Returned
        {| Dictionary.current_index := 2;
           Dictionary.template := result_template;
           Dictionary.search_results := ([result_template] ++ boxes)%list |}
    /\ List.length boxes = 2.
Proof.
  destruct (dictionary_results_boxes [result_template] searched_page
              [Dictionary.Entry "neko" ["byou"] ["cat"];
               Dictionary.Entry "inu" [] ["dog"; "hound"]]
              searched_page_tidy (le_n 4))
    as (boxes & Hr & Hf).
  exists boxes. split; [exact Hr|].
  apply Forall2_length in Hf. simpl in Hf. now rewrite <- Hf.
Defined.

(** ** A whole game of matching *)

Section MatchingWholeGame.

Import JS JS.Outcome Matching.
Local Open Scope list_scope.

Lemma new_entries_refs r l : map ref (new_entries r l) = seq r (List.length l).
Proof.
  revert r; induction l as [|p l IH]; intros r; simpl; [reflexivity|].
  now rewrite IH.
Qed.

Lemma new_entries_length r l :
  List.length (new_entries r l) = List.length l.
Proof.
  rewrite <- (length_map ref), new_entries_refs. apply length_seq.
Qed.

Lemma new_entries_faces r l : map face (new_entries r l) = map fst l.
Proof.
  revert r; induction l as [|p l IH]; intros r; simpl; [reflexivity|].
  now rewrite IH.
Qed.

Lemma new_cards_ids cls x l :
  map card_id (new_cards cls x l)
  = map card_id_of (seq (x + 1) (List.length l))
  /\ map hold_id (new_cards cls x l)
     = map hold_id_of (seq (x + 1) (List.length l))
  /\ map face_html (new_cards cls x l) = map face l
  /\ Forall (fun c => className c = cls /\ onclick c = true)
       (new_cards cls x l).
Proof.
  revert x; induction l as [|e l IH]; intros x; simpl.
  - repeat split; constructor.
  - destruct (IH (x + 1)) as (H1 & H2 & H3 & H4).
    replace (S (x + 1)) with (x + 1 + 1) by lia.
    rewrite H1, H2, H3. repeat split. constructor; auto.
Qed.

(** X21: a [character_list] message that arrives on a board with nothing
    on it lays the deck out: one card for each element of the list, in
    order, with the ids [card_hold_1], [card_1], [card_hold_2], ...,
    showing the first component of the element, with the class of the
    template and a click handler; the entries of the deck are new
    objects, different from each other; and a deck of at most ten
    elements can be played. *)
Theorem character_list_lays_deck :
  forall (list : list (string * string)) (s : page),
    cleared s ->
    let s' := on_character_list list s in
    laid s'
    /\ List.length (matching s') = List.length list
    /\ map face_html (matching s') = map fst list
    /\ map (fun e => (face e, sound e)) (characters s') = list
    /\ Forall (fun c => className c = template_class s /\ onclick c = true)
         (matching s')
    /\ (List.length list <= 10 -> playing s').
Proof.
  intros list s (Hm & Hsel & Hna & Hfo). cbv zeta.
  destruct (new_cards_ids (template_class s) 0
              (new_entries (next_ref s) list)) as (H1 & H2 & H3 & H4).
  rewrite new_entries_length in H1, H2.
  assert (Hl : laid (on_character_list list s)).
  { split; cbn [characters matching on_character_list]; rewrite ?Hm;
      rewrite ?new_entries_length; cbn [app]; auto.
    rewrite new_entries_refs. apply seq_NoDup. }
  split; [exact Hl|].
  cbn [characters matching on_character_list]. rewrite Hm. cbn [app].
  split; [|split; [|split; [|split; [exact H4|]]]].
  - rewrite <- (length_map card_id), H1, length_map, length_seq.
    reflexivity.
  - rewrite H3. apply new_entries_faces.
  - generalize (next_ref s). clear.
    induction list as [|[f k] list IH]; intros r; simpl; [reflexivity|].
    now rewrite IH.
  - intros Hten. split; [exact Hl|].
    cbn [characters found selected not_allowed on_character_list].
    rewrite new_entries_length. split; [exact Hten|].
    exists [], []. rewrite Hfo, Hsel, Hna. simpl.
    repeat split; auto; try lia; try constructor.
    intros x [].
Qed.

Lemma indexOf_absent (e : entry) (es : list entry) :
  indexOf (Some e) (map Some es) = None <-> ~ In (ref e) (map ref es).
Proof.
  induction es as [|c es IH]; simpl; [tauto|].
  destruct (Nat.eqb_spec (ref c) (ref e)) as [He|Hne].
  - split; [discriminate|]. intros H. exfalso. apply H. now left.
  - destruct (indexOf (Some e) (map Some es)).
    + split; [discriminate|]. intros H. exfalso.
      assert (Hs : Some n = None -> False) by discriminate.
      apply Hs, IH. tauto.
    + split; [|reflexivity]. intros _ [H|H]; [congruence|].
      now apply (proj1 IH).
Qed.

Lemma indexOf_last_entry (fs : list entry) (a : entry) :
  ~ In (ref a) (map ref fs) ->
  indexOf (Some a) (map Some (fs ++ [a])) = Some (List.length fs).
Proof.
  intros H. rewrite map_app. simpl.
  rewrite <- (length_map (@Some entry) fs).
  apply indexOf_app_last. now apply indexOf_absent.
Qed.

(** Rewrites the writes of [check] to the cards of a pair, on a deck of
    [n] cards. *)
Ltac put_cards n :=
  repeat (rewrite (on_card_at _ _ 1 n) by (rewrite ?upd_map; auto);
          cbn [defined bind]).

(** The second card has the sound of the first and the deck goes on. *)
Lemma pair_matched (s : page) ia ib k (a b : entry) :
  laid s ->
  selected s = [Some a] ->
  nth_error (characters s) ia = Some a ->
  nth_error (characters s) ib = Some b ->
  indexOf (Some a) (not_allowed s) = Some k ->
  indexOf (Some b) (not_allowed s) = None ->
  sound a = sound b ->
  List.length (found s) + 2 <> 10 ->
  exists s',
    this_one (ib + 1) s = Returned s'
    /\ selected s' = []
    /\ found s' = found s ++ [Some a; Some b]
    /\ points s' = points s + 2
    /\ not_allowed s' = not_allowed s ++ [Some b]
    /\ characters s' = characters s
    /\ matching s' = upd ib matched (upd ia matched (matching s))
    /\ sent s' = sent s.
Proof.
  intros Hl Hsel Ha Hb Hka Hnb Hs Hf.
  pose proof (this_one_second s ib a b Hl Hsel Hb Hnb) as Hthis.
  assert (Hia : ia < List.length (characters s))
    by (apply nth_error_Some; congruence).
  assert (Hib : ib < List.length (characters s))
    by (apply nth_error_Some; congruence).
  pose proof (laid_refs s Hl) as Hrefs.
  pose proof (laid_cards s Hl) as Hcards.
  clear Hl. rewrite Hthis. clear Hthis.
  destruct s as [cs pts sel na fo m rh ph od tc nr se].
  cbn [characters selected not_allowed found matching points sent] in *.
  subst sel. unfold check.
  cbn [selected with_lists sound_of bind].
  apply String.eqb_eq in Hs. rewrite Hs.
  cbn [matching with_lists with_result with_matching characters
         selected not_allowed found points sent result_html points_html
         overlay_display template_class next_ref].
  rewrite !(card_of_position _ ia a), !(card_of_position _ ib b); auto.
  put_cards (List.length cs).
  rewrite card_updates_matched.
  unfold finish.
  cbn -[upd matched released skipn remove_holders Nat.eqb List.length
          Nat.add].
  rewrite length_app. cbn [List.length].
  destruct (Nat.eqb_spec (List.length fo + 2) 10) as [He|_]; [lia|].
  eexists. split; [reflexivity|]. cbn. repeat split; reflexivity.
Qed.

(** The second card has the sound of the first and the deck is done. *)
Lemma pair_finished (s : page) ia ib k (a b : entry) :
  laid s ->
  selected s = [Some a] ->
  nth_error (characters s) ia = Some a ->
  nth_error (characters s) ib = Some b ->
  indexOf (Some a) (not_allowed s) = Some k ->
  indexOf (Some b) (not_allowed s) = None ->
  sound a = sound b ->
  List.length (found s) + 2 = 10 ->
  10 <= List.length (characters s) ->
  exists s',
    this_one (ib + 1) s = Returned s'
    /\ selected s' = []
    /\ found s' = []
    /\ points s' = points s + 2
    /\ not_allowed s' = []
    /\ characters s' = []
    /\ matching s' = skipn 10 (upd ib matched (upd ia matched (matching s)))
    /\ sent s'
       = Socket.Emit "message" [("EventType", Socket.FStr "match_connect")]
         :: Socket.Emit "message" [("EventType", Socket.FStr "done_matches")]
         :: sent s.
Proof.
  intros Hl Hsel Ha Hb Hka Hnb Hs Hf Hten.
  pose proof (this_one_second s ib a b Hl Hsel Hb Hnb) as Hthis.
  assert (Hia : ia < List.length (characters s))
    by (apply nth_error_Some; congruence).
  assert (Hib : ib < List.length (characters s))
    by (apply nth_error_Some; congruence).
  pose proof (laid_refs s Hl) as Hrefs.
  pose proof (laid_cards s Hl) as Hcards.
  pose proof (laid_holds s Hl) as Hholds.
  clear Hl. rewrite Hthis. clear Hthis.
  destruct s as [cs pts sel na fo m rh ph od tc nr se].
  cbn [characters selected not_allowed found matching points sent] in *.
  subst sel. unfold check.
  cbn [selected with_lists sound_of bind].
  apply String.eqb_eq in Hs. rewrite Hs.
  cbn [matching with_lists with_result with_matching characters
         selected not_allowed found points sent result_html points_html
         overlay_display template_class next_ref].
  rewrite !(card_of_position _ ia a), !(card_of_position _ ib b); auto.
  put_cards (List.length cs).
  rewrite card_updates_matched.
  unfold finish.
  cbn -[upd matched released skipn remove_holders Nat.eqb List.length
          Nat.add].
  rewrite length_app. cbn [List.length].
  destruct (Nat.eqb_spec (List.length fo + 2) 10) as [_|Hne]; [|lia].
  cbn -[upd matched released skipn remove_holders Nat.eqb List.length
          Nat.add].
  rewrite (remove_holders_first _ 1 10 (List.length cs)); auto.
  + eexists. split; [reflexivity|]. cbn. repeat split; reflexivity.
  + rewrite !upd_map; auto.
Qed.

(** The second card has another sound than the first. *)
Lemma pair_released (s : page) ia ib k (a b : entry) :
  laid s ->
  selected s = [Some a] ->
  nth_error (characters s) ia = Some a ->
  nth_error (characters s) ib = Some b ->
  indexOf (Some a) (not_allowed s) = Some k ->
  indexOf (Some b) (not_allowed s) = None ->
  sound a <> sound b ->
  List.length (found s) <> 10 ->
  exists s',
    this_one (ib + 1) s = Returned s'
    /\ selected s' = []
    /\ found s' = found s
    /\ points s' = points s
    /\ not_allowed s' = remove_at k (not_allowed s)
    /\ characters s' = characters s
    /\ matching s' = upd ib released (upd ia released (matching s))
    /\ sent s' = sent s.
Proof.
  intros Hl Hsel Ha Hb Hka Hnb Hs Hf.
  pose proof (this_one_second s ib a b Hl Hsel Hb Hnb) as Hthis.
  assert (Hia : ia < List.length (characters s))
    by (apply nth_error_Some; congruence).
  assert (Hib : ib < List.length (characters s))
    by (apply nth_error_Some; congruence).
  pose proof (laid_refs s Hl) as Hrefs.
  pose proof (laid_cards s Hl) as Hcards.
  clear Hl. rewrite Hthis. clear Hthis.
  destruct s as [cs pts sel na fo m rh ph od tc nr se].
  cbn [characters selected not_allowed found matching points sent] in *.
  subst sel. unfold check.
  cbn [selected with_lists sound_of bind].
  apply String.eqb_neq in Hs. rewrite Hs.
  cbn [matching with_lists with_result with_matching characters
         selected not_allowed found points sent result_html points_html
         overlay_display template_class next_ref].
  rewrite !(card_of_position _ ia a), !(card_of_position _ ib b); auto.
  put_cards (List.length cs).
  rewrite card_updates_released.
  unfold finish.
  cbn -[upd matched released skipn remove_holders Nat.eqb List.length
          Nat.add remove_at splice1 indexOf].
  pose proof (unlock_both (Some a) (Some b) na k Hka Hnb) as Hun.
  cbv zeta in Hun. unfold slot in *. rewrite Hun.
  destruct (Nat.eqb_spec (List.length fo) 10) as [He|_]; [lia|].
  eexists. split; [reflexivity|]. cbn. repeat split; reflexivity.
Qed.

(** The first card of a pair is chosen. *)
Lemma first_card_selected (s : page) ib (b : entry) :
  laid s ->
  selected s = [] ->
  nth_error (characters s) ib = Some b ->
  indexOf (Some b) (not_allowed s) = None ->
  exists s',
    this_one (ib + 1) s = Returned s'
    /\ selected s' = [Some b]
    /\ found s' = found s
    /\ points s' = points s
    /\ not_allowed s' = not_allowed s ++ [Some b]
    /\ characters s' = characters s
    /\ matching s' = upd ib (set_class "disabled_selected") (matching s)
    /\ sent s' = sent s.
Proof.
  intros Hl Hsel Hb Hnb. unfold this_one.
  replace (ib + 1) with (S ib) by lia. rewrite Hb, Hnb.
  cbn [matching with_lists].
  change ("card_" ++ nat_to_string (S ib))%string with (card_id_of (1 + ib)).
  rewrite (on_card_at _ _ 1 (List.length (characters s)) ib (laid_cards s Hl))
    by (apply nth_error_Some; congruence).
  cbn [defined bind]. rewrite Hsel.
  eexists. split; [reflexivity|]. repeat split.
Qed.

Lemma laid_after (s s' : page) :
  laid s ->
  characters s' = characters s ->
  map card_id (matching s') = map card_id (matching s) ->
  map hold_id (matching s') = map hold_id (matching s) ->
  laid s'.
Proof.
  intros [H1 H2 H3] Hc Hm Hh. split; rewrite Hc; congruence.
Qed.

(** A card that is found in the deck sits at the position of its id. *)
Lemma find_card (m : list card) (x n : nat) (c : card) :
  map card_id m = map card_id_of (seq 1 n) ->
  find (fun c => card_id c =? card_id_of x) m = Some c ->
  exists i, x = i + 1 /\ i < n.
Proof.
  intros Hm Hf. apply find_some in Hf. destruct Hf as (Hin & Hid).
  apply String.eqb_eq in Hid.
  apply (in_map card_id) in Hin. rewrite Hm, Hid in Hin.
  apply in_map_iff in Hin. destruct Hin as (j & Hj & Hin).
  apply card_id_of_inj in Hj. apply in_seq in Hin.
  exists (x - 1). lia.
Qed.

Lemma nth_error_entry (cs : list entry) (a : entry) :
  In a cs -> exists i, nth_error cs i = Some a.
Proof. intros H. apply In_nth_error in H. exact H. Qed.

Lemma playing_click (x : nat) (s : page) :
  playing s ->
  exists s',
    click x s = Returned s'
    /\ playing s'
    /\ points s' + score s = points s + score s'.
Proof.
  intros Hp. unfold click.
  change ("card_" ++ nat_to_string x)%string with (card_id_of x).
  destruct (find _ (matching s)) as [c|] eqn:Hfind;
    [|exists s; auto].
  destruct (onclick c); [|exists s; auto].
  destruct Hp as (Hl & Hten & fs & ss & Hfo & Hsel & Hna & Hss & Hnd & Hin
                  & Hfs).
  destruct (find_card _ x _ c (laid_cards s Hl) Hfind) as (ib & -> & Hib).
  destruct (nth_error (characters s) ib) as [b|] eqn:Hb;
    [|apply nth_error_None in Hb; lia].
  destruct (indexOf (Some b) (not_allowed s)) as [j|] eqn:Hnb.
  { exists s. split.
    - unfold this_one. replace (ib + 1) with (S ib) by lia.
      now rewrite Hb, Hnb.
    - split; [|reflexivity].
      split; [exact Hl|split; [exact Hten|]]. exists fs, ss. auto 10. }
  assert (Hfresh : ~ In (ref b) (map ref (fs ++ ss))).
  { apply indexOf_absent. now rewrite <- Hna. }
  assert (Hnd' : NoDup (map ref ((fs ++ ss) ++ [b]))).
  { rewrite map_app. simpl.
    apply (Permutation_NoDup (Permutation_cons_append _ _)).
    constructor; assumption. }
  assert (Hin' : incl ((fs ++ ss) ++ [b]) (characters s)).
  { apply incl_app; [exact Hin|]. intros y [<-|[]].
    eapply nth_error_In; eauto. }
  assert (Hlen : List.length ((fs ++ ss) ++ [b])
                 <= List.length (characters s)).
  { rewrite <- (length_map ref), <- (length_map ref (characters s)).
    apply NoDup_incl_length; [exact Hnd'|].
    intros r Hr. apply in_map_iff in Hr. destruct Hr as (y & <- & Hy).
    apply in_map, Hin', Hy. }
  destruct ss as [|a [|a' ss]]; [| |simpl in Hss; lia].
  - (* the first card of a pair *)
    destruct (first_card_selected s ib b Hl Hsel Hb Hnb)
      as (s' & Hr & S1 & S2 & S3 & S4 & S5 & S6 & S7).
    exists s'. split; [exact Hr|]. split.
    + split; [|split; [now rewrite S5|]].
      * apply (laid_after s s' Hl S5); rewrite S6; now apply upd_map.
      * exists fs, [b]. rewrite S1, S2, S4, S5, Hna, Hfo.
        rewrite app_nil_r in *. rewrite map_app.
        repeat split; auto.
    + unfold score. now rewrite S2, S3, S7.
  - (* the second card of a pair *)
    assert (Ha : exists ia, nth_error (characters s) ia = Some a).
    { apply nth_error_entry, Hin. rewrite in_app_iff. right. now left. }
    destruct Ha as (ia & Ha).
    assert (Hfa : ~ In (ref a) (map ref fs)).
    { rewrite map_app in Hnd. simpl in Hnd.
      apply NoDup_remove_2 in Hnd. now rewrite app_nil_r in Hnd. }
    assert (Hka : indexOf (Some a) (not_allowed s)
                  = Some (List.length fs)).
    { rewrite Hna. now apply indexOf_last_entry. }
    rewrite !length_app in Hlen. cbn [List.length] in Hlen.
    simpl in Hsel.
    destruct (String.eqb_spec (sound a) (sound b)) as [Hs|Hs].
    + destruct (Nat.eq_dec (List.length (found s) + 2) 10) as [Hd|Hd].
      * destruct (pair_finished s ia ib _ a b Hl Hsel Ha Hb Hka Hnb Hs Hd)
          as (s' & Hr & S1 & S2 & S3 & S4 & S5 & S6 & S7).
        { rewrite Hfo, length_map in Hd. lia. }
        exists s'. split; [exact Hr|].
        assert (Hempty : matching s' = []).
        { rewrite S6. apply skipn_all2. rewrite !upd_length.
          rewrite <- (length_map card_id), (laid_cards s Hl).
          rewrite length_map, length_seq. exact Hten. }
        split.
        -- split; [|split; [rewrite S5; simpl; lia|]].
           ++ split; rewrite ?S5, ?Hempty; simpl; auto. constructor.
           ++ exists [], []. rewrite S1, S2, S4. simpl.
              repeat split; auto; try lia; try constructor.
              intros y [].
        -- unfold score. rewrite S2, S3, S7. cbn [filter is_done].
           cbn. rewrite Hfo, length_map in *. lia.
      * destruct (pair_matched s ia ib _ a b Hl Hsel Ha Hb Hka Hnb Hs Hd)
          as (s' & Hr & S1 & S2 & S3 & S4 & S5 & S6 & S7).
        exists s'. split; [exact Hr|]. split.
        -- split; [|split; [now rewrite S5|]].
           ++ apply (laid_after s s' Hl S5); rewrite S6;
                rewrite !upd_map; auto.
           ++ exists (fs ++ [a; b]), [].
              rewrite S1, S2, S4, S5, Hna, Hfo. rewrite app_nil_r.
              rewrite Hfo, length_map in Hd.
              replace (fs ++ [a; b]) with ((fs ++ [a]) ++ [b])
                by now rewrite <- app_assoc.
              rewrite !map_app. simpl.
              repeat split; auto.
              ** now rewrite <- !app_assoc.
              ** rewrite !map_app in Hnd'. exact Hnd'.
              ** rewrite !length_app. simpl. lia.
        -- unfold score. rewrite S2, S3, S7, length_app. simpl. lia.
    + destruct (pair_released s ia ib _ a b Hl Hsel Ha Hb Hka Hnb Hs)
        as (s' & Hr & S1 & S2 & S3 & S4 & S5 & S6 & S7).
      { rewrite Hfo, length_map. lia. }
      exists s'. split; [exact Hr|]. split.
      * split; [|split; [now rewrite S5|]].
        -- apply (laid_after s s' Hl S5); rewrite S6;
             rewrite !upd_map; auto.
        -- exists fs, []. rewrite S1, S2, S4, S5, Hna, Hfo.
           rewrite app_nil_r, map_app. simpl.
           rewrite <- (length_map (@Some entry) fs).
           unfold slot. rewrite remove_at_last.
           rewrite map_app in Hnd. apply NoDup_app_remove_r in Hnd.
           repeat split; auto; try lia; try (rewrite length_map; lia).
           intros y Hy. apply Hin. rewrite in_app_iff. now left.
      * unfold score. now rewrite S2, S3, S7.
Qed.

(** X22: on a deck of at most ten cards that is being played, no click
    throws, whatever cards are clicked and in whatever order, cards that
    are locked or not on the board included; after every click at most
    one entry is selected, the locked entries are those found followed by
    the one selected, all different entries of the deck, and the points
    have grown by one for each entry found since, a finished deck
    counting for ten. *)
Theorem clicks_never_throw :
  forall (clicks : list nat) (s : page),
    playing s ->
    exists s',
      play clicks s = Returned s'
      /\ playing s'
      /\ List.length (selected s') <= 1
      /\ not_allowed s' = found s' ++ selected s'
      /\ points s' + score s = points s + score s'.
Proof.
  induction clicks as [|x clicks IH]; intros s Hp.
  - exists s. split; [reflexivity|split; [exact Hp|]].
    destruct Hp as (_ & _ & fs & ss & Hfo & Hsel & Hna & Hss & _).
    rewrite Hfo, Hsel, Hna, length_map, map_app. auto.
  - destruct (playing_click x s Hp) as (s1 & Hc & Hp1 & Hs1).
    destruct (IH s1 Hp1) as (s' & Hr & Hp' & Hl & Hn & Hs').
    exists s'. cbn [play]. rewrite Hc. cbn [bind].
    split; [exact Hr|split; [exact Hp'|split; [exact Hl|split; [exact Hn|]]]].
    lia.
Qed.

End MatchingWholeGame.

(** Five pairs are dealt on the page as the script starts on it. *)
Lemma character_list_lays_deck_witness :
  laid game_page
  /\ map Matching.face_html (Matching.matching game_page)
     = ["A"; "a"; "I"; "i"; "U"; "u"; "E"; "e"; "O"; "o"]
  /\ playing game_page.
Proof.
  destruct (character_list_lays_deck five_pairs
              (Matching.initial "match_card"))
    as (H1 & _ & H3 & _ & _ & H6).
  - repeat split.
  - split; [exact H1|split; [exact H3|]]. apply H6. apply le_n.
Defined.

Lemma game_page_playing : playing game_page.
Proof.
  split; [exact (game_page_laid [] eq_refl eq_refl eq_refl)|].
  split; [apply le_n|]. exists [], []. simpl.
  repeat split; try (intros x []); repeat constructor.
Defined.

(** A wrong pair, a right pair, a click on a matched card and a click on
    a card that is not there. *)
Lemma clicks_never_throw_witness :
  exists s',
    play [1; 3; 1; 2; 2; 11] game_page = JS.Outcome.Returned s'
    /\ List.length (Matching.selected s') <= 1
    /\ Matching.points s' + 0 = 0 + score s'.
Proof.
  destruct (clicks_never_throw [1; 3; 1; 2; 2; 11] game_page
              game_page_playing)
    as (s' & H1 & _ & H3 & _ & H5).
  exists s'. split; [exact H1|split; [exact H3|exact H5]].
Defined.

(** ** The room and the user of the collaborative page *)

Section Identity.

Import MultiDraw.
Import Socket.
Local Open Scope list_scope.

Variable toDataURL : list segment -> string.

#[local] Abbreviation step := (MultiDraw.step toDataURL).
#[local] Abbreviation run := (MultiDraw.run toDataURL).

Lemma identified_step (r u : Z) e s :
  is_info e = false -> identified r u s -> identified r u (step e s).
Proof.
  unfold identified, addressed. intros He (Hr & Ho & Hy & Hs).
  destruct s as [m sn k w ro ow [ys yr yu yrd yp] os cu cv oi doc se lo].
  cbn [room own_id yourself user_id sent] in *. subst ro ow yu.
  destruct e; try discriminate He;
    unfold step, on_connect, on_move_user, on_allowed_check,
      on_recv_img, on_other_connection, on_wait, on_result_img,
      colour_results, on_other_ready, on_recv_challenge, findcoords, erase,
      save, ready_click, leave_game;
    try destruct res; by_cases;
    unfold carries; cbn; rewrite ?Z.eqb_refl; cbn; auto.
Qed.

(** X23: the room and the identifier of this user come from the [info]
    message alone: when every message sent so far names the room [r] and
    the user [u], if it names any, then after an [info] message with [r]
    and [u] and any events other than [info], every message the page has
    sent does, whether it is a submission, a ready message, a wait or a
    leave. *)
Theorem messages_name_room_and_user_of_info :
  forall (r u : Z) (s : page) (es : list event),
    addressed r u (sent s) = true ->
    forallb (fun e => negb (is_info e)) es = true ->
    let s' := run es (on_info r u s) in
    room s' = r /\ own_id s' = u /\ addressed r u (sent s') = true.
Proof.
  intros r u s es Hs Hes.
  assert (H : forall t, identified r u t -> identified r u (run es t)).
  { induction es as [|e es IH]; intros t Ht; simpl; [exact Ht|].
    simpl in Hes. apply andb_true_iff in Hes. destruct Hes as [He Hes].
    apply IH; [exact Hes|]. apply identified_step; [|exact Ht].
    now destruct (is_info e). }
  destruct (H (on_info r u s)) as (H1 & H2 & _ & H4).
  - destruct s as [m sn k w ro ow [ys yr yu yrd yp] os cu cv oi doc se lo].
    unfold identified, addressed in *. cbn in *.
    unfold carries. cbn. rewrite !Z.eqb_refl. cbn. auto.
  - cbv zeta. auto.
Qed.

End Identity.

(** The page connects, learns who it is, and is used. *)
Lemma messages_name_room_and_user_of_info_witness :
  let s := MultiDraw.on_connect
             (MultiDraw.initial served (MultiDraw.Canvas 0 0 [])) in
  let s' := MultiDraw.run (fun _ => "data:,")
              [MultiDraw.Wait; MultiDraw.OtherConnection "ann" 7;
               MultiDraw.Mouse MultiDraw.down 1 1;
               MultiDraw.Mouse MultiDraw.up 2 2; MultiDraw.ClickSubmit;
               MultiDraw.ClickReady; MultiDraw.ClickLeave]
              (MultiDraw.on_info 3 1 s) in
  List.length (MultiDraw.sent s') = 8
  /\ addressed 3 1 (MultiDraw.sent s') = true.
Proof.
  cbv zeta. split; [reflexivity|].
  apply (messages_name_room_and_user_of_info (fun _ => "data:,") 3 1
           (MultiDraw.on_connect
              (MultiDraw.initial served (MultiDraw.Canvas 0 0 [])))
           [MultiDraw.Wait; MultiDraw.OtherConnection "ann" 7;
            MultiDraw.Mouse MultiDraw.down 1 1;
            MultiDraw.Mouse MultiDraw.up 2 2; MultiDraw.ClickSubmit;
            MultiDraw.ClickReady; MultiDraw.ClickLeave]
           eq_refl eq_refl).
Defined.

(** ** The address of a profile page *)

Section ProfileAddress.

Import ProfileConnect.
Local Open Scope list_scope.

Lemma split_not_nil s : split s <> [].
Proof.
  destruct s as [|c r]; simpl; [discriminate|].
  destruct (Ascii.eqb c "/"); [discriminate|].
  destruct (split r); discriminate.
Qed.

Lemma concat_cons sep (x : string) (l : list string) :
  l <> [] -> String.concat sep (x :: l) = (x ++ sep ++ String.concat sep l)%string.
Proof. destruct l; [congruence|reflexivity]. Qed.

Lemma concat_head sep c (h : string) (t : list string) :
  String.concat sep (String c h :: t) = String c (String.concat sep (h :: t)).
Proof. destruct t; reflexivity. Qed.

(** The segments of an address, joined with slashes, are the address. *)
Lemma split_joined s : String.concat "/" (split s) = s.
Proof.
  induction s as [|c r IH]; [reflexivity|]. cbn [split].
  destruct (Ascii.eqb_spec c "/") as [->|Hc].
  - rewrite concat_cons by apply split_not_nil. now rewrite IH.
  - destruct (split r) as [|h t] eqn:Hs; [now apply split_not_nil in Hs|].
    now rewrite concat_head, IH.
Qed.

Lemma includes_slash_head c (h : string) :
  Ascii.eqb c "/" = false ->
  includes "/" h = false -> includes "/" (String c h) = false.
Proof.
  intros Hc Hh. cbn [includes String.prefix].
  destruct (Ascii.ascii_dec "/" c) as [<-|_]; [discriminate Hc|].
  exact Hh.
Qed.

(** No segment contains a slash. *)
Lemma split_segments s : Forall (fun g => includes "/" g = false) (split s).
Proof.
  induction s as [|c r IH]; cbn [split].
  - constructor; [reflexivity|constructor].
  - destruct (Ascii.eqb c "/") eqn:Hc.
    + constructor; [reflexivity|exact IH].
    + destruct (split r) as [|h t]; [repeat constructor|].
      * now apply includes_slash_head.
      * inversion IH; subst. constructor; [|assumption].
        now apply includes_slash_head.
Qed.

(** X24: what the profile page asks for when it connects depends on its
    address alone.  On a page whose address contains [other-profile] it
    sends one message, which asks for the data of the user named by the
    last of the segments the slashes cut the address into; this segment
    contains no slash, and the segments joined by slashes are the
    address.  Otherwise, on an address that contains [change-password],
    only the check of the password change is sent; on any other address
    the settings are asked for first and then the data of the user's own
    profile. *)
Theorem connect_asks_by_address :
  forall (s : page),
    (if includes "other-profile" (href s) then
       sent (on_connect s)
       = Socket.Emit "message"
           [("EventType", Socket.FStr "get_profile_data");
            ("OtherUsername",
             Socket.FStr (last (split (href s)) EmptyString))]
         :: sent s
     else if includes "change-password" (href s) then
       sent (on_connect s)
       = Socket.Emit "message"
           [("EventType", Socket.FStr "check_pword_change")] :: sent s
     else
       sent (on_connect s)
       = Socket.Emit "message" [("EventType", Socket.FStr "get_profile_data")]
         :: Socket.Emit "message" [("EventType", Socket.FStr "get_settings")]
         :: sent s)
    /\ String.concat "/" (split (href s)) = href s
    /\ includes "/" (last (split (href s)) EmptyString) = false.
Proof.
  intros s. split; [|split].
  - unfold on_connect. cbv zeta.
    destruct (includes "other-profile" (href s)).
    + cbn [sent emit]. do 3 f_equal.
      destruct (split (href s)) as [|h t] eqn:Hs;
        [now apply split_not_nil in Hs|].
      clear. revert h. induction t as [|x t IH]; intros h; [reflexivity|].
      cbn [last]. destruct t; [reflexivity|]. apply (IH x).
    + destruct (includes "change-password" (href s)); reflexivity.
  - apply split_joined.
  - pose proof (split_segments (href s)) as Hf.
    rewrite Forall_forall in Hf. apply Hf.
    destruct (split (href s)) as [|h t] eqn:Hs;
      [now apply split_not_nil in Hs|].
    clear. revert h. induction t as [|x t IH]; intros h; [now left|].
    right. apply (IH x).
Qed.

End ProfileAddress.
